(** * OreeStats email service: send queue, sticky mailboxes and tracking

    A shallow embedding of [email_service/models.py], [tracking.py],
    [utils.py], [tasks.py] and of the queueing view and the two public
    tracking views of [views.py].

    Conventions of the embedding.
    - A database table is the list of its rows, oldest row first; a
      model instance held by Python code is a row value, and [save] writes
      it back through its primary key.
    - UUIDs, e-mail addresses and opaque tokens are strings; instants are
      seconds since the epoch ([Z]); nullable columns are [option]s.
    - Everything the code does not decide itself (random tokens, the HTML
      tokenizer of BeautifulSoup, the Gmail API, Django settings, how the
      database sorts NULLs) is a field of [Env].
    - Python exceptions are values of [Exn]; a function that can raise
      returns a [result].
    - Every statement is committed on its own (Django's autocommit).  A
      row write succeeds when it satisfies the declared uniqueness
      constraints and the types of its columns: an [IntegerField] holds
      at most [int4_max], and what the [inet] column of a
      [GenericIPAddressField] takes is for the database to say.  One call
      of the code sees one value of [timezone.now()]. *)

From Stdlib Require Import ZArith List String Ascii Bool Arith Lia DecimalString.
From Stdlib Require Import Sorted.
Import ListNotations.
Open Scope string_scope.
Open Scope Z_scope.

(* ------------------------------------------------------------------ *)
(** ** Python string operations used by the code *)

Module Py.

(** [s.startswith(p)] *)
Definition startswith (s p : string) : bool := String.prefix p s.

(** [needle in s] *)
Fixpoint contains (needle s : string) : bool :=
  String.prefix needle s ||
  match s with
  | EmptyString => false
  | String _ s' => contains needle s'
  end.

Definition lower_ascii (c : ascii) : ascii :=
  let n := nat_of_ascii c in
  if ((65 <=? n) && (n <=? 90))%nat then ascii_of_nat (n + 32) else c.

(** [s.lower()], on ASCII letters *)
Fixpoint lower (s : string) : string :=
  match s with
  | EmptyString => EmptyString
  | String c s' => String (lower_ascii c) (lower s')
  end.

(** [c.isspace()] on the code points below 256: the blank, the controls
    9 to 13 and 28 to 31, NEL and the no-break space. *)
Definition is_space (c : ascii) : bool :=
  let n := nat_of_ascii c in
  ((n =? 32) || ((9 <=? n) && (n <=? 13)) || ((28 <=? n) && (n <=? 31))
   || (n =? 133) || (n =? 160))%nat.

Fixpoint lstrip (s : string) : string :=
  match s with
  | EmptyString => EmptyString
  | String c s' => if is_space c then lstrip s' else s
  end.

Fixpoint rstrip (s : string) : string :=
  match s with
  | EmptyString => EmptyString
  | String c s' =>
      match rstrip s' with
      | EmptyString => if is_space c then EmptyString else String c EmptyString
      | r => String c r
      end
  end.

(** [s.strip()] *)
Definition strip (s : string) : string := rstrip (lstrip s).

(** [s.split(',')[0]] *)
Fixpoint before_comma (s : string) : string :=
  match s with
  | EmptyString => EmptyString
  | String c s' =>
      if Ascii.eqb c ","%char then EmptyString else String c (before_comma s')
  end.

(** truth value of an optional string: [None] and the empty string are
    falsy *)
Definition truthy (o : option string) : bool :=
  match o with
  | None => false
  | Some s => negb (String.eqb s EmptyString)
  end.

(** [a or b] on an optional value whose [Some] is always truthy *)
Definition or_else {A : Type} (a : option A) (b : A) : A :=
  match a with
  | Some x => x
  | None => b
  end.

Definition is_ascii_alpha (c : ascii) : bool :=
  let n := nat_of_ascii c in
  (((65 <=? n) && (n <=? 90)) || ((97 <=? n) && (n <=? 122)))%nat.

Definition is_ascii_digit (c : ascii) : bool :=
  let n := nat_of_ascii c in
  ((48 <=? n) && (n <=? 57))%nat.

(** [c in scheme_chars] of [urllib.parse] *)
Definition is_scheme_char (c : ascii) : bool :=
  is_ascii_alpha c || is_ascii_digit c
  || Ascii.eqb c "+"%char || Ascii.eqb c "-"%char || Ascii.eqb c "."%char.

(** [url.lstrip(_WHATWG_C0_CONTROL_OR_SPACE)] *)
Fixpoint lstrip_c0 (s : string) : string :=
  match s with
  | EmptyString => EmptyString
  | String c s' => if (nat_of_ascii c <=? 32)%nat then lstrip_c0 s' else s
  end.

(** [url.replace(b, "")] for the tab, the line feed and the carriage
    return *)
Fixpoint remove_unsafe (s : string) : string :=
  match s with
  | EmptyString => EmptyString
  | String c s' =>
      let n := nat_of_ascii c in
      if ((n =? 9) || (n =? 10) || (n =? 13))%nat then remove_unsafe s'
      else String c (remove_unsafe s')
  end.

(** [url[:url.find(':')]] when there is a colon and every character
    before it is a scheme character *)
Fixpoint scheme_prefix (s : string) : option string :=
  match s with
  | EmptyString => None
  | String c s' =>
      if Ascii.eqb c ":"%char then Some EmptyString
      else if is_scheme_char c then
        match scheme_prefix s' with
        | Some p => Some (String c p)
        | None => None
        end
      else None
  end.

(** [urlsplit(url).scheme] of [urllib.parse]: the lower-cased text before
    the first colon when it begins with a letter and is made of scheme
    characters, the empty string otherwise. *)
Definition urlsplit_scheme (url : string) : string :=
  let url := remove_unsafe (lstrip_c0 url) in
  match url with
  | EmptyString => EmptyString
  | String c _ =>
      if is_ascii_alpha c then
        match scheme_prefix url with
        | Some p => lower p
        | None => EmptyString
        end
      else EmptyString
  end.

(** A printable ASCII character other than a square bracket. *)
Definition is_plain_char (c : ascii) : bool :=
  let n := nat_of_ascii c in
  ((33 <=? n) && (n <=? 126) && negb (n =? 91) && negb (n =? 93))%nat.

(** [all(p(c) for c in s)] *)
Fixpoint all_chars (p : ascii -> bool) (s : string) : bool :=
  match s with
  | EmptyString => true
  | String c s' => p c && all_chars p s'
  end.

(** [d[k] = v] on a dict kept in insertion order *)
Fixpoint dict_set (k v : string) (d : list (string * string))
  : list (string * string) :=
  match d with
  | [] => [(k, v)]
  | (k', v') :: d' =>
      if String.eqb k' k then (k', v) :: d' else (k', v') :: dict_set k v d'
  end.

End Py.

(* ------------------------------------------------------------------ *)
(** ** models.py *)

Definition uuid := string.
Definition datetime := Z.

(** The largest value of the [integer] column of an [IntegerField]. *)
Definition int4_max : Z := 2147483647.

(** The last instant a [datetime] can hold, 9999-12-31 23:59:59, and the
    first one, 0001-01-01 00:00:00, and the largest number of days of a
    [timedelta]. *)
Definition datetime_max : datetime := 253402300799.
Definition datetime_min : datetime := -62135596800.
Definition timedelta_max_days : Z := 999999999.

(** A text the database stores: a PostgreSQL text has no NUL
    character. *)
Definition text_ok (s : string) : bool :=
  Py.all_chars (fun c => negb (nat_of_ascii c =? 0)%nat) s.

Definition int4_ok (z : Z) : bool := (- int4_max - 1 <=? z) && (z <=? int4_max).

Inductive EventType := EV_SENT | EV_OPEN | EV_CLICK | EV_REPLY | EV_BOUNCE.

Inductive TokenStatus := tok_active | tok_expired | tok_revoked.

Inductive QueueStatus := PENDING | SENDING | SENT | FAILED | CANCELLED.

Inductive AssignmentStatus := asg_active | asg_inactive.

Definition EventType_eqb (a b : EventType) : bool :=
  match a, b with
  | EV_SENT, EV_SENT | EV_OPEN, EV_OPEN | EV_CLICK, EV_CLICK
  | EV_REPLY, EV_REPLY | EV_BOUNCE, EV_BOUNCE => true
  | _, _ => false
  end.

Definition TokenStatus_eqb (a b : TokenStatus) : bool :=
  match a, b with
  | tok_active, tok_active | tok_expired, tok_expired
  | tok_revoked, tok_revoked => true
  | _, _ => false
  end.

Definition QueueStatus_eqb (a b : QueueStatus) : bool :=
  match a, b with
  | PENDING, PENDING | SENDING, SENDING | SENT, SENT
  | FAILED, FAILED | CANCELLED, CANCELLED => true
  | _, _ => false
  end.

Definition AssignmentStatus_eqb (a b : AssignmentStatus) : bool :=
  match a, b with
  | asg_active, asg_active | asg_inactive, asg_inactive => true
  | _, _ => false
  end.

(** [EmailEvent], table [email_events].  Rows are only ever appended and
    never read back by the modelled code, so the generated primary key and
    the reply columns are left out. *)
Record EmailEvent := mkEmailEvent {
  ev_lead_id : uuid;
  ev_client_id : uuid;
  ev_event_type : EventType;
  ev_message_id : string;
  ev_thread_id : option string;
  ev_sequence_number : option Z;
  ev_email_subject : string;
  ev_url : option string;
  ev_user_agent : option string;
  ev_ip_address : option string;
  ev_device_type : string;
  ev_created_at : datetime
}.

(** [EmailTrackingPixel], table [email_tracking_pixels];
    [pixel_id] is unique. *)
Record EmailTrackingPixel := mkEmailTrackingPixel {
  px_id : uuid;
  px_lead_id : uuid;
  px_message_id : string;
  px_pixel_id : string;
  px_opened : bool;
  px_open_count : Z;
  px_first_opened_at : option datetime;
  px_last_opened_at : option datetime;
  px_created_at : datetime
}.

(** [EmailClickTracking], table [email_click_tracking];
    [click_id] is unique. *)
Record EmailClickTracking := mkEmailClickTracking {
  ck_id : uuid;
  ck_lead_id : uuid;
  ck_message_id : string;
  ck_click_id : string;
  ck_destination_url : string;
  ck_click_count : Z;
  ck_first_clicked_at : option datetime;
  ck_last_clicked_at : option datetime;
  ck_created_at : datetime
}.

(** [GmailToken], table [gmail_tokens]; [(client_id, email_address)] is
    unique.  The OAuth credentials are only handed to the Gmail client. *)
Record GmailToken := mkGmailToken {
  tk_id : uuid;
  tk_client_id : uuid;
  tk_email_address : string;
  tk_status : TokenStatus;
  tk_send_priority : Z;
  tk_daily_send_count : Z;
  tk_daily_send_limit : Z;
  tk_last_used_at : option datetime
}.

(** [EmailSendQueue], table [email_send_queue]. *)
Record EmailSendQueue := mkEmailSendQueue {
  q_id : uuid;
  q_lead_id : uuid;
  q_client_id : uuid;
  q_recipient_email : string;
  q_email_subject : string;
  q_email_body : string;
  q_sequence_number : Z;
  q_scheduled_for : datetime;
  q_status : QueueStatus;
  q_attempts : Z;
  q_max_attempts : Z;
  q_last_error : option string;
  q_failed_at : option datetime;
  q_message_id : option string;
  q_sent_at : option datetime;
  q_sent_from_email : option string
}.

(** [LeadMailboxAssignment], table [lead_mailbox_assignments];
    [unique_together = [['lead_id', 'client_id']]]. *)
Record LeadMailboxAssignment := mkLeadMailboxAssignment {
  la_id : uuid;
  la_lead_id : uuid;
  la_client_id : uuid;
  la_assigned_email : string;
  la_assigned_at : datetime;
  la_last_used_at : datetime;
  la_email_count : Z;
  la_status : AssignmentStatus
}.

(** The columns of the external [clients] table that the tasks read and
    write with raw SQL; dates are day numbers. *)
Record ClientRow := mkClientRow {
  cl_id : uuid;
  cl_gmail_daily_limit : Z;
  cl_emails_sent_today : Z;
  cl_last_reset_date : Z
}.

(** The columns of the external [leads] table written with raw SQL. *)
Record LeadRow := mkLeadRow {
  ld_id : uuid;
  ld_emails_sent : Z;
  ld_emails_opened : Z;
  ld_emails_clicked : Z;
  ld_first_opened_at : option datetime;
  ld_first_clicked_at : option datetime;
  ld_last_engagement_type : option EventType;
  ld_last_engagement_at : option datetime
}.

(** The database, plus the number of random values drawn so far. *)
Record DB := mkDB {
  email_events : list EmailEvent;
  email_tracking_pixels : list EmailTrackingPixel;
  email_click_tracking : list EmailClickTracking;
  gmail_tokens : list GmailToken;
  email_send_queue : list EmailSendQueue;
  lead_mailbox_assignments : list LeadMailboxAssignment;
  clients : list ClientRow;
  leads : list LeadRow;
  rng : nat
}.

Definition with_events (f : list EmailEvent -> list EmailEvent) (d : DB) : DB :=
  mkDB (f (email_events d)) (email_tracking_pixels d) (email_click_tracking d)
       (gmail_tokens d) (email_send_queue d) (lead_mailbox_assignments d)
       (clients d) (leads d) (rng d).

Definition with_pixels
  (f : list EmailTrackingPixel -> list EmailTrackingPixel) (d : DB) : DB :=
  mkDB (email_events d) (f (email_tracking_pixels d)) (email_click_tracking d)
       (gmail_tokens d) (email_send_queue d) (lead_mailbox_assignments d)
       (clients d) (leads d) (rng d).

Definition with_clicks
  (f : list EmailClickTracking -> list EmailClickTracking) (d : DB) : DB :=
  mkDB (email_events d) (email_tracking_pixels d) (f (email_click_tracking d))
       (gmail_tokens d) (email_send_queue d) (lead_mailbox_assignments d)
       (clients d) (leads d) (rng d).

Definition with_tokens (f : list GmailToken -> list GmailToken) (d : DB) : DB :=
  mkDB (email_events d) (email_tracking_pixels d) (email_click_tracking d)
       (f (gmail_tokens d)) (email_send_queue d) (lead_mailbox_assignments d)
       (clients d) (leads d) (rng d).

Definition with_queue
  (f : list EmailSendQueue -> list EmailSendQueue) (d : DB) : DB :=
  mkDB (email_events d) (email_tracking_pixels d) (email_click_tracking d)
       (gmail_tokens d) (f (email_send_queue d)) (lead_mailbox_assignments d)
       (clients d) (leads d) (rng d).

Definition with_assignments
  (f : list LeadMailboxAssignment -> list LeadMailboxAssignment) (d : DB) : DB :=
  mkDB (email_events d) (email_tracking_pixels d) (email_click_tracking d)
       (gmail_tokens d) (email_send_queue d) (f (lead_mailbox_assignments d))
       (clients d) (leads d) (rng d).

Definition with_clients (f : list ClientRow -> list ClientRow) (d : DB) : DB :=
  mkDB (email_events d) (email_tracking_pixels d) (email_click_tracking d)
       (gmail_tokens d) (email_send_queue d) (lead_mailbox_assignments d)
       (f (clients d)) (leads d) (rng d).

Definition with_leads (f : list LeadRow -> list LeadRow) (d : DB) : DB :=
  mkDB (email_events d) (email_tracking_pixels d) (email_click_tracking d)
       (gmail_tokens d) (email_send_queue d) (lead_mailbox_assignments d)
       (clients d) (f (leads d)) (rng d).

(** Drawing one random value. *)
Definition tick (d : DB) : DB :=
  mkDB (email_events d) (email_tracking_pixels d) (email_click_tracking d)
       (gmail_tokens d) (email_send_queue d) (lead_mailbox_assignments d)
       (clients d) (leads d) (S (rng d)).

(* ------------------------------------------------------------------ *)
(** ** The outside world *)

(** One token of an HTML document in document order, as the
    [html.parser] tokenizer delivers them.  [soup.find_all('a', href=True)]
    walks the start tags in this order and [link['href'] = ...] rewrites
    one attribute of one start tag in place. *)
Inductive HtmlToken :=
| StartTag (name : string) (attrs : list (string * string))
| EndTag (name : string)
| Text (s : string).

(** The dict that [GmailClient.send_email] returns. *)
Inductive SendResult :=
| SendOk (message_id : string) (thread_id : option string)
| SendError (error : string).

(** What [HttpResponseRedirect(url)] does with a URL before it looks at
    the scheme: it goes on, it raises [DisallowedRedirect] (the URL is
    longer than the release allows), or [urlsplit] raises [ValueError]
    (a host with a stray square bracket, a host in brackets that is not
    an address, a host that NFKC normalisation changes). *)
Inductive UrlVerdict :=
| UrlParsed
| UrlDisallowed
| UrlInvalid.

Record Env := mkEnv {
  (** [uuid.uuid4()], the n-th value drawn *)
  uuid4 : nat -> uuid;
  (** [secrets.token_urlsafe(32)], the n-th value drawn *)
  token_urlsafe : nat -> string;
  (** [settings.TRACKING_DOMAIN] and [settings.TRACKING_PROTOCOL] *)
  TRACKING_DOMAIN : string;
  TRACKING_PROTOCOL : string;
  (** [BeautifulSoup(html, 'html.parser')] and [str(soup)] *)
  parse_html : string -> list HtmlToken;
  render_html : list HtmlToken -> string;
  (** whether [ORDER BY col ASC] of the database puts NULLs first *)
  nulls_first : bool;
  (** whether the database takes the text as the value of the [inet]
      column of a [GenericIPAddressField]; when it does not, the
      statement raises [DataError] *)
  inet_accepts : string -> bool;
  (** the verdict of the installed Python and Django on a URL that has a
      square bracket or a character outside printable ASCII, or that is
      longer than 2048 characters *)
  url_verdict : string -> UrlVerdict;
  (** [GmailClientFactory.from_gmail_token]: [Some msg] when the
      constructor raises (token refresh failed) *)
  gmail_connect : nat -> GmailToken -> option string;
  (** [gmail_client.send_email(to_email, subject, body_html)] *)
  gmail_send : nat -> GmailToken -> string -> string -> string -> SendResult
}.

(** Python exceptions, with the text [str(e)] gives. *)
Inductive Exn :=
| ValueError (msg : string)
| IntegrityError (msg : string)
| MultipleObjectsReturned (msg : string)
| Exception (msg : string).

Definition str (e : Exn) : string :=
  match e with
  | ValueError m | IntegrityError m | MultipleObjectsReturned m
  | Exception m => m
  end.

Inductive result (A : Type) :=
| Ok (a : A)
| Raise (e : Exn).
Arguments Ok {A} a.
Arguments Raise {A} e.

(* ------------------------------------------------------------------ *)
(** ** The part of the Django ORM the code uses *)

Module Orm.
Section Table.
Context {R : Type}.

(** [Model.objects.get(...)]: the single matching row, [DoesNotExist]
    or [MultipleObjectsReturned]. *)
Inductive Lookup :=
| Found (r : R)
| DoesNotExist
| Multiple.

Definition get (P : R -> bool) (t : list R) : Lookup :=
  match filter P t with
  | [] => DoesNotExist
  | [r] => Found r
  | _ :: _ :: _ => Multiple
  end.

(** [UPDATE ... SET ... WHERE P] *)
Definition update_where (P : R -> bool) (f : R -> R) (t : list R) : list R :=
  map (fun r => if P r then f r else r) t.

(** [instance.save()]: update the row with the instance's primary key,
    insert when there is none. *)
Definition save (pk : R -> uuid) (x : R) (t : list R) : list R :=
  if existsb (fun r => String.eqb (pk r) (pk x)) t
  then update_where (fun r => String.eqb (pk r) (pk x)) (fun _ => x) t
  else (t ++ [x])%list.

(** [queryset.order_by(...)]: a stable sort, rows with equal keys keep
    their table order. *)
Fixpoint insert_sorted (le : R -> R -> bool) (x : R) (t : list R) : list R :=
  match t with
  | [] => [x]
  | y :: t' => if le x y then x :: t else y :: insert_sorted le x t'
  end.

Definition order_by (le : R -> R -> bool) (t : list R) : list R :=
  fold_right (insert_sorted le) [] t.

(** [queryset.exists()] and [queryset.first()] *)
Definition exists_ (t : list R) : bool :=
  match t with [] => false | _ :: _ => true end.

Definition first (t : list R) : option R := hd_error t.
End Table.
Arguments Lookup R : clear implicits.

(** Ascending order on a nullable timestamp column. *)
Definition le_nullable (nulls_first : bool) (a b : option datetime) : bool :=
  match a, b with
  | None, None => true
  | None, Some _ => nulls_first
  | Some _, None => negb nulls_first
  | Some x, Some y => x <=? y
  end.
End Orm.

(* ------------------------------------------------------------------ *)
(** ** tracking.py *)

Module EmailTracker.

Definition generate_pixel_id (env : Env) (db : DB) : string * DB :=
  (token_urlsafe env (rng db), tick db).

Definition generate_click_id (env : Env) (db : DB) : string * DB :=
  (token_urlsafe env (rng db), tick db).

(** The default of the [id] column. *)
Definition fresh_pk (env : Env) (db : DB) : uuid * DB :=
  (uuid4 env (rng db), tick db).

(** [create_tracking_pixel]; the INSERT raises [IntegrityError] when
    [pixel_id] or the primary key is taken, and the method then returns
    [None]. *)
Definition create_tracking_pixel (env : Env) (now : datetime)
    (lead_id : uuid) (message_id : string) (client_id : uuid) (db : DB)
  : option string * DB :=
  let '(pixel_id, db1) := generate_pixel_id env db in
  let '(pk, db2) := fresh_pk env db1 in
  if existsb (fun p => String.eqb (px_pixel_id p) pixel_id
                       || String.eqb (px_id p) pk)
             (email_tracking_pixels db2)
  then (None, db2)
  else
    let pixel := mkEmailTrackingPixel pk lead_id message_id pixel_id
                   false 0 None None now in
    let db3 := with_pixels (fun t => (t ++ [pixel])%list) db2 in
    let pixel_url := TRACKING_PROTOCOL env ++ "://" ++ TRACKING_DOMAIN env
                     ++ "/api/track/open/" ++ px_pixel_id pixel ++ ".png" in
    (Some pixel_url, db3).

Definition tracking_url_of (env : Env) (click_id : string) : string :=
  TRACKING_PROTOCOL env ++ "://" ++ TRACKING_DOMAIN env
  ++ "/api/track/click/" ++ click_id.

(** [create_click_tracking]; on [IntegrityError] the method returns the
    original URL. *)
Definition create_click_tracking (env : Env) (now : datetime)
    (lead_id : uuid) (message_id : string) (destination_url : string)
    (client_id : uuid) (db : DB) : string * DB :=
  let '(click_id, db1) := generate_click_id env db in
  let '(pk, db2) := fresh_pk env db1 in
  if existsb (fun c => String.eqb (ck_click_id c) click_id
                       || String.eqb (ck_id c) pk)
             (email_click_tracking db2)
  then (destination_url, db2)
  else
    let click := mkEmailClickTracking pk lead_id message_id click_id
                   destination_url 0 None None now in
    let db3 := with_clicks (fun t => (t ++ [click])%list) db2 in
    (tracking_url_of env (ck_click_id click), db3).

(** [_parse_device_type] *)
Definition _parse_device_type (user_agent : option string) : string :=
  if negb (Py.truthy user_agent) then "unknown"
  else
    let user_agent_lower := Py.lower (Py.or_else user_agent EmptyString) in
    if existsb (fun device => Py.contains device user_agent_lower)
               ["iphone"; "android"; "mobile"] then "mobile"
    else if existsb (fun device => Py.contains device user_agent_lower)
                    ["ipad"; "tablet"] then "tablet"
    else if existsb (fun device => Py.contains device user_agent_lower)
                    ["windows"; "mac"; "linux"] then "desktop"
    else "unknown".

Definition coalesce (a : option datetime) (b : datetime) : option datetime :=
  match a with
  | Some x => Some x
  | None => Some b
  end.

(** Whether the database takes an event row with this [ip_address]; a
    missing or empty address is stored as NULL. *)
Definition ip_address_ok (env : Env) (ip_address : option string) : bool :=
  match ip_address with
  | Some s => negb (Py.truthy (Some s)) || inet_accepts env s
  | None => true
  end.

(** Whether the INSERT of an event row with this [user_agent] and this
    [ip_address] goes through: the user agent is a text the database
    stores and the address is one it takes. *)
Definition event_row_ok (env : Env) (user_agent ip_address : option string)
  : bool :=
  match user_agent with
  | Some s => text_ok s
  | None => true
  end
  && ip_address_ok env ip_address.

(** [_update_lead_open_metrics]; the counters of [leads] are integer
    columns, and when the UPDATE raises the method logs the error and
    returns. *)
Definition _update_lead_open_metrics (lead_id : uuid) (timestamp : datetime)
    (db : DB) : DB :=
  if existsb (fun l => String.eqb (ld_id l) lead_id
                       && (int4_max <? ld_emails_opened l + 1))
             (leads db)
  then db
  else
    with_leads
      (Orm.update_where (fun l => String.eqb (ld_id l) lead_id)
         (fun l => mkLeadRow (ld_id l) (ld_emails_sent l)
                     (ld_emails_opened l + 1) (ld_emails_clicked l)
                     (coalesce (ld_first_opened_at l) timestamp)
                     (ld_first_clicked_at l)
                     (Some EV_OPEN) (Some timestamp)))
      db.

(** [_update_lead_click_metrics], with the same [except]. *)
Definition _update_lead_click_metrics (lead_id : uuid) (timestamp : datetime)
    (db : DB) : DB :=
  if existsb (fun l => String.eqb (ld_id l) lead_id
                       && (int4_max <? ld_emails_clicked l + 1))
             (leads db)
  then db
  else
    with_leads
      (Orm.update_where (fun l => String.eqb (ld_id l) lead_id)
         (fun l => mkLeadRow (ld_id l) (ld_emails_sent l)
                     (ld_emails_opened l) (ld_emails_clicked l + 1)
                     (ld_first_opened_at l)
                     (coalesce (ld_first_clicked_at l) timestamp)
                     (Some EV_CLICK) (Some timestamp)))
      db.

(** [client_id or lead_id] *)
Definition client_or (client_id : option uuid) (lead_id : uuid) : uuid :=
  if Py.truthy client_id then Py.or_else client_id lead_id else lead_id.

(** [record_open].  [pixel.save()] raises when [open_count] leaves the
    range of its column, and [EmailEvent.objects.create] raises when the
    database does not take the event row (its [ip_address] or its
    [user_agent]); either way the method ends in [except Exception] and
    returns [False], with the writes made so far in place. *)
Definition record_open (env : Env) (now : datetime) (pixel_id : string)
    (user_agent ip_address : option string) (client_id : option uuid)
    (db : DB) : bool * DB :=
  match Orm.get (fun p => String.eqb (px_pixel_id p) pixel_id)
                (email_tracking_pixels db) with
  | Orm.Found pixel =>
      let opened1 := if negb (px_opened pixel) then true else px_opened pixel in
      let first1 := if negb (px_opened pixel) then Some now
                    else px_first_opened_at pixel in
      let pixel' := mkEmailTrackingPixel (px_id pixel) (px_lead_id pixel)
                      (px_message_id pixel) (px_pixel_id pixel) opened1
                      (px_open_count pixel + 1) first1 (Some now)
                      (px_created_at pixel) in
      if int4_max <? px_open_count pixel' then (false, db)
      else
        let db1 := with_pixels (Orm.save px_id pixel') db in
        let device_type := _parse_device_type user_agent in
        let event := mkEmailEvent (px_lead_id pixel')
                       (client_or client_id (px_lead_id pixel'))
                       EV_OPEN (px_message_id pixel') None None EmptyString
                       None user_agent ip_address device_type now in
        if negb (event_row_ok env (ev_user_agent event) (ev_ip_address event)) then (false, db1)
        else
          let db2 := with_events (fun t => (t ++ [event])%list) db1 in
          let db3 := _update_lead_open_metrics (px_lead_id pixel') now db2 in
          (true, db3)
  | Orm.DoesNotExist => (false, db)
  | Orm.Multiple => (false, db)
  end.

Record ClickResult := mkClickResult {
  success : bool;
  destination_url : string
}.

(** [record_click], with the same two ways into [except Exception],
    where it returns the fallback destination. *)
Definition record_click (env : Env) (now : datetime) (click_id : string)
    (user_agent ip_address : option string) (client_id : option uuid)
    (db : DB) : ClickResult * DB :=
  match Orm.get (fun c => String.eqb (ck_click_id c) click_id)
                (email_click_tracking db) with
  | Orm.Found click =>
      let first1 := if ck_click_count click =? 0 then Some now
                    else ck_first_clicked_at click in
      let click' := mkEmailClickTracking (ck_id click) (ck_lead_id click)
                      (ck_message_id click) (ck_click_id click)
                      (ck_destination_url click) (ck_click_count click + 1)
                      first1 (Some now) (ck_created_at click) in
      if int4_max <? ck_click_count click' then (mkClickResult false "/", db)
      else
        let db1 := with_clicks (Orm.save ck_id click') db in
        let device_type := _parse_device_type user_agent in
        let event := mkEmailEvent (ck_lead_id click')
                       (client_or client_id (ck_lead_id click'))
                       EV_CLICK (ck_message_id click') None None EmptyString
                       (Some (ck_destination_url click')) user_agent ip_address
                       device_type now in
        if negb (event_row_ok env (ev_user_agent event) (ev_ip_address event))
        then (mkClickResult false "/", db1)
        else
          let db2 := with_events (fun t => (t ++ [event])%list) db1 in
          let db3 := _update_lead_click_metrics (ck_lead_id click') now db2 in
          (mkClickResult true (ck_destination_url click'), db3)
  | Orm.DoesNotExist => (mkClickResult false "/", db)
  | Orm.Multiple => (mkClickResult false "/", db)
  end.

(** [link['href']] of a start tag: the first attribute of that name *)
Fixpoint attr_get (k : string) (attrs : list (string * string)) : option string :=
  match attrs with
  | [] => None
  | (k', v) :: attrs' => if String.eqb k' k then Some v else attr_get k attrs'
  end.

(** What [soup.find_all('a', href=True)] selects. *)
Definition anchor_href (tok : HtmlToken) : option string :=
  match tok with
  | StartTag name attrs => if String.eqb name "a" then attr_get "href" attrs else None
  | _ => None
  end.

Definition set_href (tok : HtmlToken) (url : string) : HtmlToken :=
  match tok with
  | StartTag name attrs => StartTag name (Py.dict_set "href" url attrs)
  | _ => tok
  end.

(** The two [continue] tests of the loop. *)
Definition skipped (original_url : string) : bool :=
  (Py.startswith original_url "mailto:" || Py.startswith original_url "tel:"
   || Py.startswith original_url "#")
  || Py.contains "track/click" original_url.

(** The [for link in soup.find_all('a', href=True)] loop. *)
Fixpoint replace_links_loop (env : Env) (now : datetime)
    (lead_id : uuid) (message_id : string) (client_id : uuid)
    (soup : list HtmlToken) (tracked_links : list (string * string)) (db : DB)
  : list HtmlToken * list (string * string) * DB :=
  match soup with
  | [] => ([], tracked_links, db)
  | tok :: rest =>
      match anchor_href tok with
      | Some original_url =>
          if skipped original_url then
            let '(rest', tracked', db') :=
              replace_links_loop env now lead_id message_id client_id
                rest tracked_links db in
            (tok :: rest', tracked', db')
          else
            let '(tracking_url, db1) :=
              create_click_tracking env now lead_id message_id original_url
                client_id db in
            let '(rest', tracked', db') :=
              replace_links_loop env now lead_id message_id client_id rest
                (Py.dict_set original_url tracking_url tracked_links) db1 in
            (set_href tok tracking_url :: rest', tracked', db')
      | None =>
          let '(rest', tracked', db') :=
            replace_links_loop env now lead_id message_id client_id
              rest tracked_links db in
          (tok :: rest', tracked', db')
      end
  end.

Record ReplaceResult := mkReplaceResult {
  html : string;
  tracked_links : list (string * string)
}.

(** [replace_links_with_tracking] on a parsed document *)
Definition replace_links_in_soup (env : Env) (now : datetime)
    (soup : list HtmlToken) (lead_id : uuid) (message_id : string)
    (client_id : uuid) (db : DB)
  : list HtmlToken * list (string * string) * DB :=
  replace_links_loop env now lead_id message_id client_id soup [] db.

(** [replace_links_with_tracking] *)
Definition replace_links_with_tracking (env : Env) (now : datetime)
    (html_body : string) (lead_id : uuid) (message_id : string)
    (client_id : uuid) (db : DB) : ReplaceResult * DB :=
  let soup := parse_html env html_body in
  let '(soup', tracked, db') :=
    replace_links_in_soup env now soup lead_id message_id client_id db in
  (mkReplaceResult (render_html env soup') tracked, db').

Definition dq : string := String (ascii_of_nat 34) EmptyString.

(** The [<img>] element appended for the pixel. *)
Definition pixel_html (pixel_url : string) : string :=
  "<img src=" ++ dq ++ pixel_url ++ dq ++ " width=" ++ dq ++ "1" ++ dq
  ++ " height=" ++ dq ++ "1" ++ dq ++ " style=" ++ dq ++ "display:none;" ++ dq
  ++ " alt=" ++ dq ++ dq ++ " />".

(** [add_tracking_to_email] *)
Definition add_tracking_to_email (env : Env) (now : datetime)
    (html_body : string) (lead_id : uuid) (message_id : string)
    (client_id : uuid) (db : DB) : string * DB :=
  let '(res, db1) :=
    replace_links_with_tracking env now html_body lead_id message_id
      client_id db in
  let html_with_tracked_links := html res in
  let '(pixel_url, db2) :=
    create_tracking_pixel env now lead_id message_id client_id db1 in
  match pixel_url with
  | Some url =>
      (html_with_tracked_links ++ pixel_html url, db2)
  | None => (html_with_tracked_links, db2)
  end.

End EmailTracker.

(* ------------------------------------------------------------------ *)
(** ** utils.py *)

Module Utils.

(** The request headers that the tracking views read. *)
Record HttpRequest := mkHttpRequest {
  HTTP_USER_AGENT : option string;
  HTTP_X_FORWARDED_FOR : option string;
  REMOTE_ADDR : option string
}.

(** [get_client_ip] *)
Definition get_client_ip (request : HttpRequest) : option string :=
  if Py.truthy (HTTP_X_FORWARDED_FOR request)
  then Some (Py.strip (Py.before_comma
               (Py.or_else (HTTP_X_FORWARDED_FOR request) EmptyString)))
  else REMOTE_ADDR request.

Definition is_active_token_of (client_id : uuid) (t : GmailToken) : bool :=
  String.eqb (tk_client_id t) client_id && TokenStatus_eqb (tk_status t) tok_active.

Definition set_last_used_at (t : GmailToken) (now : datetime) : GmailToken :=
  mkGmailToken (tk_id t) (tk_client_id t) (tk_email_address t) (tk_status t)
    (tk_send_priority t) (tk_daily_send_count t) (tk_daily_send_limit t)
    (Some now).

(** [get_next_mailbox_token]: the least recently used active token of
    the client; its [last_used_at] is written back. *)
Definition get_next_mailbox_token (env : Env) (now : datetime)
    (client_id : uuid) (db : DB) : result GmailToken * DB :=
  let tokens :=
    Orm.order_by
      (fun a b => Orm.le_nullable (nulls_first env)
                    (tk_last_used_at a) (tk_last_used_at b))
      (filter (is_active_token_of client_id) (gmail_tokens db)) in
  match Orm.first tokens with
  | None =>
      (Raise (ValueError ("No active Gmail tokens for client " ++ client_id
                          ++ ". Please complete OAuth setup.")), db)
  | Some next_token =>
      let next_token' := set_last_used_at next_token now in
      let db1 :=
        with_tokens
          (Orm.update_where
             (fun t => String.eqb (tk_id t) (tk_id next_token'))
             (fun t => set_last_used_at t now))
          db in
      (Ok next_token', db1)
  end.

Definition remaining (t : GmailToken) : Z :=
  tk_daily_send_limit t - tk_daily_send_count t.

(** [get_mailbox_with_capacity]; no caller in the repository. *)
Definition get_mailbox_with_capacity (env : Env) (client_id : uuid) (db : DB)
  : result GmailToken :=
  let tokens :=
    Orm.order_by
      (fun a b =>
         (remaining b <? remaining a)
         || ((remaining a =? remaining b)
             && Orm.le_nullable (nulls_first env)
                  (tk_last_used_at a) (tk_last_used_at b)))
      (filter (fun t => 0 <? remaining t)
         (filter (is_active_token_of client_id) (gmail_tokens db))) in
  match Orm.first tokens with
  | None =>
      Raise (ValueError
               ("All mailboxes have reached daily send limit for client "
                ++ client_id))
  | Some next_token => Ok next_token
  end.

(** [reset_daily_send_counts]; no caller in the repository. *)
Definition reset_daily_send_counts (db : DB) : Z * DB :=
  let is_active := fun t => TokenStatus_eqb (tk_status t) tok_active in
  (Z.of_nat (List.length (filter is_active (gmail_tokens db))),
   with_tokens
     (Orm.update_where is_active
        (fun t => mkGmailToken (tk_id t) (tk_client_id t) (tk_email_address t)
                    (tk_status t) (tk_send_priority t) 0
                    (tk_daily_send_limit t) (tk_last_used_at t)))
     db).

(** The INSERT of [LeadMailboxAssignment.objects.create]: it violates
    [unique_together] when any row, of whatever status, already has the
    pair [(lead_id, client_id)]. *)
Definition create_assignment (env : Env) (now : datetime)
    (lead_id client_id : uuid) (assigned_email : string) (db : DB)
  : result LeadMailboxAssignment * DB :=
  let '(pk, db1) := EmailTracker.fresh_pk env db in
  if existsb (fun a => (String.eqb (la_lead_id a) lead_id
                        && String.eqb (la_client_id a) client_id)
                       || String.eqb (la_id a) pk)
             (lead_mailbox_assignments db1)
  then (Raise (IntegrityError
                 "duplicate key value violates unique constraint"), db1)
  else
    let row := mkLeadMailboxAssignment pk lead_id client_id assigned_email
                 now now 1 asg_active in
    (Ok row, with_assignments (fun t => (t ++ [row])%list) db1).

(** The tail of [get_or_assign_mailbox_for_lead], from the comment
    "Assign a new mailbox using round-robin logic" on. *)
Definition assign_new_mailbox (env : Env) (now : datetime)
    (lead_id client_id : uuid) (db : DB) : result GmailToken * DB :=
  match get_next_mailbox_token env now client_id db with
  | (Raise e, db1) => (Raise e, db1)
  | (Ok token, db1) =>
      match create_assignment env now lead_id client_id
              (tk_email_address token) db1 with
      | (Raise e, db2) => (Raise e, db2)
      | (Ok _, db2) => (Ok token, db2)
      end
  end.

Definition is_active_assignment_of (lead_id client_id : uuid)
    (a : LeadMailboxAssignment) : bool :=
  String.eqb (la_lead_id a) lead_id && String.eqb (la_client_id a) client_id
  && AssignmentStatus_eqb (la_status a) asg_active.

Definition is_active_mailbox (email_address : string) (client_id : uuid)
    (t : GmailToken) : bool :=
  String.eqb (tk_email_address t) email_address
  && String.eqb (tk_client_id t) client_id
  && TokenStatus_eqb (tk_status t) tok_active.

(** [get_or_assign_mailbox_for_lead] *)
Definition get_or_assign_mailbox_for_lead (env : Env) (now : datetime)
    (lead_id client_id : uuid) (db : DB) : result GmailToken * DB :=
  match Orm.get (is_active_assignment_of lead_id client_id)
                (lead_mailbox_assignments db) with
  | Orm.Found assignment =>
      match Orm.get (is_active_mailbox (la_assigned_email assignment) client_id)
                    (gmail_tokens db) with
      | Orm.Found token =>
          (* save(update_fields=['last_used_at', 'email_count']) *)
          let db1 :=
            with_assignments
              (Orm.update_where
                 (fun a => String.eqb (la_id a) (la_id assignment))
                 (fun a => mkLeadMailboxAssignment (la_id a) (la_lead_id a)
                             (la_client_id a) (la_assigned_email a)
                             (la_assigned_at a) now
                             (la_email_count assignment + 1) (la_status a)))
              db in
          (Ok token, db1)
      | Orm.DoesNotExist =>
          (* save(update_fields=['status']) *)
          let db1 :=
            with_assignments
              (Orm.update_where
                 (fun a => String.eqb (la_id a) (la_id assignment))
                 (fun a => mkLeadMailboxAssignment (la_id a) (la_lead_id a)
                             (la_client_id a) (la_assigned_email a)
                             (la_assigned_at a) (la_last_used_at a)
                             (la_email_count a) asg_inactive))
              db in
          assign_new_mailbox env now lead_id client_id db1
      | Orm.Multiple =>
          (Raise (MultipleObjectsReturned
                    "get() returned more than one GmailToken"), db)
      end
  | Orm.DoesNotExist => assign_new_mailbox env now lead_id client_id db
  | Orm.Multiple =>
      (Raise (MultipleObjectsReturned
                "get() returned more than one LeadMailboxAssignment"), db)
  end.

(** The dict that [parse_user_agent] returns. *)
Record UserAgentInfo := mkUserAgentInfo {
  browser : string;
  os : string;
  device : string
}.

(** [parse_user_agent] *)
Definition parse_user_agent (user_agent : option string) : UserAgentInfo :=
  if negb (Py.truthy user_agent) then
    mkUserAgentInfo "Unknown" "Unknown" "Unknown"
  else
    let user_agent_lower := Py.lower (Py.or_else user_agent EmptyString) in
    let browser :=
      if Py.contains "chrome" user_agent_lower then "Chrome"
      else if Py.contains "firefox" user_agent_lower then "Firefox"
      else if Py.contains "safari" user_agent_lower then "Safari"
      else if Py.contains "edge" user_agent_lower then "Edge"
      else "Other" in
    let os_name :=
      if Py.contains "windows" user_agent_lower then "Windows"
      else if Py.contains "mac" user_agent_lower then "macOS"
      else if Py.contains "linux" user_agent_lower then "Linux"
      else if Py.contains "android" user_agent_lower then "Android"
      else if Py.contains "ios" user_agent_lower
              || Py.contains "iphone" user_agent_lower
              || Py.contains "ipad" user_agent_lower then "iOS"
      else "Other" in
    let device :=
      if existsb (fun device => Py.contains device user_agent_lower)
                 ["iphone"; "android"; "mobile"] then "Mobile"
      else if existsb (fun device => Py.contains device user_agent_lower)
                      ["ipad"; "tablet"] then "Tablet"
      else "Desktop" in
    mkUserAgentInfo browser os_name device.

End Utils.

(* ------------------------------------------------------------------ *)
(** ** views.py: the two public tracking endpoints and the queueing
    endpoint *)

Module Views.

(** [HttpResponseRedirect redirect_to] stands for the response that the
    constructor builds from its argument; [HttpResponseBadRequest] is
    Django's answer, status 400, to the [DisallowedRedirect] that the
    constructor raises, and [HttpResponseServerError] its answer,
    status 500, to a [ValueError] that leaves the view. *)
Inductive HttpResponse :=
| PixelResponse (status : Z) (content_type cache_control pragma expires : string)
| HttpResponseRedirect (redirect_to : string)
| HttpResponseBadRequest
| HttpResponseServerError.

(** The test of [HttpResponseRedirectBase.__init__]: a URL with a scheme
    must have one of [allowed_schemes]. *)
Definition allowed_schemes : list string := ["http"; "https"; "ftp"].

Definition redirect_allowed (redirect_to : string) : bool :=
  let scheme := Py.urlsplit_scheme redirect_to in
  negb (Py.truthy (Some scheme))
  || existsb (String.eqb scheme) allowed_schemes.

(** A URL that every release parses: printable ASCII without square
    brackets, at most 2048 characters. *)
Definition plain_url (url : string) : bool :=
  Py.all_chars Py.is_plain_char url && (String.length url <=? 2048)%nat.

(** The constructor call [HttpResponseRedirect(redirect_to)] and what
    Django answers when it raises. *)
Definition redirect_response (env : Env) (redirect_to : string)
  : HttpResponse :=
  match (if plain_url redirect_to then UrlParsed
         else url_verdict env redirect_to) with
  | UrlInvalid => HttpResponseServerError
  | UrlDisallowed => HttpResponseBadRequest
  | UrlParsed =>
      if redirect_allowed redirect_to then HttpResponseRedirect redirect_to
      else HttpResponseBadRequest
  end.

(** [TrackingPixelGenerator.get_pixel_headers] with the 200 status of
    [HttpResponse]; the PNG bytes of the body are left out. *)
Definition pixel_response : HttpResponse :=
  PixelResponse 200 "image/png" "no-cache, no-store, must-revalidate"
    "no-cache" "0".

(** [request.META.get('HTTP_USER_AGENT', '')] *)
Definition user_agent_of (request : Utils.HttpRequest) : option string :=
  Some (Py.or_else (Utils.HTTP_USER_AGENT request) EmptyString).

(** [track_open] *)
Definition track_open (env : Env) (now : datetime)
    (request : Utils.HttpRequest) (pixel_id : string) (db : DB)
  : HttpResponse * DB :=
  let user_agent := user_agent_of request in
  let ip_address := Utils.get_client_ip request in
  let '(_, db') :=
    EmailTracker.record_open env now pixel_id user_agent ip_address None db in
  (pixel_response, db').

(** [track_click] *)
Definition track_click (env : Env) (now : datetime)
    (request : Utils.HttpRequest) (click_id : string) (db : DB)
  : HttpResponse * DB :=
  let user_agent := user_agent_of request in
  let ip_address := Utils.get_client_ip request in
  let '(result, db') :=
    EmailTracker.record_click env now click_id user_agent ip_address None db in
  let destination_url := EmailTracker.destination_url result in
  (redirect_response env destination_url, db').

(** [serializer.validated_data] of an [EmailSendRequestSerializer]; the
    [email_cta] text is stored and never read. *)
Record EmailSendRequest := mkEmailSendRequest {
  rq_lead_id : uuid;
  rq_client_id : uuid;
  rq_recipient_email : string;
  rq_email_subject : string;
  rq_email_body : string;
  rq_sequence_number : Z;
  rq_send_delay_days : Z;
  rq_scheduled_for : option datetime
}.

(** What [send_email] answers for valid request data: the two
    responses it builds, and the exception that leaves it. *)
Inductive QueueResponse :=
| Created (queue_id : uuid) (scheduled_for : datetime)
| ServerError (details : string)
| Unhandled (exception : string).

(** [send_email], from [data = serializer.validated_data] on.
    [timedelta(days=...)] and the sum with [timezone.now()] raise
    [OverflowError] outside their ranges, before the [try].  Inside the
    [try] the INSERT raises when an integer column is out of range or
    the generated primary key is taken, and the view answers 500. *)
Definition send_email (env : Env) (now : datetime) (data : EmailSendRequest)
    (db : DB) : QueueResponse * DB :=
  let scheduled :=
    match rq_scheduled_for data with
    | Some t => Some t
    | None =>
        let send_delay_days := rq_send_delay_days data in
        if (Z.abs send_delay_days <=? timedelta_max_days)
           && (datetime_min <=? now + send_delay_days * 86400)
           && (now + send_delay_days * 86400 <=? datetime_max)
        then Some (now + send_delay_days * 86400)
        else None
    end in
  match scheduled with
  | None => (Unhandled "OverflowError", db)
  | Some scheduled_for =>
      let '(pk, db1) := EmailTracker.fresh_pk env db in
      if negb (int4_ok (rq_sequence_number data)
               && int4_ok (rq_send_delay_days data))
      then (ServerError "integer out of range", db1)
      else if existsb (fun e => String.eqb (q_id e) pk) (email_send_queue db1)
      then (ServerError "duplicate key value violates unique constraint", db1)
      else
        let email_queue :=
          mkEmailSendQueue pk (rq_lead_id data) (rq_client_id data)
            (rq_recipient_email data) (rq_email_subject data)
            (rq_email_body data) (rq_sequence_number data) scheduled_for
            PENDING 0 3 None None None None None in
        (Created (q_id email_queue) scheduled_for,
         with_queue (fun t => (t ++ [email_queue])%list) db1)
  end.

End Views.

(* ------------------------------------------------------------------ *)
(** ** tasks.py *)

Module Tasks.

(** The day number of an instant, for [date.today()] and
    [CURRENT_DATE]. *)
Definition date_of (now : datetime) : Z := now / 86400.

(** [check_client_daily_limit] *)
Definition check_client_daily_limit (now : datetime) (client_id : uuid)
    (db : DB) : bool * DB :=
  match find (fun c => String.eqb (cl_id c) client_id) (clients db) with
  | None => (false, db)
  | Some row =>
      if cl_last_reset_date row <? date_of now then
        (true,
         with_clients
           (Orm.update_where (fun c => String.eqb (cl_id c) client_id)
              (fun c => mkClientRow (cl_id c) (cl_gmail_daily_limit c) 0
                          (date_of now)))
           db)
      else (cl_emails_sent_today row <? cl_gmail_daily_limit row, db)
  end.

(** [increment_client_daily_counter] *)
Definition increment_client_daily_counter (client_id : uuid) (db : DB) : DB :=
  with_clients
    (Orm.update_where (fun c => String.eqb (cl_id c) client_id)
       (fun c => mkClientRow (cl_id c) (cl_gmail_daily_limit c)
                   (cl_emails_sent_today c + 1) (cl_last_reset_date c)))
    db.

(** [update_lead_sent_metrics] *)
Definition update_lead_sent_metrics (now : datetime) (lead_id : uuid)
    (db : DB) : DB :=
  with_leads
    (Orm.update_where (fun l => String.eqb (ld_id l) lead_id)
       (fun l => mkLeadRow (ld_id l) (ld_emails_sent l + 1)
                   (ld_emails_opened l) (ld_emails_clicked l)
                   (ld_first_opened_at l) (ld_first_clicked_at l)
                   (Some EV_SENT) (Some now)))
    db.

(** The queryset [ready_emails], evaluated when the [for] loop starts. *)
Definition is_ready (now : datetime) (e : EmailSendQueue) : bool :=
  QueueStatus_eqb (q_status e) PENDING && (q_scheduled_for e <=? now).

Definition ready_emails (now : datetime) (db : DB) : list EmailSendQueue :=
  firstn 100
    (Orm.order_by (fun a b => q_scheduled_for a <=? q_scheduled_for b)
       (filter (is_ready now) (email_send_queue db))).

Definition set_status (s : QueueStatus) (e : EmailSendQueue) : EmailSendQueue :=
  mkEmailSendQueue (q_id e) (q_lead_id e) (q_client_id e) (q_recipient_email e)
    (q_email_subject e) (q_email_body e) (q_sequence_number e)
    (q_scheduled_for e) s (q_attempts e) (q_max_attempts e) (q_last_error e)
    (q_failed_at e) (q_message_id e) (q_sent_at e) (q_sent_from_email e).

(** [email.status = 'SENDING'; email.save()]: the whole in-memory row is
    written over the stored row with the same primary key. *)
Definition claim (email : EmailSendQueue) (db : DB) : EmailSendQueue * DB :=
  let email' := set_status SENDING email in
  (email', with_queue (Orm.save q_id email') db).

(** The [if result.get('success')] branch. *)
Definition on_success (now : datetime) (email : EmailSendQueue)
    (gmail_token : GmailToken) (message_id : string)
    (thread_id : option string) (db : DB) : EmailSendQueue * DB :=
  let email' :=
    mkEmailSendQueue (q_id email) (q_lead_id email) (q_client_id email)
      (q_recipient_email email) (q_email_subject email) (q_email_body email)
      (q_sequence_number email) (q_scheduled_for email) SENT
      (q_attempts email) (q_max_attempts email) (q_last_error email)
      (q_failed_at email) (Some message_id) (Some now)
      (Some (tk_email_address gmail_token)) in
  let db1 := with_queue (Orm.save q_id email') db in
  let event :=
    mkEmailEvent (q_lead_id email') (q_client_id email') EV_SENT message_id
      thread_id (Some (q_sequence_number email')) (q_email_subject email')
      None None None EmptyString now in
  let db2 := with_events (fun t => (t ++ [event])%list) db1 in
  let db3 := update_lead_sent_metrics now (q_lead_id email') db2 in
  let db4 := increment_client_daily_counter (q_client_id email') db3 in
  (email', db4).

(** The [except Exception as e] handler. *)
Definition on_exception (now : datetime) (e : Exn) (email : EmailSendQueue)
    (db : DB) : DB :=
  let attempts := q_attempts email + 1 in
  let last_error := Some (str e) in
  let email' :=
    if q_max_attempts email <=? attempts then
      mkEmailSendQueue (q_id email) (q_lead_id email) (q_client_id email)
        (q_recipient_email email) (q_email_subject email) (q_email_body email)
        (q_sequence_number email) (q_scheduled_for email) FAILED
        attempts (q_max_attempts email) last_error
        (Some now) (q_message_id email) (q_sent_at email)
        (q_sent_from_email email)
    else
      mkEmailSendQueue (q_id email) (q_lead_id email) (q_client_id email)
        (q_recipient_email email) (q_email_subject email) (q_email_body email)
        (q_sequence_number email) (now + 5 * 60) PENDING
        attempts (q_max_attempts email) last_error
        (q_failed_at email) (q_message_id email) (q_sent_at email)
        (q_sent_from_email email) in
  with_queue (Orm.save q_id email') db.

(** The [try] body after the claim, up to the result of the send. *)
Definition deliver (env : Env) (now : datetime) (email : EmailSendQueue)
    (db : DB) : result EmailSendQueue * DB :=
  match Utils.get_or_assign_mailbox_for_lead env now
          (q_lead_id email) (q_client_id email) db with
  | (Raise e, db1) => (Raise e, db1)
  | (Ok gmail_token, db1) =>
      match gmail_connect env (rng db1) gmail_token with
      | Some msg => (Raise (Exception msg), tick db1)
      | None =>
          let db2 := tick db1 in
          let temp_message_id := uuid4 env (rng db2) in
          let db3 := tick db2 in
          let '(html_with_tracking, db4) :=
            EmailTracker.add_tracking_to_email env now (q_email_body email)
              (q_lead_id email) temp_message_id (q_client_id email) db3 in
          match gmail_send env (rng db4) gmail_token (q_recipient_email email)
                  (q_email_subject email) html_with_tracking with
          | SendOk message_id thread_id =>
              let '(email', db5) :=
                on_success now email gmail_token message_id thread_id
                  (tick db4) in
              (Ok email', db5)
          | SendError error => (Raise (Exception error), tick db4)
          end
      end
  end.

Inductive Outcome := Skipped | Sent | Failed.

(** One iteration of the [for email in ready_emails] loop. *)
Definition process_email (env : Env) (now : datetime)
    (email : EmailSendQueue) (db : DB) : Outcome * DB :=
  let '(under_limit, db0) :=
    check_client_daily_limit now (q_client_id email) db in
  if negb under_limit then (Skipped, db0)
  else
    let '(email1, db1) := claim email db0 in
    match deliver env now email1 db1 with
    | (Ok _, db2) => (Sent, db2)
    | (Raise e, db2) => (Failed, on_exception now e email1 db2)
    end.

Record Counts := mkCounts { sent : Z; failed : Z }.

Fixpoint process_batch (env : Env) (now : datetime)
    (batch : list EmailSendQueue) (counts : Counts) (db : DB) : Counts * DB :=
  match batch with
  | [] => (counts, db)
  | email :: rest =>
      let '(o, db1) := process_email env now email db in
      let counts1 :=
        match o with
        | Skipped => counts
        | Sent => mkCounts (sent counts + 1) (failed counts)
        | Failed => mkCounts (sent counts) (failed counts + 1)
        end in
      process_batch env now rest counts1 db1
  end.

(** [process_email_queue] *)
Definition process_email_queue (env : Env) (now : datetime) (db : DB)
  : Counts * DB :=
  process_batch env now (ready_emails now db) (mkCounts 0 0) db.

(** [reset_daily_limits]; the result is [cursor.rowcount]. *)
Definition reset_daily_limits (now : datetime) (db : DB) : Z * DB :=
  let stale := fun c => cl_last_reset_date c <? date_of now in
  (Z.of_nat (List.length (filter stale (clients db))),
   with_clients
     (Orm.update_where stale
        (fun c => mkClientRow (cl_id c) (cl_gmail_daily_limit c) 0
                    (date_of now)))
     db).

(** [cleanup_expired_pixels]; the result is the number of deleted rows. *)
Definition cleanup_expired_pixels (now : datetime) (db : DB) : Z * DB :=
  let cutoff_date := now - 30 * 86400 in
  let expired := fun p => px_created_at p <? cutoff_date in
  (Z.of_nat (List.length (filter expired (email_tracking_pixels db))),
   with_pixels (filter (fun p => negb (expired p))) db).

(** [str(email.status)] *)
Definition status_name (s : QueueStatus) : string :=
  match s with
  | PENDING => "PENDING"
  | SENDING => "SENDING"
  | SENT => "SENT"
  | FAILED => "FAILED"
  | CANCELLED => "CANCELLED"
  end.

(** The dict that [send_single_email] returns. *)
Inductive SingleResult :=
| SingleSuccess (email_id : uuid)
| SingleError (error : string).

(** [send_single_email].  The boolean tells whether
    [process_email_queue.delay()] was called; the cycle it asks for runs
    later, in a worker.  Only [DoesNotExist] is caught. *)
Definition send_single_email (now : datetime) (email_queue_id : uuid)
    (db : DB) : result SingleResult * bool * DB :=
  match Orm.get (fun e => String.eqb (q_id e) email_queue_id)
                (email_send_queue db) with
  | Orm.Found email =>
      if negb (QueueStatus_eqb (q_status email) PENDING) then
        (Ok (SingleError ("Email status is " ++ status_name (q_status email)
                          ++ ", not PENDING")), false, db)
      else
        let email' :=
          mkEmailSendQueue (q_id email) (q_lead_id email) (q_client_id email)
            (q_recipient_email email) (q_email_subject email)
            (q_email_body email) (q_sequence_number email) now
            (q_status email) (q_attempts email) (q_max_attempts email)
            (q_last_error email) (q_failed_at email) (q_message_id email)
            (q_sent_at email) (q_sent_from_email email) in
        (Ok (SingleSuccess email_queue_id), true,
         with_queue (Orm.save q_id email') db)
  | Orm.DoesNotExist => (Ok (SingleError "Email not found"), false, db)
  | Orm.Multiple =>
      (Raise (MultipleObjectsReturned
                "get() returned more than one EmailSendQueue"), false, db)
  end.

End Tasks.

(* ------------------------------------------------------------------ *)
(** ** Two dispatcher cycles on one database

    A cycle first reads its batch and then works through it one job at a
    time; the steps of two cycles may interleave in any order.  [claims]
    logs which cycle executed the claim write for which job. *)

Module Cycles.

Inductive Worker := W1 | W2.

Definition Worker_eqb (a b : Worker) : bool :=
  match a, b with
  | W1, W1 | W2, W2 => true
  | _, _ => false
  end.

Inductive Action :=
| Fetch (w : Worker)
| Step (w : Worker).

Record Sys := mkSys {
  sys_db : DB;
  batch1 : list EmailSendQueue;
  batch2 : list EmailSendQueue;
  claims : list (Worker * uuid)
}.

Definition batch_of (w : Worker) (s : Sys) : list EmailSendQueue :=
  match w with W1 => batch1 s | W2 => batch2 s end.

Definition set_batch (w : Worker) (b : list EmailSendQueue) (s : Sys) : Sys :=
  match w with
  | W1 => mkSys (sys_db s) b (batch2 s) (claims s)
  | W2 => mkSys (sys_db s) (batch1 s) b (claims s)
  end.

Definition step (env : Env) (now : datetime) (a : Action) (s : Sys) : Sys :=
  match a with
  | Fetch w => set_batch w (Tasks.ready_emails now (sys_db s)) s
  | Step w =>
      match batch_of w s with
      | [] => s
      | email :: rest =>
          let '(o, db') := Tasks.process_email env now email (sys_db s) in
          let s' := set_batch w rest s in
          mkSys db' (batch1 s') (batch2 s')
            (match o with
             | Tasks.Skipped => claims s
             | _ => (claims s ++ [(w, q_id email)])%list
             end)
      end
  end.

Definition run (env : Env) (now : datetime) (schedule : list Action)
    (s : Sys) : Sys :=
  fold_left (fun s a => step env now a s) schedule s.

Definition start (db : DB) : Sys := mkSys db [] [] [].

Definition claimed_by (w : Worker) (job : uuid) (s : Sys) : bool :=
  existsb (fun c => Worker_eqb (fst c) w && String.eqb (snd c) job) (claims s).

End Cycles.

(* ------------------------------------------------------------------ *)
(** ** Repeated calls, and the vocabulary of the statements *)

Module Runs.

(** One hit of the pixel endpoint as [record_open] sees it. *)
Record OpenCall := mkOpenCall {
  oc_now : datetime;
  oc_user_agent : option string;
  oc_ip_address : option string;
  oc_client_id : option uuid
}.

(** [record_open] called once per element of [calls], in order. *)
Fixpoint record_opens (env : Env) (pixel_id : string) (calls : list OpenCall)
    (db : DB) : list bool * DB :=
  match calls with
  | [] => ([], db)
  | c :: rest =>
      let '(r, db1) :=
        EmailTracker.record_open env (oc_now c) pixel_id (oc_user_agent c)
          (oc_ip_address c) (oc_client_id c) db in
      let '(rs, db2) := record_opens env pixel_id rest db1 in
      (r :: rs, db2)
  end.

(** The hits whose event row the database takes. *)
Definition accepted (env : Env) (c : OpenCall) : bool :=
  EmailTracker.event_row_ok env (oc_user_agent c) (oc_ip_address c).

(** The event that [record_open] builds for a hit on [pixel]. *)
Definition open_event (pixel : EmailTrackingPixel) (c : OpenCall) : EmailEvent :=
  mkEmailEvent (px_lead_id pixel)
    (EmailTracker.client_or (oc_client_id c) (px_lead_id pixel))
    EV_OPEN (px_message_id pixel) None None EmptyString None
    (oc_user_agent c) (oc_ip_address c)
    (EmailTracker._parse_device_type (oc_user_agent c)) (oc_now c).

(** The pixel row that [record_open] writes at instant [now]. *)
Definition after_open (now : datetime) (pixel : EmailTrackingPixel)
  : EmailTrackingPixel :=
  mkEmailTrackingPixel (px_id pixel) (px_lead_id pixel)
    (px_message_id pixel) (px_pixel_id pixel)
    (if negb (px_opened pixel) then true else px_opened pixel)
    (px_open_count pixel + 1)
    (if negb (px_opened pixel) then Some now else px_first_opened_at pixel)
    (Some now) (px_created_at pixel).

Definition after_opens (pixel : EmailTrackingPixel) (calls : list OpenCall)
  : EmailTrackingPixel :=
  fold_left (fun p c => after_open (oc_now c) p) calls pixel.

Definition by_pixel_id (pixel_id : string) (p : EmailTrackingPixel) : bool :=
  String.eqb (px_pixel_id p) pixel_id.

Definition by_click_id (click_id : string) (c : EmailClickTracking) : bool :=
  String.eqb (ck_click_id c) click_id.

(** [get_or_assign_mailbox_for_lead] called once per instant of
    [times], in order. *)
Fixpoint get_or_assign_calls (env : Env) (times : list datetime)
    (lead_id client_id : uuid) (db : DB) : list (result GmailToken) * DB :=
  match times with
  | [] => ([], db)
  | now :: rest =>
      let '(r, db1) :=
        Utils.get_or_assign_mailbox_for_lead env now lead_id client_id db in
      let '(rs, db2) := get_or_assign_calls env rest lead_id client_id db1 in
      (r :: rs, db2)
  end.




(** The assignment row after [save(update_fields=['last_used_at',
    'email_count'])]. *)
Definition touch (now : datetime) (email_count : Z)
    (a : LeadMailboxAssignment) : LeadMailboxAssignment :=
  mkLeadMailboxAssignment (la_id a) (la_lead_id a) (la_client_id a)
    (la_assigned_email a) (la_assigned_at a) now email_count (la_status a).

Definition after_uses (a : LeadMailboxAssignment) (times : list datetime)
  : LeadMailboxAssignment :=
  fold_left (fun r now => touch now (la_email_count r + 1) r) times a.


(** The row that the [except] handler of the dispatcher writes. *)
Definition failed_row (now : datetime) (e : Exn) (email : EmailSendQueue)
  : EmailSendQueue :=
  let attempts := q_attempts email + 1 in
  if q_max_attempts email <=? attempts then
    mkEmailSendQueue (q_id email) (q_lead_id email) (q_client_id email)
      (q_recipient_email email) (q_email_subject email) (q_email_body email)
      (q_sequence_number email) (q_scheduled_for email) FAILED
      attempts (q_max_attempts email) (Some (str e))
      (Some now) (q_message_id email) (q_sent_at email)
      (q_sent_from_email email)
  else
    mkEmailSendQueue (q_id email) (q_lead_id email) (q_client_id email)
      (q_recipient_email email) (q_email_subject email) (q_email_body email)
      (q_sequence_number email) (now + 5 * 60) PENDING
      attempts (q_max_attempts email) (Some (str e))
      (q_failed_at email) (q_message_id email) (q_sent_at email)
      (q_sent_from_email email).

(** The Gmail client never fails without saying why. *)
Definition gmail_errors_have_text (env : Env) : Prop :=
  (forall n token msg,
      gmail_connect env n token = Some msg -> msg <> EmptyString)
  /\ (forall n token to_email subject body error,
        gmail_send env n token to_email subject body = SendError error ->
        error <> EmptyString).

Definition by_id (id : uuid) (e : EmailSendQueue) : bool :=
  String.eqb (q_id e) id.

(** [record_click] called once per element of [calls], in order; a hit
    on the click endpoint carries what a hit on the pixel endpoint
    carries. *)
Fixpoint record_clicks (env : Env) (click_id : string) (calls : list OpenCall)
    (db : DB) : list EmailTracker.ClickResult * DB :=
  match calls with
  | [] => ([], db)
  | c :: rest =>
      let '(r, db1) :=
        EmailTracker.record_click env (oc_now c) click_id (oc_user_agent c)
          (oc_ip_address c) (oc_client_id c) db in
      let '(rs, db2) := record_clicks env click_id rest db1 in
      (r :: rs, db2)
  end.

(** What [record_click] returns for a hit on [click]. *)
Definition click_result (env : Env) (click : EmailClickTracking) (c : OpenCall)
  : EmailTracker.ClickResult :=
  if accepted env c
  then EmailTracker.mkClickResult true (ck_destination_url click)
  else EmailTracker.mkClickResult false "/".

(** The event that [record_click] builds for a hit on [click]. *)
Definition click_event (click : EmailClickTracking) (c : OpenCall)
  : EmailEvent :=
  mkEmailEvent (ck_lead_id click)
    (EmailTracker.client_or (oc_client_id c) (ck_lead_id click))
    EV_CLICK (ck_message_id click) None None EmptyString
    (Some (ck_destination_url click)) (oc_user_agent c) (oc_ip_address c)
    (EmailTracker._parse_device_type (oc_user_agent c)) (oc_now c).

(** The click row that [record_click] writes at instant [now]. *)
Definition after_click (now : datetime) (click : EmailClickTracking)
  : EmailClickTracking :=
  mkEmailClickTracking (ck_id click) (ck_lead_id click) (ck_message_id click)
    (ck_click_id click) (ck_destination_url click) (ck_click_count click + 1)
    (if ck_click_count click =? 0 then Some now else ck_first_clicked_at click)
    (Some now) (ck_created_at click).

Definition after_clicks (click : EmailClickTracking) (calls : list OpenCall)
  : EmailClickTracking :=
  fold_left (fun k c => after_click (oc_now c) k) calls click.

(** The click id and primary key that [create_click_tracking] is about to
    draw are not in the table. *)
Definition click_draw_is_new (env : Env) (db : DB) : bool :=
  negb (existsb
          (fun c => String.eqb (ck_click_id c) (token_urlsafe env (rng db))
                    || String.eqb (ck_id c) (uuid4 env (S (rng db))))
          (email_click_tracking db)).

(** The pixel id and primary key that [create_tracking_pixel] is about to
    draw are not in the table. *)
Definition pixel_draw_is_new (env : Env) (db : DB) : bool :=
  negb (existsb
          (fun p => String.eqb (px_pixel_id p) (token_urlsafe env (rng db))
                    || String.eqb (px_id p) (uuid4 env (S (rng db))))
          (email_tracking_pixels db)).

(** A token of the rewritten document against the token of the original
    at the same place: it is untouched, or it is a link to a tracking URL
    whose click id leads [record_click], on the database [db'], back to
    the original target, for every hit whose event row the database
    takes. *)
Definition redirects_back (env : Env) (db' : DB) (tok tok' : HtmlToken)
  : Prop :=
  tok' = tok
  \/ exists url click_id,
       EmailTracker.anchor_href tok = Some url
       /\ EmailTracker.anchor_href tok'
          = Some (EmailTracker.tracking_url_of env click_id)
       /\ forall now user_agent ip_address client_id,
            EmailTracker.event_row_ok env user_agent ip_address = true ->
            fst (EmailTracker.record_click env now click_id user_agent
                   ip_address client_id db')
            = EmailTracker.mkClickResult true url.

(** The retry counter of a job is within its bound, and a job that is
    still PENDING has an attempt left. *)
Definition attempts_in_bounds (e : EmailSendQueue) : Prop :=
  q_attempts e <= q_max_attempts e
  /\ (q_status e = PENDING -> q_attempts e < q_max_attempts e).

(** A tenant with a positive daily limit that has not gone over it. *)
Definition within_daily_limit (c : ClientRow) : Prop :=
  1 <= cl_gmail_daily_limit c
  /\ cl_emails_sent_today c <= cl_gmail_daily_limit c.

(** [ORDER BY last_used_at] puts a mailbox with this timestamp strictly
    before one used at [now]. *)
Definition used_before (env : Env) (now : datetime) (t : GmailToken) : bool :=
  match tk_last_used_at t with
  | Some x => x <? now
  | None => nulls_first env
  end.

Definition is_sent_event (e : EmailEvent) : Prop := ev_event_type e = EV_SENT.

(** The lead row after the UPDATE of [_update_lead_open_metrics]. *)
Definition lead_after_open (timestamp : datetime) (l : LeadRow) : LeadRow :=
  mkLeadRow (ld_id l) (ld_emails_sent l) (ld_emails_opened l + 1)
    (ld_emails_clicked l)
    (EmailTracker.coalesce (ld_first_opened_at l) timestamp)
    (ld_first_clicked_at l) (Some EV_OPEN) (Some timestamp).

Definition lead_after_opens (l : LeadRow) (calls : list OpenCall) : LeadRow :=
  fold_left (fun r c => lead_after_open (oc_now c) r) calls l.

(** The row that [send_single_email] writes for a PENDING job. *)
Definition rescheduled (now : datetime) (email : EmailSendQueue)
  : EmailSendQueue :=
  mkEmailSendQueue (q_id email) (q_lead_id email) (q_client_id email)
    (q_recipient_email email) (q_email_subject email) (q_email_body email)
    (q_sequence_number email) now (q_status email) (q_attempts email)
    (q_max_attempts email) (q_last_error email) (q_failed_at email)
    (q_message_id email) (q_sent_at email) (q_sent_from_email email).

(** The unique key [(client_id, email_address)] of a mailbox. *)
Definition mailbox_key (t : GmailToken) : string * string :=
  (tk_client_id t, tk_email_address t).

End Runs.

(* ------------------------------------------------------------------ *)
(** ** A concrete world: one tenant, two mailboxes, one lead *)

Module Demo.

Definition dec (n : nat) : string := NilZero.string_of_uint (Nat.to_uint n).

(** A serializer in the style of [str(soup)]. *)
Fixpoint render_attrs (attrs : list (string * string)) : string :=
  match attrs with
  | [] => EmptyString
  | (k, v) :: rest =>
      " " ++ k ++ "=" ++ EmailTracker.dq ++ v ++ EmailTracker.dq
      ++ render_attrs rest
  end.

Fixpoint render (soup : list HtmlToken) : string :=
  match soup with
  | [] => EmptyString
  | StartTag name attrs :: rest =>
      "<" ++ name ++ render_attrs attrs ++ ">" ++ render rest
  | EndTag name :: rest => "</" ++ name ++ ">" ++ render rest
  | Text s :: rest => s ++ render rest
  end.

(** The body of the demo e-mail, and the same body after its links have
    been rewritten. *)
Definition body_soup : list HtmlToken :=
  [ StartTag "p" [];
    StartTag "a" [("href", "https://example.com/pricing")];
    Text "Pricing"; EndTag "a";
    StartTag "a" [("href", "mailto:sales@example.com")];
    Text "Write to us"; EndTag "a";
    StartTag "a" [("class", "top"); ("href", "#top")];
    Text "Top"; EndTag "a";
    EndTag "p" ].

Definition body_soup_tracked : list HtmlToken :=
  [ StartTag "p" [];
    StartTag "a" [("href", "https://t.example.com/api/track/click/tok-0")];
    Text "Pricing"; EndTag "a";
    StartTag "a" [("href", "mailto:sales@example.com")];
    Text "Write to us"; EndTag "a";
    StartTag "a" [("class", "top"); ("href", "#top")];
    Text "Top"; EndTag "a";
    EndTag "p" ].

(** A tokenizer that knows the two demo documents. *)
Definition parse (s : string) : list HtmlToken :=
  if String.eqb s (render body_soup) then body_soup
  else if String.eqb s (render body_soup_tracked) then body_soup_tracked
  else [Text s].

(** A database that takes as an address a non-empty text made of
    digits, hexadecimal letters, dots and colons. *)
Definition is_ip_char (c : ascii) : bool :=
  Py.is_ascii_digit c
  || existsb (Ascii.eqb c)
       ["a"; "b"; "c"; "d"; "e"; "f"; "A"; "B"; "C"; "D"; "E"; "F"; "."; ":"]%char.

Definition looks_like_ip (s : string) : bool :=
  negb (String.eqb s EmptyString) && forallb is_ip_char (list_ascii_of_string s).

(** Gmail accepts every message; the URL library refuses every URL that
    is not plain. *)
Definition env : Env :=
  mkEnv (fun n => "uuid-" ++ dec n) (fun n => "tok-" ++ dec n)
    "t.example.com" "https" parse render true looks_like_ip
    (fun _ => UrlInvalid)
    (fun _ _ => None)
    (fun n _ _ _ _ => SendOk ("msg-" ++ dec n) (Some ("thread-" ++ dec n))).

(** Gmail rejects every message. *)
Definition env_down : Env :=
  mkEnv (fun n => "uuid-" ++ dec n) (fun n => "tok-" ++ dec n)
    "t.example.com" "https" parse render true looks_like_ip
    (fun _ => UrlInvalid)
    (fun _ _ => None)
    (fun _ _ _ _ _ => SendError "HttpError 503: backend error").

Definition client1 : uuid := "client-1".
Definition lead1 : uuid := "lead-1".

Definition mailbox_a : GmailToken :=
  mkGmailToken "token-a" client1 "a@acme.test" tok_active 1 0 400 None.

Definition mailbox_b : GmailToken :=
  mkGmailToken "token-b" client1 "b@acme.test" tok_active 1 0 400 (Some 50).

(** The only mailbox of the tenant, with its daily limit reached. *)
Definition mailbox_full : GmailToken :=
  mkGmailToken "token-a" client1 "a@acme.test" tok_active 1 400 400 (Some 50).

Definition mailbox_a_revoked : GmailToken :=
  mkGmailToken "token-a" client1 "a@acme.test" tok_revoked 1 0 400 (Some 50).

(** A job that has been due for one second at instant 1000. *)
Definition job1 : EmailSendQueue :=
  mkEmailSendQueue "job-1" lead1 client1 "lead@corp.test" "Hello"
    (render body_soup) 1 999 PENDING 0 3 None None None None None.

Definition client_row : ClientRow := mkClientRow client1 500 0 0.

Definition lead_row : LeadRow := mkLeadRow lead1 0 0 0 None None None None.

Definition assignment_a : LeadMailboxAssignment :=
  mkLeadMailboxAssignment "assignment-1" lead1 client1 "a@acme.test"
    10 10 1 asg_active.

Definition pixel1 : EmailTrackingPixel :=
  mkEmailTrackingPixel "pixel-row-1" lead1 "message-1" "px-1" false 0
    None None 5.

Definition click1 : EmailClickTracking :=
  mkEmailClickTracking "click-row-1" lead1 "message-1" "ck-1"
    "https://example.com/pricing" 0 None None 5.

(** One due job, one fresh mailbox, nothing sent yet. *)
Definition db_one_job : DB :=
  mkDB [] [] [] [mailbox_a] [job1] [] [client_row] [lead_row] 0.

(** One due job; the tenant has a single mailbox, at its daily limit. *)
Definition db_full_mailbox : DB :=
  mkDB [] [] [] [mailbox_full] [job1] [] [client_row] [lead_row] 0.



(** The lead is assigned to mailbox a. *)
Definition db_assigned : DB :=
  mkDB [] [] [] [mailbox_a; mailbox_b] [job1] [assignment_a] [client_row]
    [lead_row] 0.

(** The lead is assigned to mailbox a, which has been revoked; mailbox b
    is active. *)
Definition db_revoked : DB :=
  mkDB [] [] [] [mailbox_a_revoked; mailbox_b] [job1] [assignment_a]
    [client_row] [lead_row] 0.

(** One pixel and one click token have been issued. *)
Definition db_tracking : DB :=
  mkDB [] [pixel1] [click1] [mailbox_a] [] [] [client_row] [lead_row] 0.

Definition request : Utils.HttpRequest :=
  Utils.mkHttpRequest (Some "Mozilla/5.0 (iPhone; CPU iPhone OS 17_0)")
    (Some " 203.0.113.7 , 10.0.0.1") (Some "10.0.0.1").

Definition hit (now : datetime) : Runs.OpenCall :=
  Runs.mkOpenCall now (Some "Mozilla/5.0 (Windows NT 10.0)")
    (Some "203.0.113.7") None.

(** A request that came through a proxy which did not know the client,
    and the hit it makes. *)
Definition request_unknown : Utils.HttpRequest :=
  Utils.mkHttpRequest (Some "Mozilla/5.0 (Windows NT 10.0)")
    (Some "unknown, 10.0.0.1") (Some "10.0.0.1").

Definition hit_unknown (now : datetime) : Runs.OpenCall :=
  Runs.mkOpenCall now (Some "Mozilla/5.0 (Windows NT 10.0)")
    (Some "unknown") None.

(** Three dispatcher cycles, five minutes apart, while Gmail is down. *)
Definition stored_job (d : DB) : EmailSendQueue := hd job1 (email_send_queue d).

Definition retry1 : DB :=
  Eval vm_compute in
    snd (Tasks.process_email env_down 1000 job1 db_one_job).

Definition retry2 : DB :=
  Eval vm_compute in
    snd (Tasks.process_email env_down 1300 (stored_job retry1) retry1).

Definition retry3 : DB :=
  Eval vm_compute in
    snd (Tasks.process_email env_down 1600 (stored_job retry2) retry2).

(** The tenant has sent its 500 messages of the day. *)
Definition client_capped : ClientRow := mkClientRow client1 500 500 0.

Definition db_capped : DB :=
  mkDB [] [] [] [mailbox_a] [job1] [] [client_capped] [lead_row] 0.

(** A second job of the same tenant, due before job 1, and one that is
    not due yet. *)
Definition job2 : EmailSendQueue :=
  mkEmailSendQueue "job-2" lead1 client1 "lead@corp.test" "Follow-up"
    (render body_soup) 2 500 PENDING 0 3 None None None None None.

Definition job3 : EmailSendQueue :=
  mkEmailSendQueue "job-3" lead1 client1 "lead@corp.test" "Later"
    (render body_soup) 3 5000 PENDING 0 3 None None None None None.

Definition db_three_jobs : DB :=
  mkDB [] [] [] [mailbox_a] [job1; job2; job3] [] [client_row] [lead_row] 0.

(** A pixel issued at instant 5 and one issued 40 days later. *)
Definition pixel_new : EmailTrackingPixel :=
  mkEmailTrackingPixel "pixel-row-2" lead1 "message-2" "px-2" false 0
    None None (40 * 86400).

Definition db_two_pixels : DB :=
  mkDB [] [pixel1; pixel_new] [] [mailbox_a] [] [] [client_row] [lead_row] 0.

(** A request to queue a message three days from now. *)
Definition send_request : Views.EmailSendRequest :=
  Views.mkEmailSendRequest lead1 client1 "lead@corp.test" "Hello"
    (render body_soup) 1 3 None.

End Demo.

(* ================================================================== *)
(** * Properties *)

(* ------------------------------------------------------------------ *)
(** ** Facts about tables *)

Section TableFacts.
Context {R : Type} (pk : R -> uuid).

Lemma get_found (P : R -> bool) (t : list R) (r : R) :
  Orm.get P t = Orm.Found r -> filter P t = [r].
Proof.
  unfold Orm.get. destruct (filter P t) as [|x [|y l]]; congruence.
Qed.

Lemma get_found_in (P : R -> bool) (t : list R) (r : R) :
  Orm.get P t = Orm.Found r -> In r t /\ P r = true.
Proof.
  intros H. apply get_found in H.
  apply filter_In. rewrite H. now left.
Qed.

Lemma get_missing (P : R -> bool) (t : list R) :
  Orm.get P t = Orm.DoesNotExist -> forall x, In x t -> P x = false.
Proof.
  unfold Orm.get. intros H x Hx.
  destruct (P x) eqn:E; [|reflexivity].
  assert (Hin : In x (filter P t)) by (apply filter_In; auto).
  destruct (filter P t) as [|a [|b l]]; [destruct Hin | discriminate..].
Qed.

Lemma update_where_none (Q : R -> bool) (f : R -> R) (t : list R) :
  (forall x, In x t -> Q x = false) -> Orm.update_where Q f t = t.
Proof.
  induction t as [|x t IH]; intros H; simpl; [reflexivity|].
  rewrite (H x (or_introl eq_refl)). f_equal. apply IH.
  intros y Hy. apply H. now right.
Qed.

Lemma map_pk_update_where (Q : R -> bool) (f : R -> R) (t : list R) :
  (forall x, pk (f x) = pk x) ->
  map pk (Orm.update_where Q f t) = map pk t.
Proof.
  intros Hf. unfold Orm.update_where. rewrite map_map.
  apply map_ext. intros x. destruct (Q x); auto.
Qed.

Lemma length_update_where (Q : R -> bool) (f : R -> R) (t : list R) :
  List.length (Orm.update_where Q f t) = List.length t.
Proof. apply length_map. Qed.

Lemma not_in_pk (t : list R) (r : R) :
  ~ In (pk r) (map pk t) ->
  forall x, In x t -> String.eqb (pk x) (pk r) = false.
Proof.
  intros H x Hx. apply String.eqb_neq. intros E. apply H.
  rewrite <- E. now apply in_map.
Qed.

(** Writing a row back through its primary key: the query that found
    the row finds the written row afterwards. *)
Lemma get_update_where (P : R -> bool) (f : R -> R) (t : list R) (r : R) :
  NoDup (map pk t) ->
  Orm.get P t = Orm.Found r ->
  P (f r) = true ->
  Orm.get P (Orm.update_where (fun x => String.eqb (pk x) (pk r)) f t)
  = Orm.Found (f r).
Proof.
  intros Hnd Hget Hp. apply get_found in Hget.
  unfold Orm.get.
  enough (E : filter P (Orm.update_where
                          (fun x => String.eqb (pk x) (pk r)) f t) = [f r])
    by now rewrite E.
  induction t as [|x t IH]; simpl in *; [discriminate|].
  inversion Hnd as [|? ? Hout Hnd']; subst.
  destruct (String.eqb (pk x) (pk r)) eqn:E.
  - apply String.eqb_eq in E.
    assert (Hothers : forall y, In y t -> String.eqb (pk y) (pk r) = false).
    { intros y Hy. apply String.eqb_neq. intros Ey. apply Hout.
      rewrite E, <- Ey. now apply in_map. }
    rewrite (update_where_none _ f t Hothers).
    destruct (P x) eqn:Px.
    + inversion Hget; subst. rewrite Hp. now rewrite H1.
    + exfalso. apply Hout. rewrite E. apply in_map.
      apply (proj1 (filter_In P r t)). rewrite Hget. now left.
  - destruct (P x) eqn:Px.
    + inversion Hget; subst. rewrite String.eqb_refl in E. discriminate.
    + now apply IH.
Qed.

Lemma save_existing (x : R) (t : list R) (r : R) :
  In r t -> pk x = pk r ->
  Orm.save pk x t
  = Orm.update_where (fun y => String.eqb (pk y) (pk r)) (fun _ => x) t.
Proof.
  intros Hin E. unfold Orm.save. rewrite E.
  replace (existsb (fun y => String.eqb (pk y) (pk r)) t) with true;
    [reflexivity|].
  symmetry. apply existsb_exists. exists r. split; [assumption|].
  apply String.eqb_refl.
Qed.

Lemma map_pk_save (x : R) (t : list R) (r : R) :
  In r t -> pk x = pk r -> map pk (Orm.save pk x t) = map pk t.
Proof.
  intros Hin E. rewrite (save_existing x t r Hin E).
  unfold Orm.update_where. rewrite map_map.
  apply map_ext_in. intros y Hy.
  destruct (String.eqb (pk y) (pk r)) eqn:Ey; [|reflexivity].
  apply String.eqb_eq in Ey. congruence.
Qed.

Lemma get_save (P : R -> bool) (x : R) (t : list R) (r : R) :
  NoDup (map pk t) ->
  Orm.get P t = Orm.Found r ->
  pk x = pk r -> P x = true ->
  Orm.get P (Orm.save pk x t) = Orm.Found x.
Proof.
  intros Hnd Hget E Hp.
  destruct (get_found_in _ _ _ Hget) as [Hin _].
  rewrite (save_existing x t r Hin E).
  apply (get_update_where P (fun _ => x) t r Hnd Hget Hp).
Qed.
End TableFacts.

(* ------------------------------------------------------------------ *)
(** ** Open tracking *)

Section OpenTracking.
Context (env : Env).

Lemma after_open_fields (now : datetime) (pixel : EmailTrackingPixel) :
  px_id (Runs.after_open now pixel) = px_id pixel
  /\ px_pixel_id (Runs.after_open now pixel) = px_pixel_id pixel
  /\ px_lead_id (Runs.after_open now pixel) = px_lead_id pixel
  /\ px_message_id (Runs.after_open now pixel) = px_message_id pixel
  /\ px_opened (Runs.after_open now pixel) = true
  /\ px_open_count (Runs.after_open now pixel) = px_open_count pixel + 1.
Proof. unfold Runs.after_open; simpl. destruct (px_opened pixel); auto 10. Qed.

(** The UPDATE of the lead's counters touches the table [leads] only. *)
Lemma update_lead_open_metrics_frame (lead_id : uuid) (timestamp : datetime)
    (db : DB) :
  let db' := EmailTracker._update_lead_open_metrics lead_id timestamp db in
  email_events db' = email_events db
  /\ email_tracking_pixels db' = email_tracking_pixels db
  /\ email_click_tracking db' = email_click_tracking db.
Proof.
  unfold EmailTracker._update_lead_open_metrics.
  destruct (existsb _ (leads db)); simpl; auto.
Qed.

Lemma update_lead_click_metrics_frame (lead_id : uuid) (timestamp : datetime)
    (db : DB) :
  let db' := EmailTracker._update_lead_click_metrics lead_id timestamp db in
  email_events db' = email_events db
  /\ email_tracking_pixels db' = email_tracking_pixels db
  /\ email_click_tracking db' = email_click_tracking db.
Proof.
  unfold EmailTracker._update_lead_click_metrics.
  destruct (existsb _ (leads db)); simpl; auto.
Qed.

(** One call on a pixel that exists and whose counter has room: the
    pixel row is written in any case, the event and the lead's counters
    only when the database takes the event row. *)
Lemma record_open_found (now : datetime) (pixel_id : string)
    (user_agent ip_address : option string) (client_id : option uuid)
    (db : DB) (pixel : EmailTrackingPixel) :
  Orm.get (Runs.by_pixel_id pixel_id) (email_tracking_pixels db)
  = Orm.Found pixel ->
  px_open_count pixel + 1 <= int4_max ->
  EmailTracker.record_open env now pixel_id user_agent ip_address client_id db
  = if EmailTracker.event_row_ok env user_agent ip_address then
      (true,
       EmailTracker._update_lead_open_metrics (px_lead_id pixel) now
         (with_events
            (fun t => (t ++ [Runs.open_event pixel
                               (Runs.mkOpenCall now user_agent ip_address
                                  client_id)])%list)
            (with_pixels (Orm.save px_id (Runs.after_open now pixel)) db)))
    else (false, with_pixels (Orm.save px_id (Runs.after_open now pixel)) db).
Proof.
  intros H Hroom. unfold EmailTracker.record_open.
  change (fun p : EmailTrackingPixel => String.eqb (px_pixel_id p) pixel_id)
    with (Runs.by_pixel_id pixel_id).
  rewrite H. cbv zeta.
  replace (int4_max <? px_open_count
                         (mkEmailTrackingPixel (px_id pixel) (px_lead_id pixel)
                            (px_message_id pixel) (px_pixel_id pixel)
                            (if negb (px_opened pixel) then true
                             else px_opened pixel)
                            (px_open_count pixel + 1)
                            (if negb (px_opened pixel) then Some now
                             else px_first_opened_at pixel)
                            (Some now) (px_created_at pixel)))
    with false by (symmetry; apply Z.ltb_ge; exact Hroom).
  cbn [ev_ip_address ev_user_agent].
  destruct (EmailTracker.event_row_ok env user_agent ip_address); reflexivity.
Qed.

(** The same call, table by table. *)
Lemma record_open_tables (now : datetime) (pixel_id : string)
    (user_agent ip_address : option string) (client_id : option uuid)
    (db : DB) (pixel : EmailTrackingPixel) :
  Orm.get (Runs.by_pixel_id pixel_id) (email_tracking_pixels db)
  = Orm.Found pixel ->
  px_open_count pixel + 1 <= int4_max ->
  let r := EmailTracker.record_open env now pixel_id user_agent ip_address
             client_id db in
  fst r = EmailTracker.event_row_ok env user_agent ip_address
  /\ email_tracking_pixels (snd r)
     = Orm.save px_id (Runs.after_open now pixel) (email_tracking_pixels db)
  /\ email_events (snd r)
     = (email_events db
        ++ (if EmailTracker.event_row_ok env user_agent ip_address
            then [Runs.open_event pixel
                    (Runs.mkOpenCall now user_agent ip_address client_id)]
            else []))%list
  /\ leads (snd r)
     = (if EmailTracker.event_row_ok env user_agent ip_address
        then leads (EmailTracker._update_lead_open_metrics (px_lead_id pixel)
                      now db)
        else leads db).
Proof.
  intros H Hroom. cbv zeta. rewrite (record_open_found _ _ _ _ _ _ _ H Hroom).
  destruct (EmailTracker.event_row_ok env user_agent ip_address); simpl.
  - match goal with
    | |- context [EmailTracker._update_lead_open_metrics ?l ?t ?d] =>
        destruct (update_lead_open_metrics_frame l t d) as (F1 & F2 & _)
    end.
    rewrite F1, F2. simpl. repeat split; try reflexivity.
    unfold EmailTracker._update_lead_open_metrics. simpl.
    now destruct (existsb _ (leads db)).
  - rewrite app_nil_r. auto.
Qed.

Lemma open_event_after_open (now : datetime) (pixel : EmailTrackingPixel)
    (c : Runs.OpenCall) :
  Runs.open_event (Runs.after_open now pixel) c = Runs.open_event pixel c.
Proof. reflexivity. Qed.

Lemma record_opens_found (pixel_id : string) (calls : list Runs.OpenCall) :
  forall (db : DB) (pixel : EmailTrackingPixel),
    NoDup (map px_id (email_tracking_pixels db)) ->
    Orm.get (Runs.by_pixel_id pixel_id) (email_tracking_pixels db)
    = Orm.Found pixel ->
    px_open_count pixel + Z.of_nat (List.length calls) <= int4_max ->
    fst (Runs.record_opens env pixel_id calls db)
    = map (Runs.accepted env) calls
    /\ email_events (snd (Runs.record_opens env pixel_id calls db))
       = (email_events db
          ++ map (Runs.open_event pixel)
               (filter (Runs.accepted env) calls))%list
    /\ Orm.get (Runs.by_pixel_id pixel_id)
         (email_tracking_pixels (snd (Runs.record_opens env pixel_id calls db)))
       = Orm.Found (Runs.after_opens pixel calls)
    /\ NoDup (map px_id
                (email_tracking_pixels
                   (snd (Runs.record_opens env pixel_id calls db)))).
Proof.
  induction calls as [|c calls IH]; intros db pixel Hnd Hget Hroom.
  - simpl. rewrite app_nil_r. auto.
  - simpl List.length in Hroom. rewrite Nat2Z.inj_succ in Hroom.
    assert (Hroom1 : px_open_count pixel + 1 <= int4_max) by lia.
    destruct (record_open_tables (Runs.oc_now c) pixel_id (Runs.oc_user_agent c)
                (Runs.oc_ip_address c) (Runs.oc_client_id c) db pixel
                Hget Hroom1) as (Hr & Hpx & Hev & _).
    simpl Runs.record_opens.
    destruct (EmailTracker.record_open env (Runs.oc_now c) pixel_id
                (Runs.oc_user_agent c) (Runs.oc_ip_address c)
                (Runs.oc_client_id c) db) as [r db1].
    simpl in Hr, Hpx, Hev.
    destruct (after_open_fields (Runs.oc_now c) pixel)
      as (Eid & Epid & _ & _ & _ & Ecnt).
    destruct (get_found_in _ _ _ Hget) as [Hin Hp].
    assert (Hnd1 : NoDup (map px_id (email_tracking_pixels db1))).
    { rewrite Hpx. now rewrite (map_pk_save px_id _ _ pixel Hin Eid). }
    assert (Hget1 : Orm.get (Runs.by_pixel_id pixel_id)
                      (email_tracking_pixels db1)
                    = Orm.Found (Runs.after_open (Runs.oc_now c) pixel)).
    { rewrite Hpx. apply (get_save px_id _ _ _ pixel Hnd Hget Eid).
      unfold Runs.by_pixel_id in *. now rewrite Epid. }
    assert (Hroom2 : px_open_count (Runs.after_open (Runs.oc_now c) pixel)
                     + Z.of_nat (List.length calls) <= int4_max)
      by (rewrite Ecnt; lia).
    destruct (IH db1 _ Hnd1 Hget1 Hroom2) as (Ir & Ie & Ig & In1).
    destruct (Runs.record_opens env pixel_id calls db1) as [rs db2].
    simpl in *. subst r rs. split; [reflexivity|]. split; [|split].
    + rewrite Ie, Hev. unfold Runs.accepted at 2.
      destruct (EmailTracker.event_row_ok env (Runs.oc_user_agent c)
           (Runs.oc_ip_address c)); simpl.
      * rewrite <- app_assoc. simpl. destruct c; reflexivity.
      * now rewrite app_nil_r.
    + exact Ig.
    + exact In1.
Qed.

Lemma after_opens_count (calls : list Runs.OpenCall) :
  forall pixel,
    px_open_count (Runs.after_opens pixel calls)
    = px_open_count pixel + Z.of_nat (List.length calls).
Proof.
  induction calls as [|c calls IH]; intros pixel.
  - simpl. lia.
  - unfold Runs.after_opens in *. simpl fold_left. rewrite IH.
    destruct (after_open_fields (Runs.oc_now c) pixel) as (_&_&_&_&_&E).
    rewrite E. simpl List.length. lia.
Qed.

Lemma after_opens_opened (calls : list Runs.OpenCall) :
  forall pixel,
    px_opened pixel = true ->
    px_first_opened_at (Runs.after_opens pixel calls)
    = px_first_opened_at pixel.
Proof.
  induction calls as [|c calls IH]; intros pixel H; [reflexivity|].
  unfold Runs.after_opens in *. simpl fold_left. rewrite IH.
  - unfold Runs.after_open; simpl. now rewrite H.
  - apply after_open_fields.
Qed.

Lemma after_opens_first (c : Runs.OpenCall) (calls : list Runs.OpenCall)
    (pixel : EmailTrackingPixel) :
  px_opened pixel = false ->
  px_first_opened_at (Runs.after_opens pixel (c :: calls))
  = Some (Runs.oc_now c).
Proof.
  intros H. unfold Runs.after_opens. simpl fold_left.
  fold (Runs.after_opens (Runs.after_open (Runs.oc_now c) pixel) calls).
  rewrite after_opens_opened by apply after_open_fields.
  unfold Runs.after_open; simpl. now rewrite H.
Qed.

Lemma filter_all {A : Type} (f : A -> bool) (l : list A) :
  Forall (fun x => f x = true) l -> filter f l = l /\ map f l = repeat true (List.length l).
Proof.
  induction 1 as [|x l Hx Hl [IH1 IH2]]; simpl; [auto|].
  rewrite Hx, IH1, IH2. auto.
Qed.

End OpenTracking.

(** C7, as the code has it.  [record_open] called N >= 1 times (fewer
    than 2^31) on the id of an issued pixel (one row, not opened yet,
    [open_count] 0) leaves [open_count] = N and [first_opened_at] at the
    instant of the first call whatever the later calls are.  A call whose
    event row the database takes (its [ip_address] is absent or one the
    [inet] column takes, its [user_agent] has no NUL character) returns
    true and appends exactly one OPEN event; a call whose event row the
    database refuses is counted all the same, but returns false and
    appends no event.  So when every event row is taken, every call
    returns true and there is exactly one OPEN event per call, in call
    order.
    For a pixel id without a row, [record_open] returns false, raises
    nothing and leaves the database, hence the event log, as it was. *)
Theorem record_open_counts_every_call
    (env : Env) (pixel_id : string) (db : DB) (pixel : EmailTrackingPixel)
    (c : Runs.OpenCall) (calls : list Runs.OpenCall) :
  NoDup (map px_id (email_tracking_pixels db)) ->
  Orm.get (Runs.by_pixel_id pixel_id) (email_tracking_pixels db)
  = Orm.Found pixel ->
  px_opened pixel = false ->
  px_open_count pixel = 0 ->
  Z.of_nat (List.length (c :: calls)) <= int4_max ->
  fst (Runs.record_opens env pixel_id (c :: calls) db)
  = map (Runs.accepted env) (c :: calls)
  /\ email_events (snd (Runs.record_opens env pixel_id (c :: calls) db))
     = (email_events db
        ++ map (Runs.open_event pixel)
             (filter (Runs.accepted env) (c :: calls)))%list
  /\ (forall e, In e (map (Runs.open_event pixel)
                        (filter (Runs.accepted env) (c :: calls))) ->
                ev_event_type e = EV_OPEN)
  /\ (exists pixel',
        Orm.get (Runs.by_pixel_id pixel_id)
          (email_tracking_pixels
             (snd (Runs.record_opens env pixel_id (c :: calls) db)))
        = Orm.Found pixel'
        /\ px_open_count pixel' = Z.of_nat (List.length (c :: calls))
        /\ px_first_opened_at pixel' = Some (Runs.oc_now c))
  /\ (Forall (fun x => Runs.accepted env x = true) (c :: calls) ->
      fst (Runs.record_opens env pixel_id (c :: calls) db)
      = repeat true (List.length (c :: calls))
      /\ email_events (snd (Runs.record_opens env pixel_id (c :: calls) db))
         = (email_events db ++ map (Runs.open_event pixel) (c :: calls))%list)
  /\ (forall db0 missing now user_agent ip_address client_id,
        Orm.get (Runs.by_pixel_id missing) (email_tracking_pixels db0)
        = Orm.DoesNotExist ->
        EmailTracker.record_open env now missing user_agent ip_address
          client_id db0
        = (false, db0)).
Proof.
  intros Hnd Hget Hop Hcnt Hroom.
  assert (Hroom' : px_open_count pixel + Z.of_nat (List.length (c :: calls))
                   <= int4_max) by (rewrite Hcnt; lia).
  destruct (record_opens_found env pixel_id (c :: calls) db pixel Hnd Hget
              Hroom') as (Hr & He & Hg & _).
  split; [exact Hr|]. split; [exact He|]. split; [|split; [|split]].
  - intros e He'. apply in_map_iff in He'. destruct He' as (x & <- & _).
    reflexivity.
  - exists (Runs.after_opens pixel (c :: calls)). split; [exact Hg|]. split.
    + rewrite after_opens_count, Hcnt. lia.
    + now apply after_opens_first.
  - intros Hall. destruct (filter_all _ _ Hall) as [Hf Hm].
    rewrite Hr, He, Hf, Hm. split; reflexivity.
  - intros db0 missing now ua ip cid H. unfold EmailTracker.record_open.
    change (fun p : EmailTrackingPixel => String.eqb (px_pixel_id p) missing)
      with (Runs.by_pixel_id missing).
    now rewrite H.
Qed.

Lemma record_open_counts_every_call_witness :
  fst (Runs.record_opens Demo.env "px-1"
         [Demo.hit 100; Demo.hit 200; Demo.hit 300] Demo.db_tracking)
  = [true; true; true]
  /\ List.length
       (email_events
          (snd (Runs.record_opens Demo.env "px-1"
                  [Demo.hit 100; Demo.hit 200; Demo.hit 300]
                  Demo.db_tracking))) = 3%nat
  /\ exists pixel',
       Orm.get (Runs.by_pixel_id "px-1")
         (email_tracking_pixels
            (snd (Runs.record_opens Demo.env "px-1"
                    [Demo.hit 100; Demo.hit 200; Demo.hit 300]
                    Demo.db_tracking)))
       = Orm.Found pixel'
       /\ px_open_count pixel' = 3
       /\ px_first_opened_at pixel' = Some 100.
Proof.
  assert (Hnd : NoDup (map px_id (email_tracking_pixels Demo.db_tracking))).
  { simpl. constructor; [intros []|constructor]. }
  assert (Hroom : Z.of_nat (List.length [Demo.hit 100; Demo.hit 200;
                                           Demo.hit 300]) <= int4_max)
    by (intros H; discriminate H).
  destruct (record_open_counts_every_call Demo.env "px-1" Demo.db_tracking
              Demo.pixel1 (Demo.hit 100) [Demo.hit 200; Demo.hit 300]
              Hnd eq_refl eq_refl eq_refl Hroom)
    as (_ & _ & _ & Hp & Hall & _).
  destruct Hall as [Hr He].
  { repeat constructor. }
  split; [exact Hr|]. split; [now rewrite He | exact Hp].
Defined.

(** C7, the counterexample.  Pixel px-1 exists and has not been opened.
    One hit arrives whose first [X-Forwarded-For] entry is the text
    "unknown", which the database does not take as an address.  The open
    is counted in the pixel row, but [record_open] returns false and the
    event log stays empty: one call, no OPEN event. *)
Lemma refused_address_open_is_counted_without_event :
  Utils.get_client_ip Demo.request_unknown = Some "unknown"
  /\ fst (Runs.record_opens Demo.env "px-1" [Demo.hit_unknown 100]
            Demo.db_tracking) = [false]
  /\ map px_open_count
       (email_tracking_pixels
          (snd (Runs.record_opens Demo.env "px-1" [Demo.hit_unknown 100]
                  Demo.db_tracking))) = [1]
  /\ email_events
       (snd (Runs.record_opens Demo.env "px-1" [Demo.hit_unknown 100]
               Demo.db_tracking)) = []
  /\ email_events
       (snd (Views.track_open Demo.env 100 Demo.request_unknown "px-1"
               Demo.db_tracking)) = []
  /\ ~ (List.length
          (email_events
             (snd (Runs.record_opens Demo.env "px-1" [Demo.hit_unknown 100]
                     Demo.db_tracking))) = 1%nat).
Proof.
  repeat split; try reflexivity.
  intros H. vm_compute in H. discriminate H.
Qed.

(* ------------------------------------------------------------------ *)
(** ** Click tracking *)

Section ClickTracking.
Context (env : Env).

(** One call on a click row that exists and whose counter has room. *)
Lemma record_click_found (now : datetime) (click_id : string)
    (user_agent ip_address : option string) (client_id : option uuid)
    (db : DB) (click : EmailClickTracking) :
  Orm.get (Runs.by_click_id click_id) (email_click_tracking db)
  = Orm.Found click ->
  ck_click_count click + 1 <= int4_max ->
  EmailTracker.record_click env now click_id user_agent ip_address client_id db
  = if EmailTracker.event_row_ok env user_agent ip_address then
      (EmailTracker.mkClickResult true (ck_destination_url click),
       EmailTracker._update_lead_click_metrics (ck_lead_id click) now
         (with_events
            (fun t => (t ++ [Runs.click_event click
                               (Runs.mkOpenCall now user_agent ip_address
                                  client_id)])%list)
            (with_clicks (Orm.save ck_id (Runs.after_click now click)) db)))
    else (EmailTracker.mkClickResult false "/",
          with_clicks (Orm.save ck_id (Runs.after_click now click)) db).
Proof.
  intros H Hroom. unfold EmailTracker.record_click.
  change (fun c : EmailClickTracking => String.eqb (ck_click_id c) click_id)
    with (Runs.by_click_id click_id).
  rewrite H. cbv zeta.
  replace (int4_max <? ck_click_count
                         (mkEmailClickTracking (ck_id click) (ck_lead_id click)
                            (ck_message_id click) (ck_click_id click)
                            (ck_destination_url click)
                            (ck_click_count click + 1)
                            (if ck_click_count click =? 0 then Some now
                             else ck_first_clicked_at click)
                            (Some now) (ck_created_at click)))
    with false by (symmetry; apply Z.ltb_ge; exact Hroom).
  cbn [ev_ip_address ev_user_agent].
  destruct (EmailTracker.event_row_ok env user_agent ip_address); reflexivity.
Qed.

(** The same call, table by table. *)
Lemma record_click_tables (now : datetime) (click_id : string)
    (user_agent ip_address : option string) (client_id : option uuid)
    (db : DB) (click : EmailClickTracking) :
  Orm.get (Runs.by_click_id click_id) (email_click_tracking db)
  = Orm.Found click ->
  ck_click_count click + 1 <= int4_max ->
  let r := EmailTracker.record_click env now click_id user_agent ip_address
             client_id db in
  fst r = Runs.click_result env click
            (Runs.mkOpenCall now user_agent ip_address client_id)
  /\ email_click_tracking (snd r)
     = Orm.save ck_id (Runs.after_click now click) (email_click_tracking db)
  /\ email_events (snd r)
     = (email_events db
        ++ (if EmailTracker.event_row_ok env user_agent ip_address
            then [Runs.click_event click
                    (Runs.mkOpenCall now user_agent ip_address client_id)]
            else []))%list.
Proof.
  intros H Hroom. cbv zeta. rewrite (record_click_found _ _ _ _ _ _ _ H Hroom).
  unfold Runs.click_result, Runs.accepted. cbn [Runs.oc_ip_address Runs.oc_user_agent].
  destruct (EmailTracker.event_row_ok env user_agent ip_address); simpl.
  - match goal with
    | |- context [EmailTracker._update_lead_click_metrics ?l ?t ?d] =>
        destruct (update_lead_click_metrics_frame l t d) as (F1 & _ & F3)
    end.
    rewrite F1, F3. simpl. repeat split; reflexivity.
  - rewrite app_nil_r. auto.
Qed.

End ClickTracking.

(** C9.  For a click id without a [ClickTracking] row, [record_click]
    returns the fallback destination "/" with [success] false, raises
    nothing, and returns the database unchanged: no event is appended and
    no click row is created or modified; the click endpoint then redirects
    to "/". *)
Theorem record_click_unknown_id
    (env : Env) (now : datetime) (click_id : string)
    (user_agent ip_address : option string) (client_id : option uuid)
    (request : Utils.HttpRequest) (db : DB) :
  Orm.get (Runs.by_click_id click_id) (email_click_tracking db)
  = Orm.DoesNotExist ->
  EmailTracker.record_click env now click_id user_agent ip_address client_id db
  = (EmailTracker.mkClickResult false "/", db)
  /\ Views.track_click env now request click_id db
     = (Views.HttpResponseRedirect "/", db).
Proof.
  intros H. unfold Views.track_click, EmailTracker.record_click.
  change (fun c : EmailClickTracking => String.eqb (ck_click_id c) click_id)
    with (Runs.by_click_id click_id).
  rewrite H. split; reflexivity.
Qed.

Lemma record_click_unknown_id_witness :
  EmailTracker.record_click Demo.env 77 "abc123" None None None Demo.db_tracking
  = (EmailTracker.mkClickResult false "/", Demo.db_tracking)
  /\ Views.track_click Demo.env 77 Demo.request "abc123" Demo.db_tracking
     = (Views.HttpResponseRedirect "/", Demo.db_tracking).
Proof.
  exact (record_click_unknown_id Demo.env 77 "abc123" None None None
           Demo.request Demo.db_tracking eq_refl).
Defined.



(* ------------------------------------------------------------------ *)
(** ** Link rewriting *)

Section LinkRewriting.





Lemma attr_get_dict_set (k v : string) (attrs : list (string * string)) :
  EmailTracker.attr_get k (Py.dict_set k v attrs) = Some v.
Proof.
  induction attrs as [|[k' v'] attrs IH]; simpl.
  - now rewrite String.eqb_refl.
  - destruct (String.eqb k' k) eqn:E; simpl; rewrite E; auto.
Qed.

Lemma dict_set_same (k v : string) (attrs : list (string * string)) :
  EmailTracker.attr_get k attrs = Some v -> Py.dict_set k v attrs = attrs.
Proof.
  induction attrs as [|[k' v'] attrs IH]; simpl; [discriminate|].
  destruct (String.eqb k' k) eqn:E.
  - intros H; inversion H; reflexivity.
  - intros H. now rewrite IH.
Qed.

Lemma anchor_href_set_href (tok : HtmlToken) (url url' : string) :
  EmailTracker.anchor_href tok = Some url ->
  EmailTracker.anchor_href (EmailTracker.set_href tok url') = Some url'.
Proof.
  destruct tok as [name attrs| |]; simpl; try discriminate.
  destruct (String.eqb name "a"); [|discriminate].
  intros _. apply attr_get_dict_set.
Qed.

Lemma set_href_same (tok : HtmlToken) (url : string) :
  EmailTracker.anchor_href tok = Some url -> EmailTracker.set_href tok url = tok.
Proof.
  destruct tok as [name attrs| |]; simpl; try discriminate.
  destruct (String.eqb name "a"); [|discriminate].
  intros H. now rewrite dict_set_same.
Qed.


(** The two ways [create_click_tracking] can end. *)
Lemma create_click_tracking_cases (env : Env) (now : datetime)
    (lead_id : uuid) (message_id url : string) (client_id : uuid) (db : DB) :
  let cid := token_urlsafe env (rng db) in
  let pk := uuid4 env (S (rng db)) in
  let taken :=
    existsb (fun c => String.eqb (ck_click_id c) cid || String.eqb (ck_id c) pk)
      (email_click_tracking db) in
  EmailTracker.create_click_tracking env now lead_id message_id url client_id db
  = if taken then (url, tick (tick db))
    else (EmailTracker.tracking_url_of env cid,
          with_clicks
            (fun t => (t ++ [mkEmailClickTracking pk lead_id message_id cid url
                               0 None None now])%list)
            (tick (tick db))).
Proof. reflexivity. Qed.

End LinkRewriting.

Section LinkRewritingTwice.








End LinkRewritingTwice.



(* ------------------------------------------------------------------ *)
(** ** Sticky assignment *)

Section Sticky.

(** One call for a lead whose assigned mailbox is still active. *)
Lemma get_or_assign_existing (env : Env) (now : datetime)
    (lead_id client_id : uuid) (db : DB)
    (assignment : LeadMailboxAssignment) (token : GmailToken) :
  Orm.get (Utils.is_active_assignment_of lead_id client_id)
    (lead_mailbox_assignments db) = Orm.Found assignment ->
  Orm.get (Utils.is_active_mailbox (la_assigned_email assignment) client_id)
    (gmail_tokens db) = Orm.Found token ->
  Utils.get_or_assign_mailbox_for_lead env now lead_id client_id db
  = (Ok token,
     with_assignments
       (Orm.update_where
          (fun a => String.eqb (la_id a) (la_id assignment))
          (Runs.touch now (la_email_count assignment + 1)))
       db).
Proof.
  intros Ha Ht. unfold Utils.get_or_assign_mailbox_for_lead.
  rewrite Ha, Ht. reflexivity.
Qed.

Lemma after_uses_fields (times : list datetime) :
  forall a,
    la_id (Runs.after_uses a times) = la_id a
    /\ la_lead_id (Runs.after_uses a times) = la_lead_id a
    /\ la_client_id (Runs.after_uses a times) = la_client_id a
    /\ la_assigned_email (Runs.after_uses a times) = la_assigned_email a
    /\ la_status (Runs.after_uses a times) = la_status a
    /\ la_email_count (Runs.after_uses a times)
       = la_email_count a + Z.of_nat (List.length times).
Proof.
  induction times as [|now times IH]; intros a.
  - simpl. repeat split; lia.
  - unfold Runs.after_uses in *. simpl fold_left.
    destruct (IH (Runs.touch now (la_email_count a + 1) a))
      as (E1 & E2 & E3 & E4 & E5 & E6).
    rewrite E1, E2, E3, E4, E5, E6. simpl. repeat split; lia.
Qed.

Lemma after_uses_last (times : list datetime) (now : datetime) :
  forall a, la_last_used_at (Runs.after_uses a (times ++ [now])) = now.
Proof.
  intros a. unfold Runs.after_uses. rewrite fold_left_app. reflexivity.
Qed.

Lemma get_or_assign_calls_existing (env : Env) (lead_id client_id : uuid)
    (token : GmailToken) (times : list datetime) :
  forall (db : DB) (assignment : LeadMailboxAssignment),
    NoDup (map la_id (lead_mailbox_assignments db)) ->
    Orm.get (Utils.is_active_assignment_of lead_id client_id)
      (lead_mailbox_assignments db) = Orm.Found assignment ->
    Orm.get (Utils.is_active_mailbox (la_assigned_email assignment) client_id)
      (gmail_tokens db) = Orm.Found token ->
    fst (Runs.get_or_assign_calls env times lead_id client_id db)
    = repeat (Ok token) (List.length times)
    /\ Orm.get (Utils.is_active_assignment_of lead_id client_id)
         (lead_mailbox_assignments
            (snd (Runs.get_or_assign_calls env times lead_id client_id db)))
       = Orm.Found (Runs.after_uses assignment times)
    /\ gmail_tokens
         (snd (Runs.get_or_assign_calls env times lead_id client_id db))
       = gmail_tokens db.
Proof.
  induction times as [|now times IH]; intros db a Hnd Ha Ht.
  - simpl. auto.
  - simpl. rewrite (get_or_assign_existing env now _ _ _ _ _ Ha Ht).
    set (db1 := with_assignments _ db).
    destruct (get_found_in _ _ _ Ha) as [Hin Hp].
    assert (Hnd1 : NoDup (map la_id (lead_mailbox_assignments db1))).
    { subst db1; simpl. rewrite map_pk_update_where; auto. }
    assert (Ha1 : Orm.get (Utils.is_active_assignment_of lead_id client_id)
                    (lead_mailbox_assignments db1)
                  = Orm.Found (Runs.touch now (la_email_count a + 1) a)).
    { subst db1; simpl. apply (get_update_where la_id); auto. }
    assert (Ht1 : Orm.get
                    (Utils.is_active_mailbox
                       (la_assigned_email
                          (Runs.touch now (la_email_count a + 1) a)) client_id)
                    (gmail_tokens db1) = Orm.Found token) by exact Ht.
    destruct (IH db1 _ Hnd1 Ha1 Ht1) as (Hr & Hg & Htk).
    destruct (Runs.get_or_assign_calls env times lead_id client_id db1)
      as [rs db2]. simpl in *. subst rs. auto.
Qed.

(** When the call hands out a mailbox other than the assigned one, the
    assigned one was not an active mailbox of the tenant. *)
Lemma get_or_assign_other (env : Env) (now : datetime)
    (lead_id client_id : uuid) (db db' : DB)
    (assignment : LeadMailboxAssignment) (token : GmailToken) :
  Orm.get (Utils.is_active_assignment_of lead_id client_id)
    (lead_mailbox_assignments db) = Orm.Found assignment ->
  Utils.get_or_assign_mailbox_for_lead env now lead_id client_id db
  = (Ok token, db') ->
  tk_email_address token <> la_assigned_email assignment ->
  Orm.get (Utils.is_active_mailbox (la_assigned_email assignment) client_id)
    (gmail_tokens db) = Orm.DoesNotExist.
Proof.
  intros Ha Hcall Hne. unfold Utils.get_or_assign_mailbox_for_lead in Hcall.
  rewrite Ha in Hcall.
  destruct (Orm.get (Utils.is_active_mailbox _ _) (gmail_tokens db))
    as [t| |] eqn:Ht; [|reflexivity|discriminate].
  inversion Hcall; subst. exfalso. apply Hne.
  destruct (get_found_in _ _ _ Ht) as [_ Hp].
  unfold Utils.is_active_mailbox in Hp.
  apply andb_prop in Hp. destruct Hp as [Hp _].
  apply andb_prop in Hp. destruct Hp as [Hp _].
  now apply String.eqb_eq in Hp.
Qed.
End Sticky.

(** C2.  For a lead with an active assignment whose mailbox is an active
    token of the tenant, every one of any number of successive calls of
    [get_or_assign_mailbox_for_lead] returns that same token; each call
    adds exactly 1 to the assignment's [email_count] and sets its
    [last_used_at] to the instant of the call, and the token table is not
    touched.  A call returns a mailbox with another address only when the
    assigned address is no longer an active token of the tenant. *)
Theorem get_or_assign_is_sticky
    (env : Env) (lead_id client_id : uuid) (db : DB)
    (assignment : LeadMailboxAssignment) (token : GmailToken)
    (times : list datetime) :
  NoDup (map la_id (lead_mailbox_assignments db)) ->
  Orm.get (Utils.is_active_assignment_of lead_id client_id)
    (lead_mailbox_assignments db) = Orm.Found assignment ->
  Orm.get (Utils.is_active_mailbox (la_assigned_email assignment) client_id)
    (gmail_tokens db) = Orm.Found token ->
  tk_email_address token = la_assigned_email assignment
  /\ fst (Runs.get_or_assign_calls env times lead_id client_id db)
     = repeat (Ok token) (List.length times)
  /\ (exists assignment',
        Orm.get (Utils.is_active_assignment_of lead_id client_id)
          (lead_mailbox_assignments
             (snd (Runs.get_or_assign_calls env times lead_id client_id db)))
        = Orm.Found assignment'
        /\ la_assigned_email assignment' = la_assigned_email assignment
        /\ la_email_count assignment'
           = la_email_count assignment + Z.of_nat (List.length times)
        /\ forall earlier now,
             times = (earlier ++ [now])%list ->
             la_last_used_at assignment' = now)
  /\ gmail_tokens (snd (Runs.get_or_assign_calls env times lead_id client_id db))
     = gmail_tokens db
  /\ (forall now db0 db' assignment0 token',
        Orm.get (Utils.is_active_assignment_of lead_id client_id)
          (lead_mailbox_assignments db0) = Orm.Found assignment0 ->
        Utils.get_or_assign_mailbox_for_lead env now lead_id client_id db0
        = (Ok token', db') ->
        tk_email_address token' <> la_assigned_email assignment0 ->
        Orm.get
          (Utils.is_active_mailbox (la_assigned_email assignment0) client_id)
          (gmail_tokens db0) = Orm.DoesNotExist).
Proof.
  intros Hnd Ha Ht.
  destruct (get_or_assign_calls_existing env lead_id client_id token times
              db assignment Hnd Ha Ht) as (Hr & Hg & Htk).
  destruct (after_uses_fields times assignment) as (_ & _ & _ & E4 & _ & E6).
  split.
  { destruct (get_found_in _ _ _ Ht) as [_ Hp].
    unfold Utils.is_active_mailbox in Hp.
    apply andb_prop in Hp. destruct Hp as [Hp _].
    apply andb_prop in Hp. destruct Hp as [Hp _].
    now apply String.eqb_eq in Hp. }
  split; [exact Hr|]. split.
  { exists (Runs.after_uses assignment times).
    repeat split; try assumption.
    intros earlier now ->. apply after_uses_last. }
  split; [exact Htk|].
  intros now db0 db' a0 t' H0 Hcall Hne.
  exact (get_or_assign_other env now lead_id client_id db0 db' a0 t' H0 Hcall Hne).
Qed.

Lemma get_or_assign_is_sticky_witness :
  fst (Runs.get_or_assign_calls Demo.env [1000; 2000; 3000] Demo.lead1
         Demo.client1 Demo.db_assigned)
  = [Ok Demo.mailbox_a; Ok Demo.mailbox_a; Ok Demo.mailbox_a]
  /\ exists assignment',
       Orm.get (Utils.is_active_assignment_of Demo.lead1 Demo.client1)
         (lead_mailbox_assignments
            (snd (Runs.get_or_assign_calls Demo.env [1000; 2000; 3000]
                    Demo.lead1 Demo.client1 Demo.db_assigned)))
       = Orm.Found assignment'
       /\ la_email_count assignment' = 4
       /\ la_last_used_at assignment' = 3000.
Proof.
  assert (Hnd : NoDup (map la_id (lead_mailbox_assignments Demo.db_assigned))).
  { simpl. constructor; [intros []|constructor]. }
  destruct (get_or_assign_is_sticky Demo.env Demo.lead1 Demo.client1
              Demo.db_assigned Demo.assignment_a Demo.mailbox_a
              [1000; 2000; 3000] Hnd eq_refl eq_refl)
    as (_ & Hr & (a' & Hg & _ & Hc & Hl) & _).
  split; [exact Hr|].
  exists a'. split; [exact Hg|]. split; [exact Hc|].
  exact (Hl [1000; 2000] 3000 eq_refl).
Defined.

(* ------------------------------------------------------------------ *)
(** ** Choosing a mailbox for a new assignment *)

Section Rotation.
Context {R : Type} (le : R -> R -> bool).
Hypothesis le_total : forall a b, le a b = false -> le b a = true.
Hypothesis le_trans : forall a b c, le a b = true -> le b c = true -> le a c = true.
Hypothesis le_refl : forall a, le a a = true.

Lemma insert_sorted_in (x : R) (t : list R) (y : R) :
  In y (Orm.insert_sorted le x t) <-> y = x \/ In y t.
Proof.
  induction t as [|z t IH]; simpl.
  - intuition.
  - destruct (le x z); simpl; [intuition | rewrite IH; intuition].
Qed.

Lemma order_by_in (t : list R) (y : R) : In y (Orm.order_by le t) <-> In y t.
Proof.
  induction t as [|x t IH]; simpl; [reflexivity|].
  rewrite insert_sorted_in, IH. intuition.
Qed.

(** The first row of an ordered queryset is a least row of the table. *)
Lemma first_order_by_least (t : list R) (x : R) :
  Orm.first (Orm.order_by le t) = Some x ->
  In x t /\ forall y, In y t -> le x y = true.
Proof.
  revert x. induction t as [|a t IH]; intros x; simpl; [discriminate|].
  destruct (Orm.order_by le t) as [|z s] eqn:E; simpl.
  - intros H; inversion H; subst. split; [now left|].
    intros y [->|Hy]; [apply le_refl|].
    apply (order_by_in t y) in Hy. rewrite E in Hy. destruct Hy.
  - destruct (IH z eq_refl) as [Hz Hleast].
    destruct (le a z) eqn:Haz; simpl; intros H; inversion H; subst.
    + split; [now left|]. intros y [->|Hy]; [apply le_refl|].
      apply le_trans with z; auto.
    + split; [now right|]. intros y [->|Hy]; auto.
Qed.

Lemma first_order_by_none (t : list R) :
  Orm.first (Orm.order_by le t) = None -> t = [].
Proof.
  destruct t as [|a t]; [reflexivity|]. simpl.
  destruct (Orm.order_by le t); simpl; [discriminate|].
  destruct (le a r); discriminate.
Qed.
End Rotation.

Lemma le_nullable_total (nf : bool) (a b : option datetime) :
  Orm.le_nullable nf a b = false -> Orm.le_nullable nf b a = true.
Proof.
  destruct a, b, nf; simpl; try congruence; intros H; apply Z.leb_le;
    apply Z.leb_gt in H; lia.
Qed.

Lemma le_nullable_trans (nf : bool) (a b c : option datetime) :
  Orm.le_nullable nf a b = true -> Orm.le_nullable nf b c = true ->
  Orm.le_nullable nf a c = true.
Proof.
  destruct a, b, c, nf; simpl; try congruence; intros H1 H2;
    apply Z.leb_le; apply Z.leb_le in H1, H2; lia.
Qed.

Lemma le_nullable_refl (nf : bool) (a : option datetime) :
  Orm.le_nullable nf a a = true.
Proof. destruct a; simpl; [apply Z.leb_refl | reflexivity]. Qed.

(** What [get_next_mailbox_token] returns. *)
Lemma get_next_mailbox_token_spec (env : Env) (now : datetime)
    (client_id : uuid) (db : DB) :
  (filter (Utils.is_active_token_of client_id) (gmail_tokens db) = [] /\
   Utils.get_next_mailbox_token env now client_id db
   = (Raise (ValueError ("No active Gmail tokens for client " ++ client_id
                         ++ ". Please complete OAuth setup.")), db))
  \/ (exists t0,
        In t0 (gmail_tokens db)
        /\ Utils.is_active_token_of client_id t0 = true
        /\ (forall t', In t' (gmail_tokens db) ->
                       Utils.is_active_token_of client_id t' = true ->
                       Orm.le_nullable (nulls_first env) (tk_last_used_at t0)
                         (tk_last_used_at t') = true)
        /\ Utils.get_next_mailbox_token env now client_id db
           = (Ok (Utils.set_last_used_at t0 now),
              with_tokens
                (Orm.update_where
                   (fun t => String.eqb (tk_id t) (tk_id t0))
                   (fun t => Utils.set_last_used_at t now))
                db)).
Proof.
  unfold Utils.get_next_mailbox_token.
  set (le := fun a b : GmailToken =>
               Orm.le_nullable (nulls_first env) (tk_last_used_at a)
                 (tk_last_used_at b)).
  destruct (Orm.first (Orm.order_by le _)) as [t0|] eqn:E.
  - right. exists t0.
    assert (Htot : forall a b, le a b = false -> le b a = true)
      by (intros a b; apply le_nullable_total).
    assert (Htrans : forall a b c,
               le a b = true -> le b c = true -> le a c = true)
      by (intros a b c; apply le_nullable_trans).
    assert (Hrefl : forall a, le a a = true)
      by (intros a; apply le_nullable_refl).
    apply first_order_by_least in E; try assumption.
    destruct E as [Hin Hleast]. apply filter_In in Hin.
    destruct Hin as [Hin Hact]. repeat split; auto.
    intros t' Ht' Hact'. apply Hleast. apply filter_In. auto.
  - left. split; [|reflexivity]. now apply (first_order_by_none le).
Qed.





(* ------------------------------------------------------------------ *)
(** ** Reassignment after the mailbox went away *)

(** Whenever the assigned mailbox is not active any more, the call marks
    the assignment inactive and then raises: either there is no active
    token, or the INSERT of the new row meets the row just marked
    inactive, which still holds the pair (lead_id, client_id). *)
Lemma reassignment_always_raises (env : Env) (now : datetime)
    (lead_id client_id : uuid) (db : DB)
    (assignment : LeadMailboxAssignment) :
  Orm.get (Utils.is_active_assignment_of lead_id client_id)
    (lead_mailbox_assignments db) = Orm.Found assignment ->
  Orm.get (Utils.is_active_mailbox (la_assigned_email assignment) client_id)
    (gmail_tokens db) = Orm.DoesNotExist ->
  exists e db',
    Utils.get_or_assign_mailbox_for_lead env now lead_id client_id db
    = (Raise e, db').
Proof.
  intros Ha Ht. unfold Utils.get_or_assign_mailbox_for_lead.
  rewrite Ha, Ht. unfold Utils.assign_new_mailbox.
  match goal with
  | |- context [Utils.get_next_mailbox_token env now client_id ?d] =>
      destruct (get_next_mailbox_token_spec env now client_id d)
        as [[_ E]|(t0 & _ & _ & _ & E)]; rewrite E
  end.
  - eexists. eexists. reflexivity.
  - unfold Utils.create_assignment, EmailTracker.fresh_pk. simpl.
    match goal with |- context [existsb ?f ?l] =>
      replace (existsb f l) with true end.
    + eexists. eexists. reflexivity.
    + symmetry. apply existsb_exists.
      destruct (get_found_in _ _ _ Ha) as [Hin Hp].
      unfold Utils.is_active_assignment_of in Hp.
      apply andb_prop in Hp. destruct Hp as [Hp _].
      exists (if String.eqb (la_id assignment) (la_id assignment)
              then mkLeadMailboxAssignment (la_id assignment)
                     (la_lead_id assignment) (la_client_id assignment)
                     (la_assigned_email assignment)
                     (la_assigned_at assignment)
                     (la_last_used_at assignment)
                     (la_email_count assignment) asg_inactive
              else assignment).
      split.
      * unfold Orm.update_where.
        apply (in_map (fun a => if String.eqb (la_id a) (la_id assignment)
                                then _ else a) _ assignment Hin).
      * rewrite String.eqb_refl. simpl. rewrite Hp. reflexivity.
Qed.

(** C6, at the failing input.  Lead 1 is assigned to mailbox a, which has
    been revoked, and mailbox b is active.  The call marks the assignment
    inactive, picks mailbox b and then fails on the INSERT with
    [IntegrityError]: no mailbox is returned and the lead is left without
    any active assignment. *)
Theorem reassignment_violates_unique_together :
  exists db',
    Utils.get_or_assign_mailbox_for_lead Demo.env 1000 Demo.lead1 Demo.client1
      Demo.db_revoked
    = (Raise (IntegrityError "duplicate key value violates unique constraint"),
       db')
    /\ map la_status (lead_mailbox_assignments db') = [asg_inactive]
    /\ Orm.get (Utils.is_active_assignment_of Demo.lead1 Demo.client1)
         (lead_mailbox_assignments db') = Orm.DoesNotExist.
Proof. eexists. repeat split. Qed.

(* ------------------------------------------------------------------ *)
(** ** What each step of the dispatcher leaves alone *)

Section Frames.

Lemma daily_send_count_set_last_used_at (Q : GmailToken -> bool)
    (now : datetime) (t : list GmailToken) :
  map tk_daily_send_count
    (Orm.update_where Q (fun x => Utils.set_last_used_at x now) t)
  = map tk_daily_send_count t.
Proof.
  unfold Orm.update_where. rewrite map_map. apply map_ext.
  intros x. now destruct (Q x).
Qed.

Lemma get_next_mailbox_token_frame (env : Env) (now : datetime)
    (client_id : uuid) (db : DB) :
  let db' := snd (Utils.get_next_mailbox_token env now client_id db) in
  email_events db' = email_events db
  /\ email_send_queue db' = email_send_queue db
  /\ clients db' = clients db
  /\ lead_mailbox_assignments db' = lead_mailbox_assignments db
  /\ rng db' = rng db
  /\ map tk_daily_send_count (gmail_tokens db')
     = map tk_daily_send_count (gmail_tokens db).
Proof.
  unfold Utils.get_next_mailbox_token.
  destruct (Orm.first _) as [t0|]; simpl; repeat split.
  apply daily_send_count_set_last_used_at.
Qed.

Lemma assign_new_mailbox_frame (env : Env) (now : datetime)
    (lead_id client_id : uuid) (db : DB) :
  let db' := snd (Utils.assign_new_mailbox env now lead_id client_id db) in
  email_events db' = email_events db
  /\ email_send_queue db' = email_send_queue db
  /\ clients db' = clients db
  /\ map tk_daily_send_count (gmail_tokens db')
     = map tk_daily_send_count (gmail_tokens db).
Proof.
  unfold Utils.assign_new_mailbox.
  pose proof (get_next_mailbox_token_frame env now client_id db) as H.
  destruct (Utils.get_next_mailbox_token env now client_id db) as [[t|e] db1];
    simpl in H; destruct H as (H1 & H2 & H3 & _ & _ & H6).
  - unfold Utils.create_assignment, EmailTracker.fresh_pk. simpl.
    destruct (existsb _ _); simpl; auto.
  - simpl. auto.
Qed.

Lemma get_or_assign_frame (env : Env) (now : datetime)
    (lead_id client_id : uuid) (db : DB) :
  let db' :=
    snd (Utils.get_or_assign_mailbox_for_lead env now lead_id client_id db) in
  email_events db' = email_events db
  /\ email_send_queue db' = email_send_queue db
  /\ clients db' = clients db
  /\ map tk_daily_send_count (gmail_tokens db')
     = map tk_daily_send_count (gmail_tokens db).
Proof.
  unfold Utils.get_or_assign_mailbox_for_lead.
  destruct (Orm.get _ (lead_mailbox_assignments db)) as [a| |].
  - destruct (Orm.get _ (gmail_tokens db)) as [t| |]; simpl; auto.
    match goal with
    | |- context [Utils.assign_new_mailbox env now lead_id client_id ?d] =>
        exact (assign_new_mailbox_frame env now lead_id client_id d)
    end.
  - apply assign_new_mailbox_frame.
  - simpl. auto.
Qed.

Lemma replace_links_loop_frame (env : Env) (now : datetime) (lead_id : uuid)
    (message_id : string) (client_id : uuid) (soup : list HtmlToken) :
  forall tracked db,
    let db' := snd (EmailTracker.replace_links_loop env now lead_id message_id
                      client_id soup tracked db) in
    email_events db' = email_events db
    /\ email_send_queue db' = email_send_queue db
    /\ clients db' = clients db
    /\ gmail_tokens db' = gmail_tokens db.
Proof.
  induction soup as [|tok soup IH]; intros tracked db; simpl; auto.
  destruct (EmailTracker.anchor_href tok) as [url|].
  - destruct (EmailTracker.skipped url).
    + specialize (IH tracked db).
      destruct (EmailTracker.replace_links_loop _ _ _ _ _ soup tracked db)
        as [[r t] d]. exact IH.
    + rewrite create_click_tracking_cases.
      match goal with |- context [if ?b then _ else _] => destruct b end;
        match goal with
        | |- context [EmailTracker.replace_links_loop _ _ _ _ _ soup ?t ?d] =>
            specialize (IH t d);
            destruct (EmailTracker.replace_links_loop env now lead_id
                        message_id client_id soup t d) as [[r t'] d']
        end; exact IH.
  - specialize (IH tracked db).
    destruct (EmailTracker.replace_links_loop _ _ _ _ _ soup tracked db)
      as [[r t] d]. exact IH.
Qed.

Lemma add_tracking_to_email_frame (env : Env) (now : datetime)
    (html_body : string) (lead_id : uuid) (message_id : string)
    (client_id : uuid) (db : DB) :
  let db' := snd (EmailTracker.add_tracking_to_email env now html_body lead_id
                    message_id client_id db) in
  email_events db' = email_events db
  /\ email_send_queue db' = email_send_queue db
  /\ clients db' = clients db
  /\ gmail_tokens db' = gmail_tokens db.
Proof.
  unfold EmailTracker.add_tracking_to_email,
    EmailTracker.replace_links_with_tracking,
    EmailTracker.replace_links_in_soup.
  pose proof (replace_links_loop_frame env now lead_id message_id client_id
                (parse_html env html_body) [] db) as H.
  destruct (EmailTracker.replace_links_loop _ _ _ _ _ _ [] db)
    as [[soup' tracked] db1]. simpl in H.
  unfold EmailTracker.create_tracking_pixel, EmailTracker.generate_pixel_id,
    EmailTracker.fresh_pk. simpl.
  destruct (existsb _ (email_tracking_pixels db1)); simpl; exact H.
Qed.

Lemma check_client_daily_limit_frame (now : datetime) (client_id : uuid)
    (db : DB) :
  let db' := snd (Tasks.check_client_daily_limit now client_id db) in
  email_events db' = email_events db
  /\ email_send_queue db' = email_send_queue db
  /\ gmail_tokens db' = gmail_tokens db.
Proof.
  unfold Tasks.check_client_daily_limit.
  destruct (find _ (clients db)) as [row|]; simpl; auto.
  destruct (cl_last_reset_date row <? Tasks.date_of now); simpl; auto.
Qed.
End Frames.

(* ------------------------------------------------------------------ *)
(** ** One job through the dispatcher *)

Section Dispatch.

Lemma assign_new_mailbox_error_text (env : Env) (now : datetime)
    (lead_id client_id : uuid) (db db' : DB) (e : Exn) :
  Utils.assign_new_mailbox env now lead_id client_id db = (Raise e, db') ->
  str e <> EmptyString.
Proof.
  unfold Utils.assign_new_mailbox, Utils.get_next_mailbox_token.
  destruct (Orm.first _) as [t0|].
  - unfold Utils.create_assignment, EmailTracker.fresh_pk. simpl.
    destruct (existsb _ _); intros H; inversion H; subst; simpl; discriminate.
  - intros H; inversion H; subst; simpl; discriminate.
Qed.

Lemma get_or_assign_error_text (env : Env) (now : datetime)
    (lead_id client_id : uuid) (db db' : DB) (e : Exn) :
  Utils.get_or_assign_mailbox_for_lead env now lead_id client_id db
  = (Raise e, db') ->
  str e <> EmptyString.
Proof.
  unfold Utils.get_or_assign_mailbox_for_lead.
  destruct (Orm.get _ (lead_mailbox_assignments db)) as [a| |].
  - destruct (Orm.get _ (gmail_tokens db)) as [t| |].
    + discriminate.
    + apply assign_new_mailbox_error_text.
    + intros H; inversion H; subst; simpl; discriminate.
  - apply assign_new_mailbox_error_text.
  - intros H; inversion H; subst; simpl; discriminate.
Qed.

(** A failed delivery has touched neither the queue, nor the event log,
    nor the tenant's counter, nor any mailbox counter. *)
Lemma deliver_raise (env : Env) (now : datetime) (email : EmailSendQueue)
    (db db' : DB) (e : Exn) :
  Tasks.deliver env now email db = (Raise e, db') ->
  email_send_queue db' = email_send_queue db
  /\ email_events db' = email_events db
  /\ clients db' = clients db
  /\ map tk_daily_send_count (gmail_tokens db')
     = map tk_daily_send_count (gmail_tokens db)
  /\ (Runs.gmail_errors_have_text env -> str e <> EmptyString).
Proof.
  unfold Tasks.deliver.
  pose proof (get_or_assign_frame env now (q_lead_id email)
                (q_client_id email) db) as Hf.
  destruct (Utils.get_or_assign_mailbox_for_lead env now (q_lead_id email)
              (q_client_id email) db) as [[token|e0] db1] eqn:Hg;
    simpl in Hf; destruct Hf as (F1 & F2 & F3 & F4).
  - destruct (gmail_connect env (rng db1) token) as [msg|] eqn:Hc.
    + intros H; inversion H; subst; simpl. repeat split; auto.
      intros [Hconn _]. now apply (Hconn _ _ _ Hc).
    + match goal with
      | |- context [EmailTracker.add_tracking_to_email env now ?b ?l ?m ?c ?d] =>
          pose proof (add_tracking_to_email_frame env now b l m c d) as Ht;
          destruct (EmailTracker.add_tracking_to_email env now b l m c d)
            as [html db4]
      end.
      simpl in Ht. destruct Ht as (T1 & T2 & T3 & T4).
      destruct (gmail_send env (rng db4) token _ _ html)
        as [message_id thread_id|error] eqn:Hs.
      * discriminate.
      * intros H; inversion H; subst; simpl.
        rewrite T1, T2, T3, T4. repeat split; auto.
        intros [_ Hsend]. now apply (Hsend _ _ _ _ _ _ Hs).
  - intros H; inversion H; subst. repeat split; auto.
    intros _. now apply (get_or_assign_error_text _ _ _ _ _ _ _ Hg).
Qed.

(** A successful delivery is [on_success] applied to a database that
    differs from the one before only in assignments, mailbox timestamps
    and tracking rows. *)
Lemma deliver_ok (env : Env) (now : datetime) (email email' : EmailSendQueue)
    (db db' : DB) :
  Tasks.deliver env now email db = (Ok email', db') ->
  exists token message_id thread_id dbm,
    fst (Utils.get_or_assign_mailbox_for_lead env now (q_lead_id email)
           (q_client_id email) db) = Ok token
    /\ email_send_queue dbm = email_send_queue db
    /\ email_events dbm = email_events db
    /\ clients dbm = clients db
    /\ map tk_daily_send_count (gmail_tokens dbm)
       = map tk_daily_send_count (gmail_tokens db)
    /\ (email', db')
       = Tasks.on_success now email token message_id thread_id dbm.
Proof.
  unfold Tasks.deliver.
  pose proof (get_or_assign_frame env now (q_lead_id email)
                (q_client_id email) db) as Hf.
  destruct (Utils.get_or_assign_mailbox_for_lead env now (q_lead_id email)
              (q_client_id email) db) as [[token|e0] db1] eqn:Hg;
    simpl in Hf; destruct Hf as (F1 & F2 & F3 & F4); [|discriminate].
  destruct (gmail_connect env (rng db1) token) as [msg|]; [discriminate|].
  match goal with
  | |- context [EmailTracker.add_tracking_to_email env now ?b ?l ?m ?c ?d] =>
      pose proof (add_tracking_to_email_frame env now b l m c d) as Ht;
      destruct (EmailTracker.add_tracking_to_email env now b l m c d)
        as [html db4]
  end.
  simpl in Ht. destruct Ht as (T1 & T2 & T3 & T4).
  destruct (gmail_send env (rng db4) token _ _ html)
    as [message_id thread_id|error]; [|discriminate].
  intros H. exists token, message_id, thread_id, (tick db4).
  simpl. rewrite T1, T2, T3, T4. repeat split; auto.
  destruct (Tasks.on_success now email token message_id thread_id (tick db4)).
  now inversion H.
Qed.

Lemma failed_row_set_status (now : datetime) (e : Exn) (s : QueueStatus)
    (email : EmailSendQueue) :
  Runs.failed_row now e (Tasks.set_status s email) = Runs.failed_row now e email.
Proof. unfold Runs.failed_row. simpl. reflexivity. Qed.

Lemma by_id_true (id : uuid) (r : EmailSendQueue) :
  Runs.by_id id r = true -> q_id r = id.
Proof. apply String.eqb_eq. Qed.
End Dispatch.

Section Attempts.

Lemma process_email_failed (env : Env) (now : datetime)
    (email stored : EmailSendQueue) (db db3 : DB) :
  NoDup (map q_id (email_send_queue db)) ->
  Orm.get (Runs.by_id (q_id email)) (email_send_queue db) = Orm.Found stored ->
  Tasks.process_email env now email db = (Tasks.Failed, db3) ->
  exists e,
    Orm.get (Runs.by_id (q_id email)) (email_send_queue db3)
    = Orm.Found (Runs.failed_row now e email)
    /\ NoDup (map q_id (email_send_queue db3))
    /\ (Runs.gmail_errors_have_text env -> str e <> EmptyString)
    /\ email_events db3 = email_events db.
Proof.
  intros Hnd Hget. unfold Tasks.process_email.
  pose proof (check_client_daily_limit_frame now (q_client_id email) db) as Hc.
  destruct (Tasks.check_client_daily_limit now (q_client_id email) db)
    as [under db0]. simpl in Hc. destruct Hc as (C1 & C2 & _).
  destruct under; simpl; [|discriminate].
  destruct (Tasks.deliver env now (Tasks.set_status SENDING email) _)
    as [[email2|e] db2] eqn:Hd; [discriminate|].
  intros H. inversion H; subst db3. clear H.
  destruct (deliver_raise _ _ _ _ _ _ Hd) as (D1 & D2 & _ & _ & Dtext).
  simpl in D1, D2. exists e.
  destruct (get_found_in _ _ _ Hget) as [Hin Hp].
  apply by_id_true in Hp.
  rewrite <- C2 in Hnd, Hget, Hin.
  set (t0 := email_send_queue db0) in *.
  set (claimed := Tasks.set_status SENDING email) in *.
  assert (Hid1 : q_id claimed = q_id stored) by (now rewrite Hp).
  assert (Hnd1 : NoDup (map q_id (Orm.save q_id claimed t0)))
    by (now rewrite (map_pk_save q_id _ _ stored Hin Hid1)).
  assert (Hget1 : Orm.get (Runs.by_id (q_id email)) (Orm.save q_id claimed t0)
                  = Orm.Found claimed).
  { apply (get_save q_id _ _ _ stored Hnd Hget Hid1). apply String.eqb_refl. }
  destruct (get_found_in _ _ _ Hget1) as [Hin1 _].
  unfold Tasks.on_exception.
  change (if q_max_attempts claimed <=? q_attempts claimed + 1 then _ else _)
    with (Runs.failed_row now e claimed).
  simpl email_send_queue. rewrite D1.
  assert (Hid2 : q_id (Runs.failed_row now e claimed) = q_id claimed).
  { unfold Runs.failed_row. destruct (_ <=? _); reflexivity. }
  split.
  - rewrite <- (failed_row_set_status now e SENDING email).
    apply (get_save q_id _ _ _ claimed Hnd1 Hget1 Hid2).
    unfold Runs.by_id. rewrite Hid2. apply String.eqb_refl.
  - split; [|split; [exact Dtext|]].
    + now rewrite (map_pk_save q_id _ _ claimed Hin1 Hid2).
    + simpl. now rewrite D2.
Qed.

Lemma failed_row_fields (now : datetime) (e : Exn) (email : EmailSendQueue) :
  q_id (Runs.failed_row now e email) = q_id email
  /\ q_attempts (Runs.failed_row now e email) = q_attempts email + 1
  /\ q_max_attempts (Runs.failed_row now e email) = q_max_attempts email
  /\ q_last_error (Runs.failed_row now e email) = Some (str e)
  /\ (q_max_attempts email <= q_attempts email + 1 ->
      q_status (Runs.failed_row now e email) = FAILED
      /\ q_failed_at (Runs.failed_row now e email) = Some now)
  /\ (q_attempts email + 1 < q_max_attempts email ->
      q_status (Runs.failed_row now e email) = PENDING
      /\ q_scheduled_for (Runs.failed_row now e email) = now + 5 * 60).
Proof.
  unfold Runs.failed_row.
  destruct (q_max_attempts email <=? q_attempts email + 1) eqn:E; simpl;
    [apply Z.leb_le in E | apply Z.leb_gt in E]; repeat split; auto; lia.
Qed.
End Attempts.

(** C3.  When the dispatcher has claimed a job and the attempt fails, the
    row it writes back has [attempts] one higher and [last_error] set to
    the text of the exception; if the new [attempts] reaches
    [max_attempts] the row is FAILED with [failed_at] = now, otherwise it
    is PENDING again with [scheduled_for] = now + 5 minutes.  So a job
    with [max_attempts] = 3 that fails in three consecutive cycles is
    PENDING after the first and the second, and after the third it is
    FAILED with [failed_at] set, [attempts] = 3 and [last_error] holding
    the error text (non-empty whenever the Gmail client reports its
    errors with a text). *)
Theorem failed_attempt_is_counted
    (env : Env) (now : datetime) (email stored : EmailSendQueue)
    (db db' : DB) :
  NoDup (map q_id (email_send_queue db)) ->
  Orm.get (Runs.by_id (q_id email)) (email_send_queue db) = Orm.Found stored ->
  Tasks.process_email env now email db = (Tasks.Failed, db') ->
  (exists e email',
      Orm.get (Runs.by_id (q_id email)) (email_send_queue db')
      = Orm.Found email'
      /\ q_attempts email' = q_attempts email + 1
      /\ q_last_error email' = Some (str e)
      /\ (Runs.gmail_errors_have_text env -> str e <> EmptyString)
      /\ (q_max_attempts email <= q_attempts email + 1 ->
          q_status email' = FAILED /\ q_failed_at email' = Some now)
      /\ (q_attempts email + 1 < q_max_attempts email ->
          q_status email' = PENDING
          /\ q_scheduled_for email' = now + 5 * 60))
  /\ (forall t1 t2 t3 j0 j1 j2 d0 d1 d2 d3,
        NoDup (map q_id (email_send_queue d0)) ->
        Orm.get (Runs.by_id (q_id j0)) (email_send_queue d0) = Orm.Found j0 ->
        q_attempts j0 = 0 ->
        q_max_attempts j0 = 3 ->
        Tasks.process_email env t1 j0 d0 = (Tasks.Failed, d1) ->
        Orm.get (Runs.by_id (q_id j0)) (email_send_queue d1) = Orm.Found j1 ->
        Tasks.process_email env t2 j1 d1 = (Tasks.Failed, d2) ->
        Orm.get (Runs.by_id (q_id j0)) (email_send_queue d2) = Orm.Found j2 ->
        Tasks.process_email env t3 j2 d2 = (Tasks.Failed, d3) ->
        q_status j1 = PENDING /\ q_attempts j1 = 1
        /\ q_status j2 = PENDING /\ q_attempts j2 = 2
        /\ exists j3 error,
             Orm.get (Runs.by_id (q_id j0)) (email_send_queue d3)
             = Orm.Found j3
             /\ q_status j3 = FAILED
             /\ q_failed_at j3 = Some t3
             /\ q_attempts j3 = 3
             /\ q_last_error j3 = Some error
             /\ (Runs.gmail_errors_have_text env -> error <> EmptyString)).
Proof.
  intros Hnd Hget Hrun. split.
  - destruct (process_email_failed env now email stored db db' Hnd Hget Hrun)
      as (e & Hg & _ & Htext & _).
    destruct (failed_row_fields now e email) as (_ & Fa & _ & Fe & Ff & Fp).
    exists e, (Runs.failed_row now e email). repeat split; auto;
      try (now apply Ff); now apply Fp.
  - clear. intros t1 t2 t3 j0 j1 j2 d0 d1 d2 d3 Hnd0 Hg0 Ha Hm R1 G1 R2 G2 R3.
    destruct (process_email_failed env t1 j0 j0 d0 d1 Hnd0 Hg0 R1)
      as (e1 & Hg1 & Hnd1 & _ & _).
    rewrite G1 in Hg1. inversion Hg1; subst j1. clear Hg1.
    destruct (failed_row_fields t1 e1 j0) as (I1 & A1 & M1 & _ & _ & P1).
    rewrite <- I1 in G1, G2.
    destruct (process_email_failed env t2 _ _ d1 d2 Hnd1 G1 R2)
      as (e2 & Hg2 & Hnd2 & _ & _).
    rewrite G2 in Hg2. inversion Hg2; subst j2. clear Hg2.
    destruct (failed_row_fields t2 e2 (Runs.failed_row t1 e1 j0))
      as (I2 & A2 & M2 & _ & _ & P2).
    rewrite <- I2 in G2.
    destruct (process_email_failed env t3 _ _ d2 d3 Hnd2 G2 R3)
      as (e3 & Hg3 & _ & Htext & _).
    destruct (failed_row_fields t3 e3
                (Runs.failed_row t2 e2 (Runs.failed_row t1 e1 j0)))
      as (_ & A3 & _ & E3 & F3 & _).
    rewrite I2, I1 in Hg3.
    destruct P1 as [S1 _]; [lia|].
    destruct P2 as [S2 _]; [lia|].
    destruct F3 as [S3 T3]; [lia|].
    repeat split; auto; try lia.
    exists (Runs.failed_row t3 e3
              (Runs.failed_row t2 e2 (Runs.failed_row t1 e1 j0))), (str e3).
    repeat split; auto. lia.
Qed.

Lemma failed_attempt_is_counted_witness :
  (exists email',
      Orm.get (Runs.by_id "job-1") (email_send_queue Demo.retry1)
      = Orm.Found email'
      /\ q_attempts email' = 1
      /\ q_status email' = PENDING
      /\ q_scheduled_for email' = 1300)
  /\ (exists j3 error,
        Orm.get (Runs.by_id "job-1") (email_send_queue Demo.retry3)
        = Orm.Found j3
        /\ q_status j3 = FAILED
        /\ q_failed_at j3 = Some 1600
        /\ q_attempts j3 = 3
        /\ q_last_error j3 = Some error
        /\ error <> EmptyString).
Proof.
  assert (Hnd : NoDup (map q_id (email_send_queue Demo.db_one_job))).
  { simpl. constructor; [intros []|constructor]. }
  assert (Htext : Runs.gmail_errors_have_text Demo.env_down).
  { split.
    - intros n token msg H. discriminate H.
    - intros n token to_email subject body error H.
      inversion H. discriminate. }
  destruct (failed_attempt_is_counted Demo.env_down 1000 Demo.job1 Demo.job1
              Demo.db_one_job Demo.retry1 Hnd eq_refl eq_refl)
    as ((e & email' & Hg & Ha & _ & _ & _ & Hp) & Hthree).
  split.
  - exists email'. destruct Hp as [Hs Hf]; [simpl; lia|]. auto.
  - destruct (Hthree 1000 1300 1600 Demo.job1 (Demo.stored_job Demo.retry1)
                (Demo.stored_job Demo.retry2) Demo.db_one_job Demo.retry1
                Demo.retry2 Demo.retry3 Hnd eq_refl eq_refl eq_refl
                eq_refl eq_refl eq_refl eq_refl eq_refl)
      as (_ & _ & _ & _ & j3 & error & G3 & S3 & F3 & A3 & E3 & T3).
    exists j3, error. repeat split; auto.
Defined.

(* ------------------------------------------------------------------ *)
(** ** A job that is sent *)

Section Sent.

(** What the dispatcher records for a job whose transport call succeeds:
    the row is SENT with [sent_at], [sent_from_email] and [message_id],
    exactly one SENT event is appended, and the tenant's counter of the
    day goes up by one. *)
Lemma process_email_sent (env : Env) (now : datetime)
    (email stored : EmailSendQueue) (db db' : DB) :
  NoDup (map q_id (email_send_queue db)) ->
  Orm.get (Runs.by_id (q_id email)) (email_send_queue db) = Orm.Found stored ->
  Tasks.process_email env now email db = (Tasks.Sent, db') ->
  exists token message_id thread_id email',
    Orm.get (Runs.by_id (q_id email)) (email_send_queue db')
    = Orm.Found email'
    /\ q_status email' = SENT
    /\ q_sent_at email' = Some now
    /\ q_sent_from_email email' = Some (tk_email_address token)
    /\ q_message_id email' = Some message_id
    /\ q_attempts email' = q_attempts email
    /\ email_events db'
       = (email_events db
          ++ [mkEmailEvent (q_lead_id email) (q_client_id email) EV_SENT
                message_id thread_id (Some (q_sequence_number email))
                (q_email_subject email) None None None EmptyString now])%list
    /\ clients db'
       = Orm.update_where
           (fun c => String.eqb (cl_id c) (q_client_id email))
           (fun c => mkClientRow (cl_id c) (cl_gmail_daily_limit c)
                       (cl_emails_sent_today c + 1) (cl_last_reset_date c))
           (clients (snd (Tasks.check_client_daily_limit now
                            (q_client_id email) db))).
Proof.
  intros Hnd Hget. unfold Tasks.process_email.
  pose proof (check_client_daily_limit_frame now (q_client_id email) db) as Hc.
  destruct (Tasks.check_client_daily_limit now (q_client_id email) db)
    as [under db0]. simpl in Hc. destruct Hc as (C1 & C2 & _).
  destruct under; simpl; [|discriminate].
  destruct (Tasks.deliver env now (Tasks.set_status SENDING email) _)
    as [[email2|e] db2] eqn:Hd; [|discriminate].
  intros H. inversion H; subst db2. clear H.
  destruct (deliver_ok _ _ _ _ _ _ Hd)
    as (token & message_id & thread_id & dbm & _ & D1 & D2 & D3 & _ & Hs).
  simpl in D1, D2, D3.
  exists token, message_id, thread_id, email2.
  unfold Tasks.on_success in Hs. inversion Hs; subst. clear Hs. simpl.
  destruct (get_found_in _ _ _ Hget) as [Hin Hp].
  apply by_id_true in Hp.
  rewrite <- C2 in Hnd, Hget, Hin.
  set (t0 := email_send_queue db0) in *.
  set (claimed := Tasks.set_status SENDING email) in *.
  assert (Hid1 : q_id claimed = q_id stored) by (now rewrite Hp).
  assert (Hnd1 : NoDup (map q_id (Orm.save q_id claimed t0)))
    by (now rewrite (map_pk_save q_id _ _ stored Hin Hid1)).
  assert (Hget1 : Orm.get (Runs.by_id (q_id email)) (Orm.save q_id claimed t0)
                  = Orm.Found claimed).
  { apply (get_save q_id _ _ _ stored Hnd Hget Hid1). apply String.eqb_refl. }
  rewrite D1, D2, D3, C1. repeat split; try reflexivity.
  apply (get_save q_id _ _ _ claimed Hnd1 Hget1); [reflexivity|].
  apply String.eqb_refl.
Qed.

(** No step of the dispatcher writes [daily_send_count]. *)
Lemma process_email_keeps_daily_send_count (env : Env) (now : datetime)
    (email : EmailSendQueue) (db : DB) :
  map tk_daily_send_count
    (gmail_tokens (snd (Tasks.process_email env now email db)))
  = map tk_daily_send_count (gmail_tokens db).
Proof.
  unfold Tasks.process_email.
  pose proof (check_client_daily_limit_frame now (q_client_id email) db) as Hc.
  destruct (Tasks.check_client_daily_limit now (q_client_id email) db)
    as [under db0]. simpl in Hc. destruct Hc as (_ & _ & C3).
  destruct under; simpl; [|now rewrite C3].
  destruct (Tasks.deliver env now (Tasks.set_status SENDING email) _)
    as [[email2|e] db2] eqn:Hd.
  - destruct (deliver_ok _ _ _ _ _ _ Hd)
      as (token & message_id & thread_id & dbm & _ & _ & _ & _ & D4 & Hs).
    unfold Tasks.on_success in Hs. inversion Hs; subst. simpl.
    rewrite D4. simpl. now rewrite C3.
  - destruct (deliver_raise _ _ _ _ _ _ Hd) as (_ & _ & _ & D4 & _).
    simpl. rewrite D4. simpl. now rewrite C3.
Qed.

Lemma process_batch_keeps_daily_send_count (env : Env) (now : datetime)
    (batch : list EmailSendQueue) :
  forall counts db,
    map tk_daily_send_count
      (gmail_tokens (snd (Tasks.process_batch env now batch counts db)))
    = map tk_daily_send_count (gmail_tokens db).
Proof.
  induction batch as [|email rest IH]; intros counts db; simpl; [reflexivity|].
  pose proof (process_email_keeps_daily_send_count env now email db) as H.
  destruct (Tasks.process_email env now email db) as [o db1]. simpl in H.
  rewrite IH. exact H.
Qed.

(** A whole dispatcher cycle leaves every mailbox's [daily_send_count] as
    it was, however many messages it sent. *)
Lemma cycle_keeps_daily_send_count (env : Env) (now : datetime) (db : DB) :
  map tk_daily_send_count
    (gmail_tokens (snd (Tasks.process_email_queue env now db)))
  = map tk_daily_send_count (gmail_tokens db).
Proof. apply process_batch_keeps_daily_send_count. Qed.
End Sent.

(** C4, at the failing input.  One job due since one second, one active
    mailbox with [daily_send_count] 0, Gmail accepts the message.  After
    one dispatcher cycle the job is SENT with [sent_at] and
    [sent_from_email] recorded, exactly one SENT event exists and the
    tenant's counter is 1, but the sending mailbox still has
    [daily_send_count] 0. *)
Theorem sent_job_leaves_mailbox_count_unchanged :
  let db' := snd (Tasks.process_email_queue Demo.env 1000 Demo.db_one_job) in
  fst (Tasks.process_email_queue Demo.env 1000 Demo.db_one_job)
  = Tasks.mkCounts 1 0
  /\ map (fun e => (q_status e, q_sent_at e, q_sent_from_email e))
       (email_send_queue db')
     = [(SENT, Some 1000, Some "a@acme.test")]
  /\ map ev_event_type (email_events db') = [EV_SENT]
  /\ map cl_emails_sent_today (clients db') = [1]
  /\ map (fun t => (tk_email_address t, tk_daily_send_count t))
       (gmail_tokens Demo.db_one_job) = [("a@acme.test", 0)]
  /\ map (fun t => (tk_email_address t, tk_daily_send_count t))
       (gmail_tokens db') = [("a@acme.test", 0)].
Proof. vm_compute. repeat split. Qed.

(* ------------------------------------------------------------------ *)
(** ** Claiming a job *)

Section Claim.

Lemma in_firstn {A : Type} (n : nat) (l : list A) (x : A) :
  In x (firstn n l) -> In x l.
Proof.
  revert l. induction n as [|n IH]; intros [|y l]; simpl; try tauto.
  intros [->|H]; auto.
Qed.

Lemma ready_emails_in (now : datetime) (db : DB) (j : EmailSendQueue) :
  In j (Tasks.ready_emails now db) ->
  In j (email_send_queue db) /\ q_status j = PENDING /\ q_scheduled_for j <= now.
Proof.
  unfold Tasks.ready_emails. intros H. apply in_firstn in H.
  apply order_by_in in H. apply filter_In in H. destruct H as [Hin Hr].
  unfold Tasks.is_ready in Hr. apply andb_prop in Hr. destruct Hr as [Hs Ht].
  split; [exact Hin|]. split; [|now apply Z.leb_le].
  destruct (q_status j); simpl in Hs; congruence.
Qed.

Lemma process_email_not_skipped (env : Env) (now : datetime)
    (email : EmailSendQueue) (db : DB) :
  fst (Tasks.check_client_daily_limit now (q_client_id email) db) = true ->
  fst (Tasks.process_email env now email db) <> Tasks.Skipped.
Proof.
  unfold Tasks.process_email.
  destruct (Tasks.check_client_daily_limit now (q_client_id email) db)
    as [under db0]. simpl. intros ->. simpl.
  destruct (Tasks.deliver env now _ _) as [[e2|e] db2]; simpl; discriminate.
Qed.
End Claim.

(** C1, as the code has it.  The claim of a job is the write of the
    in-memory row with status SENDING over the stored row with the same
    primary key.  It does not look at the stored status: whatever the
    stored row is, the write succeeds and the stored row is then the
    cycle's own copy with status SENDING, and a cycle whose tenant check
    passes never skips the job.  What keeps a second cycle away is only
    its read: a batch read after the write does not contain the job. *)
Theorem claim_is_unconditional_write
    (env : Env) (now : datetime) (email stored : EmailSendQueue) (db : DB) :
  NoDup (map q_id (email_send_queue db)) ->
  Orm.get (Runs.by_id (q_id email)) (email_send_queue db) = Orm.Found stored ->
  Orm.get (Runs.by_id (q_id email))
    (email_send_queue (snd (Tasks.claim email db)))
  = Orm.Found (Tasks.set_status SENDING email)
  /\ fst (Tasks.claim email db) = Tasks.set_status SENDING email
  /\ (fst (Tasks.check_client_daily_limit now (q_client_id email) db) = true ->
      fst (Tasks.process_email env now email db) <> Tasks.Skipped)
  /\ (forall later j,
        In j (Tasks.ready_emails later (snd (Tasks.claim email db))) ->
        q_id j <> q_id email).
Proof.
  intros Hnd Hget.
  destruct (get_found_in _ _ _ Hget) as [Hin Hp]. apply by_id_true in Hp.
  assert (Hid : q_id (Tasks.set_status SENDING email) = q_id stored)
    by (now rewrite Hp).
  assert (Hget1 : Orm.get (Runs.by_id (q_id email))
                    (email_send_queue (snd (Tasks.claim email db)))
                  = Orm.Found (Tasks.set_status SENDING email)).
  { simpl. apply (get_save q_id _ _ _ stored Hnd Hget Hid).
    apply String.eqb_refl. }
  split; [exact Hget1|]. split; [reflexivity|]. split.
  - apply process_email_not_skipped.
  - intros later j Hj Heq.
    apply ready_emails_in in Hj. destruct Hj as (Hjin & Hjs & _).
    apply get_found in Hget1.
    assert (Hjf : In j (filter (Runs.by_id (q_id email))
                          (email_send_queue (snd (Tasks.claim email db))))).
    { apply filter_In. split; [exact Hjin|].
      unfold Runs.by_id. rewrite Heq. apply String.eqb_refl. }
    rewrite Hget1 in Hjf. destruct Hjf as [<-|[]]. discriminate Hjs.
Qed.

Lemma claim_is_unconditional_write_witness :
  Orm.get (Runs.by_id "job-1")
    (email_send_queue (snd (Tasks.claim Demo.job1 Demo.db_one_job)))
  = Orm.Found (Tasks.set_status SENDING Demo.job1)
  /\ Tasks.ready_emails 1000 (snd (Tasks.claim Demo.job1 Demo.db_one_job)) = [].
Proof.
  assert (Hnd : NoDup (map q_id (email_send_queue Demo.db_one_job))).
  { simpl. constructor; [intros []|constructor]. }
  destruct (claim_is_unconditional_write Demo.env 1000 Demo.job1 Demo.job1
              Demo.db_one_job Hnd eq_refl) as (Hg & _ & _ & _).
  split; [exact Hg | reflexivity].
Defined.

(** C1, the counterexample.  Job 1 is PENDING and due.  Two cycles both
    read their batch before either of them works on it; each of them then
    claims job 1, and the job is sent twice. *)
Lemma two_cycles_claim_the_same_job :
  let s :=
    Cycles.run Demo.env 1000
      [Cycles.Fetch Cycles.W1; Cycles.Fetch Cycles.W2;
       Cycles.Step Cycles.W1; Cycles.Step Cycles.W2]
      (Cycles.start Demo.db_one_job) in
  Tasks.ready_emails 1000 Demo.db_one_job = [Demo.job1]
  /\ Cycles.claimed_by Cycles.W1 "job-1" s = true
  /\ Cycles.claimed_by Cycles.W2 "job-1" s = true
  /\ map ev_event_type (email_events (Cycles.sys_db s)) = [EV_SENT; EV_SENT]
  /\ ~ (Cycles.claimed_by Cycles.W1 "job-1" s = true ->
        Cycles.claimed_by Cycles.W2 "job-1" s = false).
Proof.
  vm_compute. repeat split.
  intros H. specialize (H eq_refl). discriminate H.
Qed.

(* ================================================================== *)
(** * Further properties of the code *)

(* ------------------------------------------------------------------ *)
(** ** Rows found through a unique column *)

Section UniqueColumn.
Context {R : Type} (key : R -> string).

Lemma existsb_false_in (f : R -> bool) (t : list R) :
  existsb f t = false -> forall x, In x t -> f x = false.
Proof.
  intros H x Hx. destruct (f x) eqn:E; [|reflexivity].
  assert (Ht : existsb f t = true) by (apply existsb_exists; eauto).
  congruence.
Qed.

Lemma filter_none (f : R -> bool) (t : list R) :
  (forall x, In x t -> f x = false) -> filter f t = [].
Proof.
  induction t as [|x t IH]; intros H; simpl; [reflexivity|].
  rewrite (H x (or_introl eq_refl)). apply IH. intros y Hy. apply H. now right.
Qed.

Lemma filter_unique_key (t : list R) (r : R) :
  NoDup (map key t) -> In r t ->
  filter (fun x => String.eqb (key x) (key r)) t = [r].
Proof.
  induction t as [|x t IH]; intros Hnd Hin; [destruct Hin|].
  inversion Hnd as [|? ? Hout Hnd']; subst. simpl.
  destruct Hin as [->|Hin].
  - rewrite String.eqb_refl. f_equal. apply filter_none.
    intros y Hy. apply String.eqb_neq. intros E. apply Hout.
    rewrite <- E. now apply in_map.
  - replace (String.eqb (key x) (key r)) with false; [now apply IH|].
    symmetry. apply String.eqb_neq. intros E. apply Hout.
    rewrite E. now apply in_map.
Qed.

Lemma get_by_unique_key (t : list R) (r : R) :
  NoDup (map key t) -> In r t ->
  Orm.get (fun x => String.eqb (key x) (key r)) t = Orm.Found r.
Proof.
  intros Hnd Hin. unfold Orm.get. now rewrite filter_unique_key.
Qed.

Lemma NoDup_map_snoc (t : list R) (r : R) :
  NoDup (map key t) ->
  (forall x, In x t -> String.eqb (key x) (key r) = false) ->
  NoDup (map key (t ++ [r])%list).
Proof.
  intros Hnd Hnew. rewrite map_app. simpl.
  apply NoDup_app; [exact Hnd | constructor; [intros [] | constructor] |].
  intros k Hk [<-|[]]. apply in_map_iff in Hk. destruct Hk as (x & E & Hx).
  specialize (Hnew x Hx). apply String.eqb_neq in Hnew. congruence.
Qed.

Lemma get_snoc_new (f : R -> bool) (t : list R) (r : R) :
  (forall x, In x t -> f x = false) -> f r = true ->
  Orm.get f (t ++ [r])%list = Orm.Found r.
Proof.
  intros Hold Hr. unfold Orm.get. rewrite filter_app, (filter_none f t Hold).
  simpl. now rewrite Hr.
Qed.
End UniqueColumn.

(* ------------------------------------------------------------------ *)
(** ** From issuing a tracking id to the hit that uses it *)

Section IssueAndHit.

Lemma create_click_tracking_new (env : Env) (now : datetime) (lead_id : uuid)
    (message_id url : string) (client_id : uuid) (db : DB) :
  Runs.click_draw_is_new env db = true ->
  EmailTracker.create_click_tracking env now lead_id message_id url client_id db
  = (EmailTracker.tracking_url_of env (token_urlsafe env (rng db)),
     with_clicks
       (fun t => (t ++ [mkEmailClickTracking (uuid4 env (S (rng db))) lead_id
                          message_id (token_urlsafe env (rng db)) url
                          0 None None now])%list)
       (tick (tick db))).
Proof.
  intros H. rewrite create_click_tracking_cases.
  unfold Runs.click_draw_is_new in H. apply negb_true_iff in H.
  cbv zeta. now rewrite H.
Qed.

Lemma click_draw_new_ids (env : Env) (db : DB) :
  Runs.click_draw_is_new env db = true ->
  forall x, In x (email_click_tracking db) ->
    String.eqb (ck_click_id x) (token_urlsafe env (rng db)) = false
    /\ String.eqb (ck_id x) (uuid4 env (S (rng db))) = false.
Proof.
  intros H x Hx. unfold Runs.click_draw_is_new in H.
  apply negb_true_iff in H.
  pose proof (existsb_false_in _ _ H x Hx) as E.
  now apply orb_false_elim in E.
Qed.

Lemma record_click_fst (env : Env) (now : datetime) (click_id : string)
    (user_agent ip_address : option string) (client_id : option uuid)
    (db : DB) (click : EmailClickTracking) :
  Orm.get (Runs.by_click_id click_id) (email_click_tracking db)
  = Orm.Found click ->
  ck_click_count click + 1 <= int4_max ->
  EmailTracker.event_row_ok env user_agent ip_address = true ->
  fst (EmailTracker.record_click env now click_id user_agent ip_address
         client_id db)
  = EmailTracker.mkClickResult true (ck_destination_url click).
Proof.
  intros H Hroom Hip.
  rewrite (record_click_found env now click_id user_agent ip_address client_id
             db click H Hroom).
  now rewrite Hip.
Qed.

Lemma prefix_split (p s : string) :
  String.prefix p s = true -> exists r, s = (p ++ r)%string.
Proof.
  revert s. induction p as [|a p IH]; intros s H.
  - exists s. reflexivity.
  - destruct s as [|b s]; simpl in H; [discriminate|].
    destruct (ascii_dec a b) as [<-|N]; [|discriminate].
    destruct (IH s H) as [r ->]. exists r. reflexivity.
Qed.

(** A web link passes the scheme test of [HttpResponseRedirect]. *)
Lemma web_link_redirect_allowed (url : string) :
  Py.startswith url "http://" = true \/ Py.startswith url "https://" = true ->
  Views.redirect_allowed url = true.
Proof.
  unfold Py.startswith.
  intros [H|H]; apply prefix_split in H; destruct H as [r ->]; reflexivity.
Qed.

(** A plain web link is answered by the redirect to it. *)
Lemma web_link_redirect_response (env : Env) (url : string) :
  Views.plain_url url = true ->
  Py.startswith url "http://" = true \/ Py.startswith url "https://" = true ->
  Views.redirect_response env url = Views.HttpResponseRedirect url.
Proof.
  intros Hplain Hweb. unfold Views.redirect_response.
  now rewrite Hplain, (web_link_redirect_allowed url Hweb).
Qed.

End IssueAndHit.

(** X1.  A click id issued by [create_click_tracking] for a plain web
    link (http or https, printable ASCII without square brackets, at
    most 2048 characters), when the drawn id and primary key are new, is
    the id inside the tracking URL that the method returns.  A later hit
    of the click endpoint on that id, from a request whose event row the
    database takes (its address and its user agent), is answered by
    [HttpResponseRedirect] of the link and appends one CLICK event that
    carries the link and the lead.  A hit from a request whose event row
    the database refuses is answered by the redirect to "/" and appends
    no event. *)
Theorem tracked_link_redirects_to_its_target
    (env : Env) (now later : datetime) (lead_id : uuid)
    (message_id url : string) (client_id : uuid)
    (request : Utils.HttpRequest) (db : DB) :
  Runs.click_draw_is_new env db = true ->
  Views.plain_url url = true ->
  Py.startswith url "http://" = true \/ Py.startswith url "https://" = true ->
  fst (EmailTracker.create_click_tracking env now lead_id message_id url
         client_id db)
  = EmailTracker.tracking_url_of env (token_urlsafe env (rng db))
  /\ (EmailTracker.event_row_ok env (Views.user_agent_of request)
            (Utils.get_client_ip request) = true ->
      fst (Views.track_click env later request (token_urlsafe env (rng db))
             (snd (EmailTracker.create_click_tracking env now lead_id
                     message_id url client_id db)))
      = Views.HttpResponseRedirect url
      /\ exists e,
           email_events
             (snd (Views.track_click env later request
                     (token_urlsafe env (rng db))
                     (snd (EmailTracker.create_click_tracking env now lead_id
                             message_id url client_id db))))
           = (email_events db ++ [e])%list
           /\ ev_event_type e = EV_CLICK
           /\ ev_url e = Some url
           /\ ev_lead_id e = lead_id)
  /\ (EmailTracker.event_row_ok env (Views.user_agent_of request)
            (Utils.get_client_ip request) = false ->
      fst (Views.track_click env later request (token_urlsafe env (rng db))
             (snd (EmailTracker.create_click_tracking env now lead_id
                     message_id url client_id db)))
      = Views.HttpResponseRedirect "/"
      /\ email_events
           (snd (Views.track_click env later request
                   (token_urlsafe env (rng db))
                   (snd (EmailTracker.create_click_tracking env now lead_id
                           message_id url client_id db))))
         = email_events db).
Proof.
  intros Hnew Hplain Hweb.
  rewrite (create_click_tracking_new _ _ _ _ _ _ _ Hnew).
  simpl fst. simpl snd. split; [reflexivity|].
  set (cid := token_urlsafe env (rng db)).
  set (row := mkEmailClickTracking _ _ _ _ _ _ _ _ _).
  set (db1 := with_clicks _ _).
  assert (Hget : Orm.get (Runs.by_click_id cid) (email_click_tracking db1)
                 = Orm.Found row).
  { subst db1. simpl. apply get_snoc_new.
    - intros x Hx. apply (click_draw_new_ids env db Hnew x Hx).
    - unfold Runs.by_click_id. simpl. apply String.eqb_refl. }
  assert (Hroom : ck_click_count row + 1 <= int4_max)
    by (intros H; discriminate H).
  destruct (record_click_tables env later cid (Views.user_agent_of request)
              (Utils.get_client_ip request) None db1 row Hget Hroom)
    as (Hr & _ & Hev).
  unfold Views.track_click.
  destruct (EmailTracker.record_click env later cid
              (Views.user_agent_of request) (Utils.get_client_ip request)
              None db1) as [r db2].
  simpl in Hr, Hev. subst r.
  unfold Runs.click_result, Runs.accepted. cbn [Runs.oc_ip_address Runs.oc_user_agent].
  split; intros Hip; rewrite Hip in *; cbn [EmailTracker.destination_url].
  - change (ck_destination_url row) with url.
    rewrite (web_link_redirect_response env url Hplain Hweb). simpl.
    split; [reflexivity|].
    rewrite Hev. eexists. split; [reflexivity|]. simpl. auto.
  - change (Views.redirect_response env "/")
      with (Views.HttpResponseRedirect "/"). simpl.
    split; [reflexivity|]. rewrite Hev. apply app_nil_r.
Qed.

Lemma tracked_link_redirects_to_its_target_witness :
  fst (EmailTracker.create_click_tracking Demo.env 1000 Demo.lead1 "message-2"
         "https://example.com/demo" Demo.client1 Demo.db_tracking)
  = "https://t.example.com/api/track/click/tok-0"
  /\ fst (Views.track_click Demo.env 2000 Demo.request "tok-0"
            (snd (EmailTracker.create_click_tracking Demo.env 1000 Demo.lead1
                    "message-2" "https://example.com/demo" Demo.client1
                    Demo.db_tracking)))
     = Views.HttpResponseRedirect "https://example.com/demo"
  /\ fst (Views.track_click Demo.env 2000 Demo.request_unknown "tok-0"
            (snd (EmailTracker.create_click_tracking Demo.env 1000 Demo.lead1
                    "message-2" "https://example.com/demo" Demo.client1
                    Demo.db_tracking)))
     = Views.HttpResponseRedirect "/".
Proof.
  destruct (tracked_link_redirects_to_its_target Demo.env 1000 2000 Demo.lead1
              "message-2" "https://example.com/demo" Demo.client1 Demo.request
              Demo.db_tracking eq_refl eq_refl (or_intror eq_refl))
    as (H1 & H2 & _).
  destruct (tracked_link_redirects_to_its_target Demo.env 1000 2000 Demo.lead1
              "message-2" "https://example.com/demo" Demo.client1
              Demo.request_unknown Demo.db_tracking eq_refl eq_refl
              (or_intror eq_refl)) as (_ & _ & H3).
  split; [exact H1|]. split.
  - exact (proj1 (H2 eq_refl)).
  - exact (proj1 (H3 eq_refl)).
Defined.

(* ------------------------------------------------------------------ *)
(** ** Every rewritten link leads back to its target *)

Section LinksLeadBack.

Lemma redirects_back_same (env : Env) (db' : DB) (tok : HtmlToken) :
  Runs.redirects_back env db' tok tok.
Proof. now left. Qed.

Lemma replace_links_loop_redirects (env : Env) (now : datetime)
    (lead_id : uuid) (message_id : string) (client_id : uuid)
    (soup : list HtmlToken) :
  forall tracked db,
    NoDup (map ck_click_id (email_click_tracking db)) ->
    NoDup (map ck_click_id
             (email_click_tracking
                (snd (EmailTracker.replace_links_loop env now lead_id
                        message_id client_id soup tracked db))))
    /\ (exists extra,
          email_click_tracking
            (snd (EmailTracker.replace_links_loop env now lead_id message_id
                    client_id soup tracked db))
          = (email_click_tracking db ++ extra)%list)
    /\ Forall2
         (Runs.redirects_back env
            (snd (EmailTracker.replace_links_loop env now lead_id message_id
                    client_id soup tracked db)))
         soup
         (fst (fst (EmailTracker.replace_links_loop env now lead_id message_id
                      client_id soup tracked db))).
Proof.
  induction soup as [|tok soup IH]; intros tracked db Hnd.
  - simpl. split; [exact Hnd|]. split; [exists []; now rewrite app_nil_r|].
    constructor.
  - simpl.
    destruct (EmailTracker.anchor_href tok) as [url|] eqn:Hhref.
    + destruct (EmailTracker.skipped url) eqn:Hskip.
      * specialize (IH tracked db Hnd).
        destruct (EmailTracker.replace_links_loop _ _ _ _ _ soup tracked db)
          as [[r t] d]. simpl in *.
        destruct IH as (I1 & I2 & I3). repeat split; auto.
        constructor; [apply redirects_back_same | exact I3].
      * rewrite create_click_tracking_cases. cbv zeta.
        destruct (existsb _ (email_click_tracking db)) eqn:Htaken.
        -- specialize (IH (Py.dict_set url url tracked) (tick (tick db)) Hnd).
           destruct (EmailTracker.replace_links_loop _ _ _ _ _ soup _
                       (tick (tick db))) as [[r t] d]. simpl in *.
           destruct IH as (I1 & I2 & I3). repeat split; auto.
           constructor; [|exact I3].
           rewrite (set_href_same _ _ Hhref). apply redirects_back_same.
        -- set (cid := token_urlsafe env (rng db)) in *.
           set (row := mkEmailClickTracking _ _ _ _ _ _ _ _ _).
           set (db1 := with_clicks _ _).
           assert (Hold : forall x, In x (email_click_tracking db) ->
                                    String.eqb (ck_click_id x) (ck_click_id row)
                                    = false).
           { intros x Hx. pose proof (existsb_false_in _ _ Htaken x Hx) as E.
             now apply orb_false_elim in E. }
           assert (Hnd1 : NoDup (map ck_click_id (email_click_tracking db1))).
           { subst db1. simpl. now apply NoDup_map_snoc. }
           specialize (IH (Py.dict_set url (EmailTracker.tracking_url_of env cid)
                             tracked) db1 Hnd1).
           destruct (EmailTracker.replace_links_loop _ _ _ _ _ soup _ db1)
             as [[r t] d]. simpl in *.
           destruct IH as (I1 & (extra & I2) & I3).
           split; [exact I1|]. split.
           { exists (row :: extra). rewrite I2. subst db1. simpl.
             now rewrite <- app_assoc. }
           constructor; [|exact I3].
           right. exists url, cid. split; [exact Hhref|]. split.
           { now apply (anchor_href_set_href _ _ _ Hhref). }
           intros now' ua ip c Hip.
           assert (Hin : In row (email_click_tracking d)).
           { rewrite I2. subst db1. simpl. apply in_or_app. left.
             apply in_or_app. right. now left. }
           pose proof (get_by_unique_key ck_click_id _ row I1 Hin) as Hget.
           assert (Hroom : ck_click_count row + 1 <= int4_max)
             by (intros H; discriminate H).
           exact (record_click_fst env now' cid ua ip c d row Hget Hroom Hip).
    + specialize (IH tracked db Hnd).
      destruct (EmailTracker.replace_links_loop _ _ _ _ _ soup tracked db)
        as [[r t] d]. simpl in *.
      destruct IH as (I1 & I2 & I3). repeat split; auto.
      constructor; [apply redirects_back_same | exact I3].
Qed.

End LinksLeadBack.

(** X2.  After [replace_links_with_tracking] has gone over a parsed
    document, with click ids unique in the table before, every token of
    the result is the token of the original at the same place, or it is
    that link with its [href] replaced by a tracking URL, and
    [record_click] on the click id of that URL, for every hit whose
    event row the database takes, returns the link's original target: no
    rewritten link loses its destination, and click ids stay unique. *)
Theorem rewritten_links_redirect_to_their_targets
    (env : Env) (now : datetime) (soup : list HtmlToken) (lead_id : uuid)
    (message_id : string) (client_id : uuid) (db : DB) :
  NoDup (map ck_click_id (email_click_tracking db)) ->
  Forall2
    (Runs.redirects_back env
       (snd (EmailTracker.replace_links_in_soup env now soup lead_id
               message_id client_id db)))
    soup
    (fst (fst (EmailTracker.replace_links_in_soup env now soup lead_id
                 message_id client_id db)))
  /\ NoDup (map ck_click_id
              (email_click_tracking
                 (snd (EmailTracker.replace_links_in_soup env now soup lead_id
                         message_id client_id db)))).
Proof.
  intros Hnd. unfold EmailTracker.replace_links_in_soup.
  destruct (replace_links_loop_redirects env now lead_id message_id client_id
              soup [] db Hnd) as (H1 & _ & H3).
  split; assumption.
Qed.

Lemma rewritten_links_redirect_to_their_targets_witness :
  Forall2
    (Runs.redirects_back Demo.env
       (snd (EmailTracker.replace_links_in_soup Demo.env 1000 Demo.body_soup
               Demo.lead1 "message-2" Demo.client1 Demo.db_tracking)))
    Demo.body_soup
    (fst (fst (EmailTracker.replace_links_in_soup Demo.env 1000 Demo.body_soup
                 Demo.lead1 "message-2" Demo.client1 Demo.db_tracking))).
Proof.
  assert (Hnd : NoDup (map ck_click_id (email_click_tracking Demo.db_tracking))).
  { simpl. constructor; [intros []|constructor]. }
  exact (proj1 (rewritten_links_redirect_to_their_targets Demo.env 1000
                  Demo.body_soup Demo.lead1 "message-2" Demo.client1
                  Demo.db_tracking Hnd)).
Defined.

(* ------------------------------------------------------------------ *)
(** ** Repeated clicks on one link *)

Section ClickCounting.
Context (env : Env).

Lemma after_click_fields (now : datetime) (click : EmailClickTracking) :
  ck_id (Runs.after_click now click) = ck_id click
  /\ ck_click_id (Runs.after_click now click) = ck_click_id click
  /\ ck_destination_url (Runs.after_click now click) = ck_destination_url click
  /\ ck_click_count (Runs.after_click now click) = ck_click_count click + 1
  /\ ck_last_clicked_at (Runs.after_click now click) = Some now.
Proof. unfold Runs.after_click; simpl. auto. Qed.

Lemma record_clicks_found (click_id : string) (calls : list Runs.OpenCall) :
  forall (db : DB) (click : EmailClickTracking),
    NoDup (map ck_id (email_click_tracking db)) ->
    Orm.get (Runs.by_click_id click_id) (email_click_tracking db)
    = Orm.Found click ->
    ck_click_count click + Z.of_nat (List.length calls) <= int4_max ->
    fst (Runs.record_clicks env click_id calls db)
    = map (Runs.click_result env click) calls
    /\ email_events (snd (Runs.record_clicks env click_id calls db))
       = (email_events db
          ++ map (Runs.click_event click)
               (filter (Runs.accepted env) calls))%list
    /\ Orm.get (Runs.by_click_id click_id)
         (email_click_tracking
            (snd (Runs.record_clicks env click_id calls db)))
       = Orm.Found (Runs.after_clicks click calls).
Proof.
  induction calls as [|c calls IH]; intros db click Hnd Hget Hroom.
  - simpl. rewrite app_nil_r. auto.
  - simpl List.length in Hroom. rewrite Nat2Z.inj_succ in Hroom.
    assert (Hroom1 : ck_click_count click + 1 <= int4_max) by lia.
    destruct (record_click_tables env (Runs.oc_now c) click_id
                (Runs.oc_user_agent c) (Runs.oc_ip_address c)
                (Runs.oc_client_id c) db click Hget Hroom1)
      as (Hr & Hck & Hev).
    simpl Runs.record_clicks.
    destruct (EmailTracker.record_click env (Runs.oc_now c) click_id
                (Runs.oc_user_agent c) (Runs.oc_ip_address c)
                (Runs.oc_client_id c) db) as [r db1].
    simpl in Hr, Hck, Hev.
    destruct (after_click_fields (Runs.oc_now c) click)
      as (Eid & Ecid & _ & Ecnt & _).
    destruct (get_found_in _ _ _ Hget) as [Hin Hp].
    assert (Hnd1 : NoDup (map ck_id (email_click_tracking db1))).
    { rewrite Hck. now rewrite (map_pk_save ck_id _ _ click Hin Eid). }
    assert (Hget1 : Orm.get (Runs.by_click_id click_id)
                      (email_click_tracking db1)
                    = Orm.Found (Runs.after_click (Runs.oc_now c) click)).
    { rewrite Hck. apply (get_save ck_id _ _ _ click Hnd Hget Eid).
      unfold Runs.by_click_id in *. now rewrite Ecid. }
    assert (Hroom2 : ck_click_count (Runs.after_click (Runs.oc_now c) click)
                     + Z.of_nat (List.length calls) <= int4_max)
      by (rewrite Ecnt; lia).
    destruct (IH db1 _ Hnd1 Hget1 Hroom2) as (Ir & Ie & Ig).
    destruct (Runs.record_clicks env click_id calls db1) as [rs db2].
    simpl in *. subst r rs. split; [|split].
    + destruct c; reflexivity.
    + rewrite Ie, Hev. unfold Runs.accepted at 2.
      destruct (EmailTracker.event_row_ok env (Runs.oc_user_agent c)
           (Runs.oc_ip_address c)); simpl.
      * rewrite <- app_assoc. simpl. destruct c; reflexivity.
      * now rewrite app_nil_r.
    + exact Ig.
Qed.

Lemma after_clicks_fields (calls : list Runs.OpenCall) :
  forall click,
    ck_click_count (Runs.after_clicks click calls)
    = ck_click_count click + Z.of_nat (List.length calls)
    /\ ck_destination_url (Runs.after_clicks click calls)
       = ck_destination_url click.
Proof.
  induction calls as [|c calls IH]; intros click.
  - simpl. split; [lia | reflexivity].
  - unfold Runs.after_clicks in *. simpl fold_left.
    destruct (IH (Runs.after_click (Runs.oc_now c) click)) as [E1 E2].
    rewrite E1, E2. simpl. split; [lia | reflexivity].
Qed.

Lemma after_clicks_counted (calls : list Runs.OpenCall) :
  forall click,
    0 < ck_click_count click ->
    ck_first_clicked_at (Runs.after_clicks click calls)
    = ck_first_clicked_at click.
Proof.
  induction calls as [|c calls IH]; intros click H; [reflexivity|].
  unfold Runs.after_clicks in *. simpl fold_left. rewrite IH.
  - simpl. destruct (ck_click_count click =? 0) eqn:E; [|reflexivity].
    apply Z.eqb_eq in E. lia.
  - simpl. lia.
Qed.

Lemma after_clicks_last (calls : list Runs.OpenCall) (c : Runs.OpenCall)
    (click : EmailClickTracking) :
  ck_last_clicked_at (Runs.after_clicks click (calls ++ [c])%list)
  = Some (Runs.oc_now c).
Proof. unfold Runs.after_clicks. rewrite fold_left_app. reflexivity. Qed.

End ClickCounting.

(** X3.  [record_click] called any number of times on the id of an
    existing click row, while [click_count] stays within its column,
    adds one to [click_count] per call.  A call whose event row the
    database takes (its address and its user agent) returns the row's
    destination URL with success and appends one CLICK event; a call
    whose event row it refuses is counted too, but returns "/" without
    success and appends no event.
    [first_clicked_at] is set by the call that finds [click_count] = 0
    and is kept by every call that finds a positive count;
    [last_clicked_at] is the instant of the last call. *)
Theorem record_click_counts_every_call
    (env : Env) (click_id : string) (db : DB) (click : EmailClickTracking)
    (calls : list Runs.OpenCall) :
  NoDup (map ck_id (email_click_tracking db)) ->
  Orm.get (Runs.by_click_id click_id) (email_click_tracking db)
  = Orm.Found click ->
  ck_click_count click + Z.of_nat (List.length calls) <= int4_max ->
  fst (Runs.record_clicks env click_id calls db)
  = map (Runs.click_result env click) calls
  /\ email_events (snd (Runs.record_clicks env click_id calls db))
     = (email_events db
        ++ map (Runs.click_event click)
             (filter (Runs.accepted env) calls))%list
  /\ exists click',
       Orm.get (Runs.by_click_id click_id)
         (email_click_tracking (snd (Runs.record_clicks env click_id calls db)))
       = Orm.Found click'
       /\ ck_click_count click'
          = ck_click_count click + Z.of_nat (List.length calls)
       /\ ck_destination_url click' = ck_destination_url click
       /\ (ck_click_count click = 0 ->
           forall c rest, calls = c :: rest ->
                          ck_first_clicked_at click' = Some (Runs.oc_now c))
       /\ (0 < ck_click_count click ->
           ck_first_clicked_at click' = ck_first_clicked_at click)
       /\ (forall earlier c, calls = (earlier ++ [c])%list ->
                             ck_last_clicked_at click' = Some (Runs.oc_now c)).
Proof.
  intros Hnd Hget Hroom.
  destruct (record_clicks_found env click_id calls db click Hnd Hget Hroom)
    as (Hr & He & Hg).
  split; [exact Hr|]. split; [exact He|].
  exists (Runs.after_clicks click calls).
  destruct (after_clicks_fields calls click) as [Ec Ed].
  split; [exact Hg|]. split; [exact Ec|]. split; [exact Ed|].
  split; [|split].
  - intros Hz c rest ->. unfold Runs.after_clicks. simpl fold_left.
    fold (Runs.after_clicks (Runs.after_click (Runs.oc_now c) click) rest).
    rewrite after_clicks_counted by (simpl; lia).
    simpl. now rewrite Hz.
  - apply after_clicks_counted.
  - intros earlier c ->. apply after_clicks_last.
Qed.

Lemma record_click_counts_every_call_witness :
  fst (Runs.record_clicks Demo.env "ck-1"
         [Demo.hit 100; Demo.hit_unknown 150; Demo.hit 200] Demo.db_tracking)
  = [EmailTracker.mkClickResult true "https://example.com/pricing";
     EmailTracker.mkClickResult false "/";
     EmailTracker.mkClickResult true "https://example.com/pricing"]
  /\ List.length
       (email_events
          (snd (Runs.record_clicks Demo.env "ck-1"
                  [Demo.hit 100; Demo.hit_unknown 150; Demo.hit 200]
                  Demo.db_tracking))) = 2%nat
  /\ exists click',
       Orm.get (Runs.by_click_id "ck-1")
         (email_click_tracking
            (snd (Runs.record_clicks Demo.env "ck-1"
                    [Demo.hit 100; Demo.hit_unknown 150; Demo.hit 200]
                    Demo.db_tracking)))
       = Orm.Found click'
       /\ ck_click_count click' = 3
       /\ ck_first_clicked_at click' = Some 100
       /\ ck_last_clicked_at click' = Some 200.
Proof.
  assert (Hnd : NoDup (map ck_id (email_click_tracking Demo.db_tracking))).
  { simpl. constructor; [intros []|constructor]. }
  assert (Hroom : ck_click_count Demo.click1
                  + Z.of_nat (List.length [Demo.hit 100; Demo.hit_unknown 150;
                                             Demo.hit 200]) <= int4_max)
    by (intros H; discriminate H).
  destruct (record_click_counts_every_call Demo.env "ck-1" Demo.db_tracking
              Demo.click1 [Demo.hit 100; Demo.hit_unknown 150; Demo.hit 200]
              Hnd eq_refl Hroom)
    as (Hr & He & click' & Hg & Hc & _ & Hf & _ & Hl).
  split; [exact Hr|]. split; [now rewrite He|].
  exists click'. split; [exact Hg|]. split; [exact Hc|]. split.
  - exact (Hf eq_refl (Demo.hit 100) [Demo.hit_unknown 150; Demo.hit 200]
             eq_refl).
  - exact (Hl [Demo.hit 100; Demo.hit_unknown 150] (Demo.hit 200) eq_refl).
Defined.

(* ------------------------------------------------------------------ *)
(** ** From issuing a pixel to its first open *)

(** X4.  A pixel issued by [create_tracking_pixel], when the drawn pixel
    id and primary key are new, has its id inside the URL that the method
    returns.  The first hit on that id leaves the pixel opened, with
    [open_count] 1 and [first_opened_at] at the instant of the hit;
    [record_open] returns true exactly when the database takes the
    event row of the hit (its address and its user agent).  When the
    draw is not new the method returns no URL and adds no row. *)
Theorem issued_pixel_records_its_first_open
    (env : Env) (now later : datetime) (lead_id : uuid) (message_id : string)
    (client_id : uuid) (user_agent ip_address : option string)
    (caller : option uuid) (db : DB) :
  NoDup (map px_id (email_tracking_pixels db)) ->
  (Runs.pixel_draw_is_new env db = true ->
   fst (EmailTracker.create_tracking_pixel env now lead_id message_id
          client_id db)
   = Some (TRACKING_PROTOCOL env ++ "://" ++ TRACKING_DOMAIN env
           ++ "/api/track/open/" ++ token_urlsafe env (rng db) ++ ".png")
   /\ fst (EmailTracker.record_open env later (token_urlsafe env (rng db))
             user_agent ip_address caller
             (snd (EmailTracker.create_tracking_pixel env now lead_id
                     message_id client_id db)))
      = EmailTracker.event_row_ok env user_agent ip_address
   /\ exists pixel',
        Orm.get (Runs.by_pixel_id (token_urlsafe env (rng db)))
          (email_tracking_pixels
             (snd (EmailTracker.record_open env later
                     (token_urlsafe env (rng db))
                     user_agent ip_address caller
                     (snd (EmailTracker.create_tracking_pixel env now lead_id
                             message_id client_id db)))))
        = Orm.Found pixel'
        /\ px_lead_id pixel' = lead_id
        /\ px_opened pixel' = true
        /\ px_open_count pixel' = 1
        /\ px_first_opened_at pixel' = Some later)
  /\ (Runs.pixel_draw_is_new env db = false ->
      fst (EmailTracker.create_tracking_pixel env now lead_id message_id
             client_id db) = None
      /\ email_tracking_pixels
           (snd (EmailTracker.create_tracking_pixel env now lead_id message_id
                   client_id db))
         = email_tracking_pixels db).
Proof.
  intros Hnd. unfold EmailTracker.create_tracking_pixel,
    EmailTracker.generate_pixel_id, EmailTracker.fresh_pk,
    Runs.pixel_draw_is_new.
  simpl. set (pid := token_urlsafe env (rng db)).
  destruct (existsb _ (email_tracking_pixels db)) eqn:Htaken; simpl.
  - split; [discriminate|]. intros _. split; reflexivity.
  - split; [|discriminate]. intros _. split; [reflexivity|].
    set (row := mkEmailTrackingPixel _ _ _ _ _ _ _ _ _).
    set (db1 := with_pixels _ _).
    assert (Hold : forall x, In x (email_tracking_pixels db) ->
                     String.eqb (px_pixel_id x) pid = false
                     /\ String.eqb (px_id x) (px_id row) = false).
    { intros x Hx. pose proof (existsb_false_in _ _ Htaken x Hx) as E.
      now apply orb_false_elim in E. }
    assert (Hget : Orm.get (Runs.by_pixel_id pid) (email_tracking_pixels db1)
                   = Orm.Found row).
    { subst db1. simpl. apply get_snoc_new.
      - intros x Hx. apply (Hold x Hx).
      - unfold Runs.by_pixel_id. simpl. apply String.eqb_refl. }
    assert (Hnd1 : NoDup (map px_id (email_tracking_pixels db1))).
    { subst db1. simpl. apply NoDup_map_snoc; [exact Hnd|].
      intros x Hx. apply (Hold x Hx). }
    assert (Hroom : px_open_count row + 1 <= int4_max)
      by (intros H; discriminate H).
    destruct (record_open_tables env later pid user_agent ip_address caller
                db1 row Hget Hroom) as (Hr & Hpx & _).
    split; [exact Hr|].
    exists (Runs.after_open later row). rewrite Hpx. split; [|simpl; auto].
    apply (get_save px_id _ _ _ row Hnd1 Hget); [reflexivity|].
    unfold Runs.by_pixel_id. simpl. apply String.eqb_refl.
Qed.

Lemma issued_pixel_records_its_first_open_witness :
  fst (EmailTracker.create_tracking_pixel Demo.env 1000 Demo.lead1 "message-2"
         Demo.client1 Demo.db_tracking)
  = Some "https://t.example.com/api/track/open/tok-0.png"
  /\ fst (EmailTracker.record_open Demo.env 2000 "tok-0" None
            (Some "203.0.113.7") None
            (snd (EmailTracker.create_tracking_pixel Demo.env 1000 Demo.lead1
                    "message-2" Demo.client1 Demo.db_tracking)))
     = true
  /\ fst (EmailTracker.record_open Demo.env 2000 "tok-0" None
            (Some "unknown") None
            (snd (EmailTracker.create_tracking_pixel Demo.env 1000 Demo.lead1
                    "message-2" Demo.client1 Demo.db_tracking)))
     = false.
Proof.
  assert (Hnd : NoDup (map px_id (email_tracking_pixels Demo.db_tracking))).
  { simpl. constructor; [intros []|constructor]. }
  destruct (issued_pixel_records_its_first_open Demo.env 1000 2000 Demo.lead1
              "message-2" Demo.client1 None (Some "203.0.113.7") None
              Demo.db_tracking Hnd) as [Hnew _].
  destruct (issued_pixel_records_its_first_open Demo.env 1000 2000 Demo.lead1
              "message-2" Demo.client1 None (Some "unknown") None
              Demo.db_tracking Hnd) as [Hnew' _].
  destruct (Hnew eq_refl) as (H1 & H2 & _).
  destruct (Hnew' eq_refl) as (_ & H3 & _).
  split; [exact H1|]. split; [exact H2 | exact H3].
Defined.

(* ------------------------------------------------------------------ *)
(** ** What a dispatcher cycle keeps true *)

Section CycleInvariants.

Lemma save_forall {R : Type} (pk : R -> uuid) (P : R -> Prop) (x : R)
    (t : list R) :
  Forall P t -> P x -> Forall P (Orm.save pk x t).
Proof.
  intros Ht Hx. unfold Orm.save. destruct (existsb _ t).
  - unfold Orm.update_where. apply Forall_forall. intros y Hy.
    apply in_map_iff in Hy. destruct Hy as (z & <- & Hz).
    destruct (String.eqb (pk z) (pk x)); [exact Hx|].
    now apply (proj1 (Forall_forall P t) Ht).
  - apply Forall_app. split; [exact Ht | now constructor].
Qed.

Lemma update_where_forall {R : Type} (P : R -> Prop) (Q : R -> bool)
    (f : R -> R) (t : list R) :
  Forall P t -> (forall x, In x t -> Q x = true -> P (f x)) ->
  Forall P (Orm.update_where Q f t).
Proof.
  intros Ht Hf. unfold Orm.update_where. apply Forall_forall. intros y Hy.
  apply in_map_iff in Hy. destruct Hy as (z & <- & Hz).
  destruct (Q z) eqn:E; [now apply Hf|].
  now apply (proj1 (Forall_forall P t) Ht).
Qed.

(** The queue after one turn of the loop, by its outcome. *)
Lemma process_email_queue_rows (env : Env) (now : datetime)
    (email : EmailSendQueue) (db : DB) :
  match fst (Tasks.process_email env now email db) with
  | Tasks.Skipped =>
      email_send_queue (snd (Tasks.process_email env now email db))
      = email_send_queue db
  | Tasks.Sent =>
      exists email',
        q_status email' = SENT /\ q_attempts email' = q_attempts email
        /\ q_max_attempts email' = q_max_attempts email
        /\ email_send_queue (snd (Tasks.process_email env now email db))
           = Orm.save q_id email'
               (Orm.save q_id (Tasks.set_status SENDING email)
                  (email_send_queue db))
  | Tasks.Failed =>
      exists e,
        email_send_queue (snd (Tasks.process_email env now email db))
        = Orm.save q_id (Runs.failed_row now e email)
            (Orm.save q_id (Tasks.set_status SENDING email)
               (email_send_queue db))
  end.
Proof.
  unfold Tasks.process_email.
  pose proof (check_client_daily_limit_frame now (q_client_id email) db) as Hc.
  destruct (Tasks.check_client_daily_limit now (q_client_id email) db)
    as [under db0]. simpl in Hc. destruct Hc as (_ & C2 & _).
  destruct under; simpl; [|exact C2].
  destruct (Tasks.deliver env now (Tasks.set_status SENDING email) _)
    as [[email2|e] db2] eqn:Hd; simpl.
  - destruct (deliver_ok _ _ _ _ _ _ Hd)
      as (token & message_id & thread_id & dbm & _ & D1 & _ & _ & _ & Hs).
    exists email2.
    unfold Tasks.on_success in Hs. inversion Hs; subst. clear Hs.
    simpl in D1. simpl. rewrite D1, C2. repeat split; reflexivity.
  - destruct (deliver_raise _ _ _ _ _ _ Hd) as (D1 & _).
    simpl in D1. exists e. unfold Tasks.on_exception. simpl.
    rewrite D1, C2. reflexivity.
Qed.

Lemma failed_row_in_bounds (now : datetime) (e : Exn) (email : EmailSendQueue) :
  q_attempts email < q_max_attempts email ->
  Runs.attempts_in_bounds (Runs.failed_row now e email).
Proof.
  intros H. unfold Runs.attempts_in_bounds, Runs.failed_row.
  destruct (q_max_attempts email <=? q_attempts email + 1) eqn:E; simpl;
    [apply Z.leb_le in E | apply Z.leb_gt in E].
  - split; [lia | discriminate].
  - split; [lia | intros _; lia].
Qed.

Lemma process_email_in_bounds (env : Env) (now : datetime)
    (email : EmailSendQueue) (db : DB) :
  q_attempts email < q_max_attempts email ->
  Forall Runs.attempts_in_bounds (email_send_queue db) ->
  Forall Runs.attempts_in_bounds
    (email_send_queue (snd (Tasks.process_email env now email db))).
Proof.
  intros Hlt Hq.
  assert (Hclaimed : Forall Runs.attempts_in_bounds
                       (Orm.save q_id (Tasks.set_status SENDING email)
                          (email_send_queue db))).
  { apply save_forall; [exact Hq|].
    unfold Runs.attempts_in_bounds; simpl. split; [lia | discriminate]. }
  pose proof (process_email_queue_rows env now email db) as H.
  destruct (fst (Tasks.process_email env now email db)).
  - now rewrite H.
  - destruct H as (email' & Hs & Ha & Hm & ->).
    apply save_forall; [exact Hclaimed|].
    unfold Runs.attempts_in_bounds. rewrite Hs, Ha, Hm.
    split; [lia | discriminate].
  - destruct H as (e & ->).
    apply save_forall; [exact Hclaimed|]. now apply failed_row_in_bounds.
Qed.

Lemma process_batch_in_bounds (env : Env) (now : datetime)
    (batch : list EmailSendQueue) :
  forall counts db,
    (forall j, In j batch -> q_attempts j < q_max_attempts j) ->
    Forall Runs.attempts_in_bounds (email_send_queue db) ->
    Forall Runs.attempts_in_bounds
      (email_send_queue (snd (Tasks.process_batch env now batch counts db))).
Proof.
  induction batch as [|email rest IH]; intros counts db Hb Hq; simpl;
    [exact Hq|].
  pose proof (process_email_in_bounds env now email db
                (Hb email (or_introl eq_refl)) Hq) as H.
  destruct (Tasks.process_email env now email db) as [o db1]. simpl in H.
  apply IH; [|exact H]. intros j Hj. apply Hb. now right.
Qed.

End CycleInvariants.

(** X5.  If every job of the queue has [attempts] at most [max_attempts]
    and every PENDING job has an attempt left, the same holds after a
    whole dispatcher cycle, whatever the cycle sent and whatever failed:
    the retry counter never passes its bound, and the cycle never leaves
    a job PENDING with its attempts used up. *)
Theorem cycle_keeps_attempts_in_bounds
    (env : Env) (now : datetime) (db : DB) :
  Forall Runs.attempts_in_bounds (email_send_queue db) ->
  Forall Runs.attempts_in_bounds
    (email_send_queue (snd (Tasks.process_email_queue env now db))).
Proof.
  intros Hq. unfold Tasks.process_email_queue.
  apply process_batch_in_bounds; [|exact Hq].
  intros j Hj. apply ready_emails_in in Hj. destruct Hj as (Hin & Hs & _).
  apply (proj1 (Forall_forall _ _) Hq j Hin). exact Hs.
Qed.

Lemma cycle_keeps_attempts_in_bounds_witness :
  Forall Runs.attempts_in_bounds
    (email_send_queue
       (snd (Tasks.process_email_queue Demo.env_down 1000 Demo.db_one_job))).
Proof.
  apply (cycle_keeps_attempts_in_bounds Demo.env_down 1000 Demo.db_one_job).
  constructor; [|constructor].
  unfold Runs.attempts_in_bounds; simpl. split; [lia | intros _; lia].
Defined.

(* ------------------------------------------------------------------ *)
(** ** The tenant's daily limit *)

Section DailyLimit.

Lemma find_unique (client_id : uuid) (t : list ClientRow) (row : ClientRow) :
  NoDup (map cl_id t) ->
  find (fun c => String.eqb (cl_id c) client_id) t = Some row ->
  forall x, In x t -> String.eqb (cl_id x) client_id = true -> x = row.
Proof.
  induction t as [|y t IH]; intros Hnd Hf x Hx Hid; [destruct Hx|].
  inversion Hnd as [|? ? Hout Hnd']; subst. simpl in Hf.
  destruct (String.eqb (cl_id y) client_id) eqn:E.
  - inversion Hf; subst. destruct Hx as [->|Hx]; [reflexivity|].
    exfalso. apply Hout. apply String.eqb_eq in E, Hid.
    rewrite E, <- Hid. now apply in_map.
  - destruct Hx as [->|Hx]; [congruence|]. now apply IH.
Qed.

(** The tenant table after the check, and what a passed check says about
    the tenant's rows. *)
Lemma check_client_daily_limit_room (now : datetime) (client_id : uuid)
    (db : DB) :
  NoDup (map cl_id (clients db)) ->
  Forall Runs.within_daily_limit (clients db) ->
  NoDup (map cl_id
           (clients (snd (Tasks.check_client_daily_limit now client_id db))))
  /\ Forall Runs.within_daily_limit
       (clients (snd (Tasks.check_client_daily_limit now client_id db)))
  /\ (fst (Tasks.check_client_daily_limit now client_id db) = true ->
      forall x,
        In x (clients (snd (Tasks.check_client_daily_limit now client_id db))) ->
        String.eqb (cl_id x) client_id = true ->
        cl_emails_sent_today x + 1 <= cl_gmail_daily_limit x).
Proof.
  intros Hnd Hin. unfold Tasks.check_client_daily_limit.
  destruct (find _ (clients db)) as [row|] eqn:Hf; simpl.
  - destruct (cl_last_reset_date row <? Tasks.date_of now); simpl.
    + split; [|split].
      * rewrite map_pk_update_where; [exact Hnd | reflexivity].
      * apply update_where_forall; [exact Hin|].
        intros x Hx _. apply (proj1 (Forall_forall _ _) Hin) in Hx.
        unfold Runs.within_daily_limit in *. simpl. lia.
      * intros _ x Hx Hid. unfold Orm.update_where in Hx.
        apply in_map_iff in Hx. destruct Hx as (z & <- & Hz).
        apply (proj1 (Forall_forall _ _) Hin) in Hz.
        unfold Runs.within_daily_limit in Hz.
        destruct (String.eqb (cl_id z) client_id) eqn:E; simpl in *;
          [lia | congruence].
    + split; [exact Hnd|]. split; [exact Hin|].
      intros Hlt x Hx Hid. apply Z.ltb_lt in Hlt.
      rewrite (find_unique client_id _ row Hnd Hf x Hx Hid). lia.
  - split; [exact Hnd|]. split; [exact Hin|]. discriminate.
Qed.

(** The tenant table after one turn of the loop, by its outcome. *)
Lemma process_email_clients (env : Env) (now : datetime)
    (email : EmailSendQueue) (db : DB) :
  clients (snd (Tasks.process_email env now email db))
  = match fst (Tasks.process_email env now email db) with
    | Tasks.Sent =>
        clients (Tasks.increment_client_daily_counter (q_client_id email)
                   (snd (Tasks.check_client_daily_limit now
                           (q_client_id email) db)))
    | _ => clients (snd (Tasks.check_client_daily_limit now
                           (q_client_id email) db))
    end
  /\ (fst (Tasks.process_email env now email db) <> Tasks.Skipped ->
      fst (Tasks.check_client_daily_limit now (q_client_id email) db) = true).
Proof.
  unfold Tasks.process_email.
  destruct (Tasks.check_client_daily_limit now (q_client_id email) db)
    as [under db0].
  destruct under; simpl; [|split; [reflexivity | congruence]].
  destruct (Tasks.deliver env now (Tasks.set_status SENDING email) _)
    as [[email2|e] db2] eqn:Hd; simpl.
  - destruct (deliver_ok _ _ _ _ _ _ Hd)
      as (token & message_id & thread_id & dbm & _ & _ & _ & D3 & _ & Hs).
    unfold Tasks.on_success in Hs. inversion Hs; subst. clear Hs.
    simpl in D3. simpl. rewrite D3. split; reflexivity.
  - destruct (deliver_raise _ _ _ _ _ _ Hd) as (_ & _ & D3 & _).
    simpl in D3. rewrite D3. split; reflexivity.
Qed.

Lemma process_email_within_limit (env : Env) (now : datetime)
    (email : EmailSendQueue) (db : DB) :
  NoDup (map cl_id (clients db)) ->
  Forall Runs.within_daily_limit (clients db) ->
  NoDup (map cl_id (clients (snd (Tasks.process_email env now email db))))
  /\ Forall Runs.within_daily_limit
       (clients (snd (Tasks.process_email env now email db))).
Proof.
  intros Hnd Hin.
  destruct (check_client_daily_limit_room now (q_client_id email) db Hnd Hin)
    as (Hnd0 & Hin0 & Hroom).
  destruct (process_email_clients env now email db) as [E Hpass].
  rewrite E. clear E.
  destruct (fst (Tasks.process_email env now email db));
    try (split; assumption).
  unfold Tasks.increment_client_daily_counter. simpl. split.
  - rewrite map_pk_update_where; [exact Hnd0 | reflexivity].
  - apply update_where_forall; [exact Hin0|].
    intros x Hx Hid.
    assert (Hp : fst (Tasks.check_client_daily_limit now (q_client_id email) db)
                 = true) by (apply Hpass; discriminate).
    pose proof (Hroom Hp x Hx Hid) as Hr.
    apply (proj1 (Forall_forall _ _) Hin0) in Hx.
    unfold Runs.within_daily_limit in *. simpl. lia.
Qed.

Lemma process_batch_within_limit (env : Env) (now : datetime)
    (batch : list EmailSendQueue) :
  forall counts db,
    NoDup (map cl_id (clients db)) ->
    Forall Runs.within_daily_limit (clients db) ->
    NoDup (map cl_id
             (clients (snd (Tasks.process_batch env now batch counts db))))
    /\ Forall Runs.within_daily_limit
         (clients (snd (Tasks.process_batch env now batch counts db))).
Proof.
  induction batch as [|email rest IH]; intros counts db Hnd Hin; simpl;
    [split; assumption|].
  pose proof (process_email_within_limit env now email db Hnd Hin) as H.
  destruct (Tasks.process_email env now email db) as [o db1]. simpl in H.
  destruct H as [Hnd1 Hin1]. now apply IH.
Qed.

(** A job whose tenant does not pass the check is left alone. *)
Lemma process_email_blocked (env : Env) (now : datetime)
    (email : EmailSendQueue) (db : DB) :
  fst (Tasks.check_client_daily_limit now (q_client_id email) db) = false ->
  Tasks.process_email env now email db = (Tasks.Skipped, db).
Proof.
  unfold Tasks.process_email, Tasks.check_client_daily_limit.
  destruct (find _ (clients db)) as [row|]; simpl; [|reflexivity].
  destruct (cl_last_reset_date row <? Tasks.date_of now); simpl;
    [discriminate|].
  intros ->. reflexivity.
Qed.

Lemma process_batch_blocked (env : Env) (now : datetime)
    (batch : list EmailSendQueue) (counts : Tasks.Counts) (db : DB) :
  (forall j, In j batch ->
     fst (Tasks.check_client_daily_limit now (q_client_id j) db) = false) ->
  Tasks.process_batch env now batch counts db = (counts, db).
Proof.
  induction batch as [|email rest IH]; intros H; simpl; [reflexivity|].
  rewrite (process_email_blocked env now email db (H email (or_introl eq_refl))).
  apply IH. intros j Hj. apply H. now right.
Qed.

End DailyLimit.

(** X6.  With tenant ids unique and every tenant having a daily limit of
    at least 1 and [emails_sent_today] at most that limit, a whole
    dispatcher cycle leaves every tenant's [emails_sent_today] at most its
    limit: the cycle stops sending for a tenant when the counter reaches
    the limit, also inside one batch, and the reset of a new day starts
    again from 0. *)
Theorem cycle_respects_client_daily_limit
    (env : Env) (now : datetime) (db : DB) :
  NoDup (map cl_id (clients db)) ->
  Forall Runs.within_daily_limit (clients db) ->
  Forall Runs.within_daily_limit
    (clients (snd (Tasks.process_email_queue env now db)))
  /\ map cl_id (clients (snd (Tasks.process_email_queue env now db)))
     = map cl_id (clients db).
Proof.
  intros Hnd Hin. unfold Tasks.process_email_queue. split.
  - apply process_batch_within_limit; assumption.
  - generalize (Tasks.mkCounts 0 0). generalize db at 2 3.
    induction (Tasks.ready_emails now db) as [|email rest IH];
      intros d counts; simpl; [reflexivity|].
    destruct (process_email_clients env now email d) as [E _].
    destruct (Tasks.process_email env now email d) as [o d1]. simpl in E.
    rewrite IH, E.
    assert (Hc : map cl_id
                   (clients (snd (Tasks.check_client_daily_limit now
                                    (q_client_id email) d)))
                 = map cl_id (clients d)).
    { unfold Tasks.check_client_daily_limit.
      destruct (find _ (clients d)) as [row|]; simpl; [|reflexivity].
      destruct (cl_last_reset_date row <? Tasks.date_of now); simpl;
        [|reflexivity].
      now apply map_pk_update_where. }
    destruct o; try exact Hc.
    unfold Tasks.increment_client_daily_counter. simpl.
    rewrite map_pk_update_where; [exact Hc | reflexivity].
Qed.

Lemma cycle_respects_client_daily_limit_witness :
  Forall Runs.within_daily_limit
    (clients (snd (Tasks.process_email_queue Demo.env 1000 Demo.db_one_job))).
Proof.
  apply (cycle_respects_client_daily_limit Demo.env 1000 Demo.db_one_job).
  - simpl. constructor; [intros []|constructor].
  - constructor; [|constructor].
    unfold Runs.within_daily_limit; simpl. lia.
Defined.

(** X7.  When no tenant of the jobs that are due passes the daily-limit
    check (the tenant is unknown, or its counter of the day has reached
    its limit), a dispatcher cycle reports 0 sent and 0 failed and leaves
    the whole database as it was: the jobs stay PENDING, no attempt is
    counted and no event is logged. *)
Theorem cycle_leaves_blocked_jobs_queued
    (env : Env) (now : datetime) (db : DB) :
  (forall j, In j (Tasks.ready_emails now db) ->
     fst (Tasks.check_client_daily_limit now (q_client_id j) db) = false) ->
  Tasks.process_email_queue env now db = (Tasks.mkCounts 0 0, db).
Proof.
  intros H. unfold Tasks.process_email_queue. now apply process_batch_blocked.
Qed.

Lemma cycle_leaves_blocked_jobs_queued_witness :
  Tasks.ready_emails 1000 Demo.db_capped = [Demo.job1]
  /\ Tasks.process_email_queue Demo.env 1000 Demo.db_capped
     = (Tasks.mkCounts 0 0, Demo.db_capped).
Proof.
  split; [reflexivity|].
  apply (cycle_leaves_blocked_jobs_queued Demo.env 1000 Demo.db_capped).
  intros j Hj. destruct Hj as [<-|[]]. reflexivity.
Defined.

(* ------------------------------------------------------------------ *)
(** ** What a cycle reports and what it logs *)

Section CycleCounts.

Lemma process_email_events (env : Env) (now : datetime)
    (email : EmailSendQueue) (db : DB) :
  exists new,
    email_events (snd (Tasks.process_email env now email db))
    = (email_events db ++ new)%list
    /\ Forall Runs.is_sent_event new
    /\ List.length new
       = match fst (Tasks.process_email env now email db) with
         | Tasks.Sent => 1%nat
         | _ => 0%nat
         end.
Proof.
  unfold Tasks.process_email.
  pose proof (check_client_daily_limit_frame now (q_client_id email) db) as Hc.
  destruct (Tasks.check_client_daily_limit now (q_client_id email) db)
    as [under db0]. simpl in Hc. destruct Hc as (C1 & _ & _).
  destruct under; simpl.
  - destruct (Tasks.deliver env now (Tasks.set_status SENDING email) _)
      as [[email2|e] db2] eqn:Hd; simpl.
    + destruct (deliver_ok _ _ _ _ _ _ Hd)
        as (token & message_id & thread_id & dbm & _ & _ & D2 & _ & _ & Hs).
      unfold Tasks.on_success in Hs. inversion Hs; subst. clear Hs.
      simpl in D2. simpl. rewrite D2, C1.
      eexists. split; [reflexivity|]. split; [|reflexivity].
      constructor; [reflexivity | constructor].
    + destruct (deliver_raise _ _ _ _ _ _ Hd) as (_ & D2 & _).
      simpl in D2. rewrite D2, C1. exists []. rewrite app_nil_r.
      split; [reflexivity|]. split; [constructor | reflexivity].
  - exists []. rewrite app_nil_r, C1.
    split; [reflexivity|]. split; [constructor | reflexivity].
Qed.

Lemma process_batch_counts (env : Env) (now : datetime)
    (batch : list EmailSendQueue) :
  forall counts db,
    exists new,
      email_events (snd (Tasks.process_batch env now batch counts db))
      = (email_events db ++ new)%list
      /\ Forall Runs.is_sent_event new
      /\ Tasks.sent (fst (Tasks.process_batch env now batch counts db))
         = Tasks.sent counts + Z.of_nat (List.length new)
      /\ Tasks.failed counts
         <= Tasks.failed (fst (Tasks.process_batch env now batch counts db))
      /\ Z.of_nat (List.length new)
         + (Tasks.failed (fst (Tasks.process_batch env now batch counts db))
            - Tasks.failed counts)
         <= Z.of_nat (List.length batch).
Proof.
  induction batch as [|email rest IH]; intros counts db.
  - exists []. simpl. rewrite app_nil_r. repeat split; try lia. constructor.
  - simpl.
    destruct (process_email_events env now email db) as (new1 & E1 & F1 & L1).
    destruct (Tasks.process_email env now email db) as [o db1].
    simpl in E1, L1.
    match goal with
    | |- context [Tasks.process_batch env now rest ?c db1] =>
        destruct (IH c db1) as (new2 & E2 & F2 & S2 & Fl2 & B2);
        set (r := Tasks.process_batch env now rest c db1) in *
    end.
    exists (new1 ++ new2)%list.
    rewrite E2, E1, <- app_assoc. split; [reflexivity|].
    split; [apply Forall_app; split; assumption|].
    rewrite length_app, Nat2Z.inj_add.
    destruct o; simpl in S2, Fl2, B2; lia.
Qed.

End CycleCounts.

(** X8.  A dispatcher cycle handles at most 100 jobs: the two counters it
    returns are not negative and add up to at most 100.  The events it
    appends to the log are all of type SENT, in number equal to the
    [sent] counter, and the events that were there before are kept in
    place. *)
Theorem cycle_logs_one_event_per_sent_job
    (env : Env) (now : datetime) (db : DB) :
  0 <= Tasks.sent (fst (Tasks.process_email_queue env now db))
  /\ 0 <= Tasks.failed (fst (Tasks.process_email_queue env now db))
  /\ Tasks.sent (fst (Tasks.process_email_queue env now db))
     + Tasks.failed (fst (Tasks.process_email_queue env now db)) <= 100
  /\ exists new,
       email_events (snd (Tasks.process_email_queue env now db))
       = (email_events db ++ new)%list
       /\ Forall (fun e => ev_event_type e = EV_SENT) new
       /\ Z.of_nat (List.length new)
          = Tasks.sent (fst (Tasks.process_email_queue env now db)).
Proof.
  unfold Tasks.process_email_queue.
  destruct (process_batch_counts env now (Tasks.ready_emails now db)
              (Tasks.mkCounts 0 0) db) as (new & E & F & S & Fl & B).
  simpl in S, Fl, B.
  assert (Hlen : (List.length (Tasks.ready_emails now db) <= 100)%nat)
    by (unfold Tasks.ready_emails; apply firstn_le_length).
  repeat split; try lia.
  exists new. repeat split; [exact E | exact F | lia].
Qed.

(* ------------------------------------------------------------------ *)
(** ** The batch of a cycle *)

Section OrderedQueryset.
Context {R : Type} (le : R -> R -> bool).
Hypothesis le_total : forall a b, le a b = false -> le b a = true.
Hypothesis le_trans :
  forall a b c, le a b = true -> le b c = true -> le a c = true.

Lemma insert_sorted_sorted (x : R) (t : list R) :
  StronglySorted (fun a b => le a b = true) t ->
  StronglySorted (fun a b => le a b = true) (Orm.insert_sorted le x t).
Proof.
  induction t as [|y t IH]; intros Hs; simpl.
  - constructor; constructor.
  - inversion Hs as [|? ? Hs' Hy]; subst.
    destruct (le x y) eqn:E.
    + constructor; [exact Hs|]. constructor; [exact E|].
      apply Forall_forall. intros z Hz.
      apply le_trans with y; [exact E|].
      now apply (proj1 (Forall_forall _ _) Hy).
    + constructor; [now apply IH|].
      apply Forall_forall. intros z Hz.
      apply insert_sorted_in in Hz. destruct Hz as [->|Hz].
      * now apply le_total.
      * now apply (proj1 (Forall_forall _ _) Hy).
Qed.

Lemma order_by_sorted (t : list R) :
  StronglySorted (fun a b => le a b = true) (Orm.order_by le t).
Proof.
  induction t as [|x t IH]; simpl; [constructor|].
  now apply insert_sorted_sorted.
Qed.

Lemma sorted_app_le (a b : list R) :
  StronglySorted (fun x y => le x y = true) (a ++ b)%list ->
  forall x y, In x a -> In y b -> le x y = true.
Proof.
  induction a as [|z a IH]; intros Hs x y Hx Hy; [destruct Hx|].
  simpl in Hs. inversion Hs as [|? ? Hs' Hz]; subst.
  destruct Hx as [->|Hx]; [|now apply IH].
  apply (proj1 (Forall_forall _ _) Hz). apply in_or_app. now right.
Qed.

Lemma sorted_firstn (n : nat) (t : list R) :
  StronglySorted (fun x y => le x y = true) t ->
  StronglySorted (fun x y => le x y = true) (firstn n t).
Proof.
  revert t. induction n as [|n IH]; intros [|x t] Hs; simpl;
    try constructor.
  - apply IH. now inversion Hs.
  - inversion Hs as [|? ? _ Hx]; subst.
    apply Forall_forall. intros z Hz. apply in_firstn in Hz.
    now apply (proj1 (Forall_forall _ _) Hx).
Qed.
End OrderedQueryset.

Lemma in_firstn_or_skipn {A : Type} (n : nat) (l : list A) (x : A) :
  In x l -> In x (firstn n l) \/ In x (skipn n l).
Proof.
  intros H. rewrite <- (firstn_skipn n l) in H. now apply in_app_or.
Qed.

(** X9.  The batch that a dispatcher cycle reads has at most 100 jobs,
    every one of them a row of the queue that is PENDING and due; the
    batch is in ascending order of [scheduled_for]; and a due PENDING job
    that is left out of the batch is scheduled no earlier than any job of
    the batch, so the oldest due jobs are always served first. *)
Theorem batch_is_the_oldest_due_jobs (now : datetime) (db : DB) :
  (List.length (Tasks.ready_emails now db) <= 100)%nat
  /\ (forall j, In j (Tasks.ready_emails now db) ->
        In j (email_send_queue db)
        /\ q_status j = PENDING /\ q_scheduled_for j <= now)
  /\ StronglySorted (fun a b => q_scheduled_for a <= q_scheduled_for b)
       (Tasks.ready_emails now db)
  /\ (forall j k,
        In j (Tasks.ready_emails now db) ->
        In k (email_send_queue db) ->
        Tasks.is_ready now k = true ->
        ~ In k (Tasks.ready_emails now db) ->
        q_scheduled_for j <= q_scheduled_for k).
Proof.
  set (le := fun a b : EmailSendQueue =>
               q_scheduled_for a <=? q_scheduled_for b).
  assert (Htot : forall a b, le a b = false -> le b a = true).
  { intros a b H. apply Z.leb_le. apply Z.leb_gt in H. lia. }
  assert (Htrans : forall a b c,
             le a b = true -> le b c = true -> le a c = true).
  { intros a b c H1 H2. apply Z.leb_le. apply Z.leb_le in H1, H2. lia. }
  pose proof (order_by_sorted le Htot Htrans
                (filter (Tasks.is_ready now) (email_send_queue db))) as Hs.
  split; [unfold Tasks.ready_emails; apply firstn_le_length|].
  split; [apply ready_emails_in|]. split.
  - unfold Tasks.ready_emails. fold le.
    apply (sorted_firstn le 100) in Hs.
    induction Hs as [|x l Hl IH Hx]; constructor; [exact IH|].
    apply Forall_forall. intros z Hz. apply Z.leb_le.
    now apply (proj1 (Forall_forall _ _) Hx).
  - intros j k Hj Hk Hready Hout. unfold Tasks.ready_emails in *.
    fold le in Hj, Hout.
    assert (Hkin : In k (Orm.order_by le
                           (filter (Tasks.is_ready now) (email_send_queue db))))
      by (apply order_by_in; apply filter_In; auto).
    destruct (in_firstn_or_skipn 100 _ _ Hkin) as [Hk1|Hk2];
      [contradiction|].
    rewrite <- (firstn_skipn 100) in Hs.
    apply Z.leb_le. exact (sorted_app_le le _ _ Hs j k Hj Hk2).
Qed.

(* ------------------------------------------------------------------ *)
(** ** The first assignment of a lead *)

Section FirstAssignment.

Lemma filter_unique {R K : Type} (key : R -> K) (P : R -> bool)
    (t : list R) (r : R) :
  NoDup (map key t) -> In r t -> P r = true ->
  (forall y, In y t -> P y = true -> key y = key r) ->
  filter P t = [r].
Proof.
  induction t as [|x t IH]; intros Hnd Hin Hr Hkey; [destruct Hin|].
  inversion Hnd as [|? ? Hout Hnd']; subst. simpl.
  destruct Hin as [->|Hin].
  - rewrite Hr. f_equal. apply filter_none. intros y Hy.
    destruct (P y) eqn:E; [|reflexivity].
    exfalso. apply Hout. rewrite <- (Hkey y (or_intror Hy) E).
    now apply in_map.
  - destruct (P x) eqn:E.
    + exfalso. apply Hout. rewrite (Hkey x (or_introl eq_refl) E).
      now apply in_map.
    + apply IH; auto. intros y Hy. apply Hkey. now right.
Qed.

Lemma filter_update_where {R : Type} (P Q : R -> bool) (f : R -> R)
    (t : list R) :
  (forall x, P (f x) = P x) ->
  filter P (Orm.update_where Q f t) = Orm.update_where Q f (filter P t).
Proof.
  intros Hf. induction t as [|x t IH]; simpl; [reflexivity|].
  destruct (Q x) eqn:E.
  - rewrite Hf. destruct (P x); simpl; [rewrite E|]; now rewrite IH.
  - destruct (P x); simpl; [rewrite E|]; now rewrite IH.
Qed.

(** The mailbox just handed out by [get_next_mailbox_token] is the one
    that a lookup by its address finds afterwards. *)
Lemma get_mailbox_after_use (now : datetime) (client_id : uuid)
    (tokens : list GmailToken) (t0 : GmailToken) :
  NoDup (map Runs.mailbox_key tokens) ->
  In t0 tokens ->
  Utils.is_active_token_of client_id t0 = true ->
  Orm.get (Utils.is_active_mailbox (tk_email_address t0) client_id)
    (Orm.update_where (fun t => String.eqb (tk_id t) (tk_id t0))
       (fun t => Utils.set_last_used_at t now) tokens)
  = Orm.Found (Utils.set_last_used_at t0 now).
Proof.
  intros Hnd Hin Hact. unfold Orm.get.
  rewrite filter_update_where by reflexivity.
  unfold Utils.is_active_token_of in Hact.
  apply andb_prop in Hact. destruct Hact as [Hc Hs].
  rewrite (filter_unique Runs.mailbox_key _ tokens t0 Hnd Hin).
  - simpl. now rewrite String.eqb_refl.
  - unfold Utils.is_active_mailbox. now rewrite String.eqb_refl, Hc, Hs.
  - intros y _ Hy. unfold Utils.is_active_mailbox in Hy.
    apply andb_prop in Hy. destruct Hy as [Hy _].
    apply andb_prop in Hy. destruct Hy as [He Hcy].
    apply String.eqb_eq in He, Hcy, Hc.
    unfold Runs.mailbox_key. congruence.
Qed.

End FirstAssignment.

(** X10.  When a lead without an active assignment gets its mailbox from
    [get_or_assign_mailbox_for_lead], with mailboxes unique per tenant
    and address, every later call for that lead returns that same mailbox
    row, and the assignment created by the first call counts the uses:
    [email_count] is 1 plus the number of later calls. *)
Theorem first_assignment_is_kept
    (env : Env) (now : datetime) (lead_id client_id : uuid) (db db1 : DB)
    (token : GmailToken) (times : list datetime) :
  NoDup (map la_id (lead_mailbox_assignments db)) ->
  NoDup (map Runs.mailbox_key (gmail_tokens db)) ->
  Orm.get (Utils.is_active_assignment_of lead_id client_id)
    (lead_mailbox_assignments db) = Orm.DoesNotExist ->
  Utils.get_or_assign_mailbox_for_lead env now lead_id client_id db
  = (Ok token, db1) ->
  fst (Runs.get_or_assign_calls env times lead_id client_id db1)
  = repeat (Ok token) (List.length times)
  /\ exists assignment,
       Orm.get (Utils.is_active_assignment_of lead_id client_id)
         (lead_mailbox_assignments
            (snd (Runs.get_or_assign_calls env times lead_id client_id db1)))
       = Orm.Found assignment
       /\ la_assigned_email assignment = tk_email_address token
       /\ la_email_count assignment = 1 + Z.of_nat (List.length times).
Proof.
  intros Hnda Hndt Hnone. unfold Utils.get_or_assign_mailbox_for_lead.
  rewrite Hnone. unfold Utils.assign_new_mailbox.
  destruct (get_next_mailbox_token_spec env now client_id db)
    as [[_ E]|(t0 & Hin & Hact & _ & E)]; rewrite E; [discriminate|].
  unfold Utils.create_assignment, EmailTracker.fresh_pk. simpl.
  destruct (existsb _ (lead_mailbox_assignments db)) eqn:Hex; [discriminate|].
  intros H. inversion H; subst token db1. clear H E.
  set (row := mkLeadMailboxAssignment _ _ _ _ _ _ _ _).
  set (db1 := with_assignments _ _).
  assert (Hold : forall x, In x (lead_mailbox_assignments db) ->
                   String.eqb (la_id x) (la_id row) = false).
  { intros x Hx. pose proof (existsb_false_in _ _ Hex x Hx) as F.
    now apply orb_false_elim in F. }
  assert (Hnd1 : NoDup (map la_id (lead_mailbox_assignments db1))).
  { subst db1. simpl. now apply NoDup_map_snoc. }
  assert (Hga : Orm.get (Utils.is_active_assignment_of lead_id client_id)
                  (lead_mailbox_assignments db1) = Orm.Found row).
  { subst db1. simpl. apply get_snoc_new.
    - apply get_missing. exact Hnone.
    - unfold Utils.is_active_assignment_of. simpl.
      now rewrite !String.eqb_refl. }
  assert (Hgt : Orm.get (Utils.is_active_mailbox (la_assigned_email row)
                           client_id) (gmail_tokens db1)
                = Orm.Found (Utils.set_last_used_at t0 now)).
  { subst db1. simpl. now apply get_mailbox_after_use. }
  destruct (get_or_assign_calls_existing env lead_id client_id
              (Utils.set_last_used_at t0 now) times db1 row Hnd1 Hga Hgt)
    as (Hr & Hg & _).
  split; [exact Hr|].
  exists (Runs.after_uses row times). split; [exact Hg|].
  destruct (after_uses_fields times row) as (_ & _ & _ & E4 & _ & E6).
  rewrite E4, E6. split; reflexivity.
Qed.

Lemma first_assignment_is_kept_witness :
  fst (Runs.get_or_assign_calls Demo.env [2000; 3000] Demo.lead1 Demo.client1
         (snd (Utils.get_or_assign_mailbox_for_lead Demo.env 1000 Demo.lead1
                 Demo.client1 Demo.db_one_job)))
  = [Ok (Utils.set_last_used_at Demo.mailbox_a 1000);
     Ok (Utils.set_last_used_at Demo.mailbox_a 1000)].
Proof.
  assert (Hnda : NoDup (map la_id (lead_mailbox_assignments Demo.db_one_job)))
    by constructor.
  assert (Hndt : NoDup (map Runs.mailbox_key (gmail_tokens Demo.db_one_job))).
  { simpl. constructor; [intros []|constructor]. }
  exact (proj1 (first_assignment_is_kept Demo.env 1000 Demo.lead1 Demo.client1
                  Demo.db_one_job _ _ [2000; 3000] Hnda Hndt eq_refl eq_refl)).
Defined.

(* ------------------------------------------------------------------ *)
(** ** Rotation between the mailboxes of a tenant *)

(** X11.  [get_next_mailbox_token] rotates: when every active mailbox of
    the tenant sorts strictly before the instant of the call (it was last
    used earlier, or never and the database sorts NULLs first) and the
    tenant has an active mailbox other than the one returned, the next
    call on the resulting database succeeds and returns another mailbox
    than the one just returned. *)
Theorem next_mailbox_token_rotates
    (env : Env) (now later : datetime) (client_id : uuid) (db db1 : DB)
    (first other : GmailToken) :
  (forall t, In t (gmail_tokens db) ->
             Utils.is_active_token_of client_id t = true ->
             Runs.used_before env now t = true) ->
  Utils.get_next_mailbox_token env now client_id db = (Ok first, db1) ->
  In other (gmail_tokens db) ->
  Utils.is_active_token_of client_id other = true ->
  tk_id other <> tk_id first ->
  exists second db2,
    Utils.get_next_mailbox_token env later client_id db1 = (Ok second, db2)
    /\ tk_id second <> tk_id first.
Proof.
  intros Hbefore Hcall Hin Hact Hne.
  destruct (get_next_mailbox_token_spec env now client_id db)
    as [[_ E]|(t0 & Hin0 & Hact0 & _ & E)]; rewrite E in Hcall;
    [discriminate|].
  inversion Hcall; subst first db1. clear Hcall E. simpl in Hne.
  assert (Hother : In other
                     (Orm.update_where
                        (fun t => String.eqb (tk_id t) (tk_id t0))
                        (fun t => Utils.set_last_used_at t now)
                        (gmail_tokens db))).
  { unfold Orm.update_where. apply in_map_iff. exists other.
    split; [|exact Hin].
    apply String.eqb_neq in Hne. now rewrite Hne. }
  match goal with
  | |- context [Utils.get_next_mailbox_token env later client_id ?d] =>
      destruct (get_next_mailbox_token_spec env later client_id d)
        as [[Hempty _]|(t2 & Hin2 & Hact2 & Hleast & E2)]
  end.
  - exfalso. simpl in Hempty.
    assert (Hf : In other
                   (filter (Utils.is_active_token_of client_id)
                      (Orm.update_where
                         (fun t => String.eqb (tk_id t) (tk_id t0))
                         (fun t => Utils.set_last_used_at t now)
                         (gmail_tokens db))))
      by (apply filter_In; auto).
    rewrite Hempty in Hf. destruct Hf.
  - exists (Utils.set_last_used_at t2 later). eexists.
    split; [exact E2|]. simpl. intros Heq.
    simpl in Hin2, Hleast.
    pose proof (Hleast other Hother Hact) as Hle.
    unfold Orm.update_where in Hin2. apply in_map_iff in Hin2.
    destruct Hin2 as (z & Hz & _).
    destruct (String.eqb (tk_id z) (tk_id t0)) eqn:Ez.
    + subst t2. simpl in Hle.
      pose proof (Hbefore other Hin Hact) as Hb.
      unfold Runs.used_before in Hb.
      destruct (tk_last_used_at other) as [x|]; simpl in Hle.
      * apply Z.ltb_lt in Hb. apply Z.leb_le in Hle. lia.
      * rewrite Hb in Hle. discriminate.
    + subst t2. apply String.eqb_neq in Ez. contradiction.
Qed.

Lemma next_mailbox_token_rotates_witness :
  fst (Utils.get_next_mailbox_token Demo.env 1000 Demo.client1
         Demo.db_assigned)
  = Ok (Utils.set_last_used_at Demo.mailbox_a 1000)
  /\ exists second db2,
       Utils.get_next_mailbox_token Demo.env 2000 Demo.client1
         (snd (Utils.get_next_mailbox_token Demo.env 1000 Demo.client1
                 Demo.db_assigned))
       = (Ok second, db2)
       /\ tk_id second <> "token-a".
Proof.
  split; [reflexivity|].
  apply (next_mailbox_token_rotates Demo.env 1000 2000 Demo.client1
           Demo.db_assigned _ (Utils.set_last_used_at Demo.mailbox_a 1000)
           Demo.mailbox_b).
  - intros t [<-|[<-|[]]] _; reflexivity.
  - reflexivity.
  - right. now left.
  - reflexivity.
  - discriminate.
Defined.

(* ------------------------------------------------------------------ *)
(** ** Choosing a mailbox by remaining capacity *)

Section Capacity.

Lemma get_mailbox_with_capacity_cases (env : Env) (client_id : uuid)
    (db : DB) :
  (Utils.get_mailbox_with_capacity env client_id db
   = Raise (ValueError
              ("All mailboxes have reached daily send limit for client "
               ++ client_id))
   /\ forall t, In t (gmail_tokens db) ->
                Utils.is_active_token_of client_id t = true ->
                Utils.remaining t <= 0)
  \/ (exists t0,
        Utils.get_mailbox_with_capacity env client_id db = Ok t0
        /\ In t0 (gmail_tokens db)
        /\ Utils.is_active_token_of client_id t0 = true
        /\ 0 < Utils.remaining t0
        /\ (forall t, In t (gmail_tokens db) ->
                      Utils.is_active_token_of client_id t = true ->
                      Utils.remaining t <= Utils.remaining t0)
        /\ (forall t, In t (gmail_tokens db) ->
                      Utils.is_active_token_of client_id t = true ->
                      Utils.remaining t = Utils.remaining t0 ->
                      Orm.le_nullable (nulls_first env) (tk_last_used_at t0)
                        (tk_last_used_at t) = true)).
Proof.
  unfold Utils.get_mailbox_with_capacity.
  set (le := fun a b : GmailToken =>
               (Utils.remaining b <? Utils.remaining a)
               || ((Utils.remaining a =? Utils.remaining b)
                   && Orm.le_nullable (nulls_first env)
                        (tk_last_used_at a) (tk_last_used_at b))).
  set (cands := filter (fun t => 0 <? Utils.remaining t)
                  (filter (Utils.is_active_token_of client_id)
                     (gmail_tokens db))).
  assert (Hcand : forall t, In t cands <->
                    In t (gmail_tokens db)
                    /\ Utils.is_active_token_of client_id t = true
                    /\ 0 < Utils.remaining t).
  { intros t. subst cands. rewrite !filter_In, Z.ltb_lt. tauto. }
  destruct (Orm.first (Orm.order_by le cands)) as [t0|] eqn:E.
  - right. exists t0. split; [reflexivity|].
    assert (Htrans : forall a b c,
               le a b = true -> le b c = true -> le a c = true).
    { intros a b c H1 H2. unfold le in *.
      apply orb_true_iff in H1, H2. apply orb_true_iff.
      destruct H1 as [H1|H1], H2 as [H2|H2];
        rewrite ?andb_true_iff, ?Z.ltb_lt, ?Z.eqb_eq in *.
      - left. lia.
      - left. lia.
      - left. lia.
      - right. destruct H1 as [H1 L1], H2 as [H2 L2].
        split; [lia|]. exact (le_nullable_trans _ _ _ _ L1 L2). }
    assert (Hrefl : forall a, le a a = true).
    { intros a. unfold le. rewrite Z.eqb_refl, le_nullable_refl.
      apply orb_true_r. }
    assert (Htot : forall a b, le a b = false -> le b a = true).
    { intros a b H. unfold le in *. apply orb_false_elim in H.
      destruct H as [H1 H2]. apply Z.ltb_ge in H1. apply orb_true_iff.
      destruct (Z.eq_dec (Utils.remaining a) (Utils.remaining b)) as [Heq|Hn].
      - right. rewrite Heq, Z.eqb_refl in *. simpl in *.
        now apply le_nullable_total.
      - left. apply Z.ltb_lt. lia. }
    apply first_order_by_least in E; try assumption.
    destruct E as [Hin Hleast]. apply Hcand in Hin.
    destruct Hin as (Hin & Hact & Hpos).
    repeat split; auto.
    + intros t Ht Ha. destruct (Z_lt_le_dec 0 (Utils.remaining t)) as [Hp|Hp];
        [|lia].
      assert (Hc : In t cands) by (apply Hcand; auto).
      apply Hleast in Hc. unfold le in Hc. apply orb_true_iff in Hc.
      rewrite andb_true_iff, Z.ltb_lt, Z.eqb_eq in Hc.
      destruct Hc as [Hc|[Hc _]]; lia.
    + intros t Ht Ha Heq.
      assert (Hc : In t cands) by (apply Hcand; repeat split; auto; lia).
      apply Hleast in Hc. unfold le in Hc. apply orb_true_iff in Hc.
      rewrite andb_true_iff, Z.ltb_lt in Hc.
      destruct Hc as [Hc|[_ Hc]]; [lia | exact Hc].
  - left. split; [reflexivity|].
    apply (first_order_by_none le) in E.
    intros t Ht Ha. destruct (Z_lt_le_dec 0 (Utils.remaining t)) as [Hp|Hp];
      [|exact Hp].
    assert (Hc : In t cands) by (apply Hcand; auto).
    rewrite E in Hc. destruct Hc.
Qed.

End Capacity.

(** X12.  [get_mailbox_with_capacity] returns an active mailbox of the
    tenant that has capacity left, none of the tenant's active mailboxes
    has more capacity left, and among those with as much left it is a
    least recently used one.  It raises [ValueError] exactly when no
    active mailbox of the tenant has capacity left, which is also what it
    raises for a tenant without any mailbox. *)
Theorem mailbox_with_capacity_has_most_room
    (env : Env) (client_id : uuid) (db : DB) :
  match Utils.get_mailbox_with_capacity env client_id db with
  | Ok t0 =>
      In t0 (gmail_tokens db)
      /\ Utils.is_active_token_of client_id t0 = true
      /\ tk_daily_send_count t0 < tk_daily_send_limit t0
      /\ (forall t, In t (gmail_tokens db) ->
                    Utils.is_active_token_of client_id t = true ->
                    Utils.remaining t <= Utils.remaining t0)
      /\ (forall t, In t (gmail_tokens db) ->
                    Utils.is_active_token_of client_id t = true ->
                    Utils.remaining t = Utils.remaining t0 ->
                    Orm.le_nullable (nulls_first env) (tk_last_used_at t0)
                      (tk_last_used_at t) = true)
  | Raise e =>
      e = ValueError ("All mailboxes have reached daily send limit for client "
                      ++ client_id)
      /\ forall t, In t (gmail_tokens db) ->
                   Utils.is_active_token_of client_id t = true ->
                   tk_daily_send_limit t <= tk_daily_send_count t
  end.
Proof.
  destruct (get_mailbox_with_capacity_cases env client_id db)
    as [[E H]|(t0 & E & Hin & Hact & Hpos & Hmax & Hlru)]; rewrite E.
  - split; [reflexivity|]. intros t Ht Ha. specialize (H t Ht Ha).
    unfold Utils.remaining in H. lia.
  - unfold Utils.remaining in Hpos. repeat split; auto. lia.
Qed.

(** X13.  After [reset_daily_send_counts], a tenant that has an active
    mailbox with a positive daily limit gets a mailbox from
    [get_mailbox_with_capacity]: the mailbox returned has
    [daily_send_count] 0 and a limit at least as high as that of any
    active mailbox of the tenant. *)
Theorem reset_daily_send_counts_restores_capacity
    (env : Env) (client_id : uuid) (db : DB) (t : GmailToken) :
  In t (gmail_tokens db) ->
  Utils.is_active_token_of client_id t = true ->
  0 < tk_daily_send_limit t ->
  exists t',
    Utils.get_mailbox_with_capacity env client_id
      (snd (Utils.reset_daily_send_counts db)) = Ok t'
    /\ tk_daily_send_count t' = 0
    /\ tk_daily_send_limit t <= tk_daily_send_limit t'.
Proof.
  intros Hin Hact Hlim.
  set (zero := fun x => mkGmailToken (tk_id x) (tk_client_id x)
                          (tk_email_address x) (tk_status x)
                          (tk_send_priority x) 0 (tk_daily_send_limit x)
                          (tk_last_used_at x)).
  assert (Hstat : TokenStatus_eqb (tk_status t) tok_active = true).
  { unfold Utils.is_active_token_of in Hact.
    now apply andb_prop in Hact. }
  assert (Hz : In (zero t) (gmail_tokens (snd (Utils.reset_daily_send_counts db)))).
  { simpl. unfold Orm.update_where. apply in_map_iff. exists t.
    split; [|exact Hin]. now rewrite Hstat. }
  assert (Hzact : Utils.is_active_token_of client_id (zero t) = true)
    by exact Hact.
  destruct (get_mailbox_with_capacity_cases env client_id
              (snd (Utils.reset_daily_send_counts db)))
    as [[_ H]|(t0 & E & Hin0 & Hact0 & _ & Hmax & _)].
  - specialize (H (zero t) Hz Hzact). unfold Utils.remaining in H.
    simpl in H. lia.
  - exists t0. split; [exact E|].
    simpl in Hin0. unfold Orm.update_where in Hin0.
    apply in_map_iff in Hin0. destruct Hin0 as (z & Hz0 & _).
    specialize (Hmax (zero t) Hz Hzact).
    unfold Utils.is_active_token_of in Hact0.
    apply andb_prop in Hact0. destruct Hact0 as [_ Hs0].
    destruct (TokenStatus_eqb (tk_status z) tok_active) eqn:Ez.
    + subst t0. unfold Utils.remaining in Hmax. simpl in *.
      split; [reflexivity | lia].
    + subst t0. congruence.
Qed.

Lemma reset_daily_send_counts_restores_capacity_witness :
  Utils.get_mailbox_with_capacity Demo.env Demo.client1 Demo.db_full_mailbox
  = Raise (ValueError
             "All mailboxes have reached daily send limit for client client-1")
  /\ exists t',
       Utils.get_mailbox_with_capacity Demo.env Demo.client1
         (snd (Utils.reset_daily_send_counts Demo.db_full_mailbox)) = Ok t'
       /\ tk_daily_send_count t' = 0.
Proof.
  split; [reflexivity|].
  destruct (reset_daily_send_counts_restores_capacity Demo.env Demo.client1
              Demo.db_full_mailbox Demo.mailbox_full (or_introl eq_refl)
              eq_refl eq_refl) as (t' & E & Hc & _).
  exists t'. split; assumption.
Defined.

(* ------------------------------------------------------------------ *)
(** ** The daily maintenance tasks *)

Section Maintenance.

Lemma NoDup_map_filter {R : Type} (key : R -> string) (P : R -> bool)
    (t : list R) :
  NoDup (map key t) -> NoDup (map key (filter P t)).
Proof.
  induction t as [|x t IH]; intros Hnd; simpl; [constructor|].
  inversion Hnd as [|? ? Hout Hnd']; subst.
  destruct (P x); simpl; [|now apply IH].
  constructor; [|now apply IH].
  intros Hin. apply Hout. apply in_map_iff in Hin.
  destruct Hin as (y & E & Hy). apply filter_In in Hy.
  rewrite <- E. apply in_map. tauto.
Qed.

Lemma unique_key_eq {R : Type} (key : R -> string) (t : list R) (x y : R) :
  NoDup (map key t) -> In x t -> In y t -> key x = key y -> x = y.
Proof.
  intros Hnd Hx Hy E.
  pose proof (filter_unique_key key t y Hnd Hy) as F.
  assert (Hin : In x (filter (fun z => String.eqb (key z) (key y)) t)).
  { apply filter_In. split; [exact Hx|]. rewrite E. apply String.eqb_refl. }
  rewrite F in Hin. destruct Hin as [<-|[]]. reflexivity.
Qed.

Lemma filter_split_length {R : Type} (P : R -> bool) (t : list R) :
  (List.length (filter P t) + List.length (filter (fun x => negb (P x)) t)
   = List.length t)%nat.
Proof.
  induction t as [|x t IH]; simpl; [reflexivity|].
  destruct (P x); simpl; lia.
Qed.

Lemma find_update_where {R : Type} (P Q : R -> bool) (f : R -> R)
    (t : list R) :
  (forall x, P (f x) = P x) ->
  find P (Orm.update_where Q f t)
  = option_map (fun x => if Q x then f x else x) (find P t).
Proof.
  intros Hf. induction t as [|x t IH]; simpl; [reflexivity|].
  destruct (Q x) eqn:E.
  - rewrite Hf. destruct (P x); simpl; [now rewrite E | exact IH].
  - destruct (P x); simpl; [now rewrite E | exact IH].
Qed.

Lemma update_where_fixed {R : Type} (Q : R -> bool) (f : R -> R)
    (t : list R) :
  (forall x, Q (f x) = false) ->
  Orm.update_where Q f (Orm.update_where Q f t) = Orm.update_where Q f t
  /\ filter Q (Orm.update_where Q f t) = [].
Proof.
  intros Hf. induction t as [|x t [IH1 IH2]]; simpl; [split; reflexivity|].
  destruct (Q x) eqn:E; simpl.
  - rewrite Hf, IH1, IH2. split; reflexivity.
  - rewrite E, IH1, IH2. split; reflexivity.
Qed.

End Maintenance.

(** X14.  After [cleanup_expired_pixels] at instant [now], with pixel ids
    unique, a hit on the id of a pixel that was in the table (and whose
    counter has room) is recorded exactly when the pixel was created less
    than 30 days before [now], or at that very instant, and the database
    takes the event row of the hit (its address and its user agent); for
    an older pixel [record_open] returns false whatever the hit.  The
    number the task returns is the number of rows that are gone, and no
    other table is touched. *)
Theorem cleanup_expired_pixels_ends_tracking
    (env : Env) (now later : datetime) (user_agent ip_address : option string)
    (client_id : option uuid) (db : DB) (pixel : EmailTrackingPixel) :
  NoDup (map px_pixel_id (email_tracking_pixels db)) ->
  In pixel (email_tracking_pixels db) ->
  px_open_count pixel + 1 <= int4_max ->
  fst (EmailTracker.record_open env later (px_pixel_id pixel) user_agent
         ip_address client_id (snd (Tasks.cleanup_expired_pixels now db)))
  = (now - 30 * 86400 <=? px_created_at pixel)
    && EmailTracker.event_row_ok env user_agent ip_address
  /\ fst (Tasks.cleanup_expired_pixels now db)
     + Z.of_nat (List.length
                   (email_tracking_pixels
                      (snd (Tasks.cleanup_expired_pixels now db))))
     = Z.of_nat (List.length (email_tracking_pixels db))
  /\ email_events (snd (Tasks.cleanup_expired_pixels now db)) = email_events db
  /\ email_click_tracking (snd (Tasks.cleanup_expired_pixels now db))
     = email_click_tracking db
  /\ email_send_queue (snd (Tasks.cleanup_expired_pixels now db))
     = email_send_queue db.
Proof.
  intros Hnd Hin Hroom.
  set (expired := fun p => px_created_at p <? now - 30 * 86400).
  set (kept := filter (fun p => negb (expired p)) (email_tracking_pixels db)).
  set (db' := snd (Tasks.cleanup_expired_pixels now db)).
  assert (Hpx : email_tracking_pixels db' = kept) by reflexivity.
  split; [|split; [|repeat split]].
  - assert (Hndk : NoDup (map px_pixel_id kept))
      by (subst kept; now apply NoDup_map_filter).
    destruct (now - 30 * 86400 <=? px_created_at pixel) eqn:E.
    + assert (Hk : In pixel kept).
      { subst kept. apply filter_In. split; [exact Hin|].
        unfold expired. apply negb_true_iff. apply Z.ltb_ge.
        now apply Z.leb_le. }
      assert (Hget : Orm.get (Runs.by_pixel_id (px_pixel_id pixel))
                       (email_tracking_pixels db') = Orm.Found pixel).
      { rewrite Hpx.
        exact (get_by_unique_key px_pixel_id kept pixel Hndk Hk). }
      exact (proj1 (record_open_tables env later (px_pixel_id pixel) user_agent
                      ip_address client_id db' pixel Hget Hroom)).
    + unfold EmailTracker.record_open. rewrite Hpx.
      unfold Orm.get. rewrite filter_none; [reflexivity|].
      intros x Hx. apply String.eqb_neq. intros Heq.
      assert (Hxin : In x (email_tracking_pixels db)).
      { subst kept. apply filter_In in Hx. tauto. }
      pose proof (unique_key_eq px_pixel_id _ x pixel Hnd Hxin Hin Heq) as ->.
      subst kept. apply filter_In in Hx. destruct Hx as [_ Hx].
      unfold expired in Hx. apply negb_true_iff in Hx.
      apply Z.ltb_ge in Hx. apply Z.leb_gt in E. lia.
  - rewrite Hpx. subst kept.
    rewrite <- (filter_split_length expired (email_tracking_pixels db)).
    rewrite Nat2Z.inj_add. reflexivity.
Qed.

Lemma cleanup_expired_pixels_ends_tracking_witness :
  fst (Tasks.cleanup_expired_pixels (41 * 86400) Demo.db_two_pixels) = 1
  /\ fst (EmailTracker.record_open Demo.env (41 * 86400) "px-1" None None None
            (snd (Tasks.cleanup_expired_pixels (41 * 86400)
                    Demo.db_two_pixels)))
     = false
  /\ fst (EmailTracker.record_open Demo.env (41 * 86400) "px-2" None None None
            (snd (Tasks.cleanup_expired_pixels (41 * 86400)
                    Demo.db_two_pixels)))
     = true.
Proof.
  assert (Hnd : NoDup (map px_pixel_id
                         (email_tracking_pixels Demo.db_two_pixels))).
  { simpl. constructor; [intros [H|[]]; discriminate H|].
    constructor; [intros []|constructor]. }
  split; [reflexivity|]. split.
  - refine (proj1 (cleanup_expired_pixels_ends_tracking Demo.env (41 * 86400)
                     (41 * 86400) None None None Demo.db_two_pixels
                     Demo.pixel1 Hnd (or_introl eq_refl) _)).
    intros H; discriminate H.
  - refine (proj1 (cleanup_expired_pixels_ends_tracking Demo.env (41 * 86400)
                     (41 * 86400) None None None Demo.db_two_pixels
                     Demo.pixel_new Hnd (or_intror (or_introl eq_refl)) _)).
    intros H; discriminate H.
Defined.

(** X15.  [reset_daily_limits] leaves nothing to reset: run again at the
    same instant it updates 0 rows and changes nothing, and the lazy
    reset inside [check_client_daily_limit] does not fire any more, for
    any tenant.  A known tenant whose row was stale has its counter at 0
    afterwards, so the check answers whether its limit is positive. *)
Theorem reset_daily_limits_leaves_nothing_stale (now : datetime) (db : DB) :
  Tasks.reset_daily_limits now (snd (Tasks.reset_daily_limits now db))
  = (0, snd (Tasks.reset_daily_limits now db))
  /\ (forall client_id,
        snd (Tasks.check_client_daily_limit now client_id
               (snd (Tasks.reset_daily_limits now db)))
        = snd (Tasks.reset_daily_limits now db))
  /\ (forall client_id row,
        find (fun c => String.eqb (cl_id c) client_id) (clients db)
        = Some row ->
        cl_last_reset_date row < Tasks.date_of now ->
        fst (Tasks.check_client_daily_limit now client_id
               (snd (Tasks.reset_daily_limits now db)))
        = (0 <? cl_gmail_daily_limit row)).
Proof.
  set (stale := fun c => cl_last_reset_date c <? Tasks.date_of now).
  set (f := fun c => mkClientRow (cl_id c) (cl_gmail_daily_limit c) 0
                       (Tasks.date_of now)).
  assert (Hf : forall x, stale (f x) = false).
  { intros x. unfold stale, f. simpl. apply Z.ltb_irrefl. }
  destruct (update_where_fixed stale f (clients db) Hf) as [Hfix Hnone].
  assert (Hfresh : forall x, In x (Orm.update_where stale f (clients db)) ->
                             stale x = false).
  { intros x Hx. unfold Orm.update_where in Hx. apply in_map_iff in Hx.
    destruct Hx as (z & <- & _). destruct (stale z) eqn:E; [apply Hf | exact E]. }
  change (Tasks.reset_daily_limits now db)
    with (Z.of_nat (List.length (filter stale (clients db))),
          with_clients (Orm.update_where stale f) db).
  cbn [snd].
  set (db1 := with_clients (Orm.update_where stale f) db).
  assert (Hcl : clients db1 = Orm.update_where stale f (clients db))
    by reflexivity.
  split; [|split].
  - change (Tasks.reset_daily_limits now db1)
      with (Z.of_nat (List.length (filter stale (clients db1))),
            with_clients (Orm.update_where stale f) db1).
    rewrite Hcl, Hnone. f_equal.
    unfold with_clients. rewrite Hcl, Hfix. reflexivity.
  - intros client_id. unfold Tasks.check_client_daily_limit.
    destruct (find _ (clients db1)) as [row|] eqn:E; [|reflexivity].
    apply find_some in E. destruct E as [Hin _].
    rewrite Hcl in Hin. specialize (Hfresh row Hin). unfold stale in Hfresh.
    now rewrite Hfresh.
  - intros client_id row Hfind Hlt. unfold Tasks.check_client_daily_limit.
    rewrite Hcl, find_update_where by reflexivity. rewrite Hfind.
    cbn [option_map].
    assert (Hs : stale row = true) by (unfold stale; now apply Z.ltb_lt).
    rewrite Hs. unfold f. cbn [cl_last_reset_date cl_emails_sent_today
                                 cl_gmail_daily_limit fst].
    now rewrite Z.ltb_irrefl.
Qed.

(* ------------------------------------------------------------------ *)
(** ** From the queueing endpoint to the dispatcher *)

(** X16.  A message accepted by [send_email] is appended to the queue
    as a PENDING job with no attempt made and three allowed, scheduled at
    the requested instant or, when none is requested, [send_delay_days]
    days after the request; the rows already queued are kept as they
    are.  No dispatcher batch read before that instant contains the job,
    and the job is due at every instant from then on. *)
Theorem queued_email_waits_for_its_delay
    (env : Env) (now : datetime) (data : Views.EmailSendRequest)
    (db db' : DB) (queue_id : uuid) (scheduled_for : datetime) :
  Views.send_email env now data db
  = (Views.Created queue_id scheduled_for, db') ->
  scheduled_for
  = Py.or_else (Views.rq_scheduled_for data)
      (now + Views.rq_send_delay_days data * 86400)
  /\ (exists job,
        email_send_queue db' = (email_send_queue db ++ [job])%list
        /\ q_id job = queue_id
        /\ q_lead_id job = Views.rq_lead_id data
        /\ q_client_id job = Views.rq_client_id data
        /\ q_recipient_email job = Views.rq_recipient_email data
        /\ q_status job = PENDING
        /\ q_attempts job = 0
        /\ q_max_attempts job = 3
        /\ forall t, scheduled_for <= t -> Tasks.is_ready t job = true)
  /\ (forall t j, t < scheduled_for ->
                  In j (Tasks.ready_emails t db') -> q_id j <> queue_id).
Proof.
  unfold Views.send_email, EmailTracker.fresh_pk.
  match goal with
  | |- context [match ?x with Some _ => _ | None => (Views.Unhandled _, _) end] =>
      set (scheduled := x)
  end.
  assert (Hs : forall t, scheduled = Some t ->
                 t = Py.or_else (Views.rq_scheduled_for data)
                       (now + Views.rq_send_delay_days data * 86400)).
  { subst scheduled. intros t.
    destruct (Views.rq_scheduled_for data); simpl.
    - intros H. now inversion H.
    - destruct (_ && _ && _); intros H; now inversion H. }
  destruct scheduled as [t0|]; [|discriminate].
  specialize (Hs t0 eq_refl).
  destruct (negb _); [discriminate|]. cbn [email_send_queue tick].
  destruct (existsb _ (email_send_queue db)) eqn:Hex; [discriminate|].
  intros H. inversion H; subst queue_id scheduled_for db'. clear H.
  split; [exact Hs|]. split.
  - eexists. split; [reflexivity|]. simpl. repeat split.
    intros t Ht. unfold Tasks.is_ready. simpl. now apply Z.leb_le.
  - intros t j Ht Hj. apply ready_emails_in in Hj.
    destruct Hj as (Hin & _ & Hdue). simpl in Hin.
    apply in_app_or in Hin. destruct Hin as [Hin|[<-|[]]].
    + pose proof (existsb_false_in _ _ Hex j Hin) as E.
      now apply String.eqb_neq in E.
    + simpl in Hdue. lia.
Qed.

Lemma queued_email_waits_for_its_delay_witness :
  fst (Views.send_email Demo.env 1000 Demo.send_request Demo.db_one_job)
  = Views.Created "uuid-0" (1000 + 3 * 86400)
  /\ forall t j,
       t < 1000 + 3 * 86400 ->
       In j (Tasks.ready_emails t
               (snd (Views.send_email Demo.env 1000 Demo.send_request
                       Demo.db_one_job))) ->
       q_id j <> "uuid-0".
Proof.
  split; [reflexivity|].
  exact (proj2 (proj2 (queued_email_waits_for_its_delay Demo.env 1000
                         Demo.send_request Demo.db_one_job _ _ _ eq_refl))).
Defined.

Section Immediate.

Lemma length_insert_sorted {R : Type} (le : R -> R -> bool) (x : R)
    (t : list R) :
  List.length (Orm.insert_sorted le x t) = S (List.length t).
Proof.
  induction t as [|y t IH]; simpl; [reflexivity|].
  destruct (le x y); simpl; [reflexivity | now rewrite IH].
Qed.

Lemma length_order_by {R : Type} (le : R -> R -> bool) (t : list R) :
  List.length (Orm.order_by le t) = List.length t.
Proof.
  induction t as [|x t IH]; simpl; [reflexivity|].
  now rewrite length_insert_sorted, IH.
Qed.

End Immediate.

(** X17.  [send_single_email] on the id of a PENDING job, with job ids
    unique, writes [scheduled_for] = now on that job and nothing else,
    asks for a dispatcher cycle, and the job is due at once: it is in the
    next batch whenever at most 100 jobs are due.  On a job in any other
    state, and on an unknown id, it returns an error, asks for no cycle
    and leaves the database as it was. *)
Theorem send_single_email_makes_pending_job_due
    (now : datetime) (email_queue_id : uuid) (db : DB) :
  NoDup (map q_id (email_send_queue db)) ->
  match Orm.get (Runs.by_id email_queue_id) (email_send_queue db) with
  | Orm.Found job =>
      if QueueStatus_eqb (q_status job) PENDING then
        Tasks.send_single_email now email_queue_id db
        = (Ok (Tasks.SingleSuccess email_queue_id), true,
           with_queue (Orm.save q_id (Runs.rescheduled now job)) db)
        /\ Orm.get (Runs.by_id email_queue_id)
             (email_send_queue
                (snd (Tasks.send_single_email now email_queue_id db)))
           = Orm.Found (Runs.rescheduled now job)
        /\ map q_id (email_send_queue
                       (snd (Tasks.send_single_email now email_queue_id db)))
           = map q_id (email_send_queue db)
        /\ ((List.length
               (filter (Tasks.is_ready now)
                  (email_send_queue
                     (snd (Tasks.send_single_email now email_queue_id db))))
             <= 100)%nat ->
            In (Runs.rescheduled now job)
              (Tasks.ready_emails now
                 (snd (Tasks.send_single_email now email_queue_id db))))
      else
        exists error,
          Tasks.send_single_email now email_queue_id db
          = (Ok (Tasks.SingleError error), false, db)
  | Orm.DoesNotExist =>
      Tasks.send_single_email now email_queue_id db
      = (Ok (Tasks.SingleError "Email not found"), false, db)
  | Orm.Multiple => False
  end.
Proof.
  intros Hnd.
  destruct (Orm.get (Runs.by_id email_queue_id) (email_send_queue db))
    as [job| |] eqn:Hget.
  - unfold Tasks.send_single_email.
    change (fun e : EmailSendQueue => String.eqb (q_id e) email_queue_id)
      with (Runs.by_id email_queue_id).
    rewrite Hget.
    destruct (QueueStatus_eqb (q_status job) PENDING) eqn:Hs; simpl.
    + change (mkEmailSendQueue (q_id job) (q_lead_id job) (q_client_id job)
                (q_recipient_email job) (q_email_subject job)
                (q_email_body job) (q_sequence_number job) now (q_status job)
                (q_attempts job) (q_max_attempts job) (q_last_error job)
                (q_failed_at job) (q_message_id job) (q_sent_at job)
                (q_sent_from_email job))
        with (Runs.rescheduled now job).
      destruct (get_found_in _ _ _ Hget) as [Hin Hp].
      assert (Hget' : Orm.get (Runs.by_id email_queue_id)
                        (Orm.save q_id (Runs.rescheduled now job)
                           (email_send_queue db))
                      = Orm.Found (Runs.rescheduled now job)).
      { apply (get_save q_id _ _ _ job Hnd Hget); [reflexivity | exact Hp]. }
      split; [reflexivity|]. split; [exact Hget'|]. split.
      { now apply (map_pk_save q_id _ _ job Hin). }
      intros Hlen.
      destruct (get_found_in _ _ _ Hget') as [Hin' _].
      unfold Tasks.ready_emails.
      rewrite firstn_all2 by (now rewrite length_order_by).
      apply order_by_in. apply filter_In. split; [exact Hin'|].
      unfold Tasks.is_ready. simpl. rewrite Hs. simpl.
      apply Z.leb_refl.
    + eexists. reflexivity.
  - unfold Tasks.send_single_email.
    change (fun e : EmailSendQueue => String.eqb (q_id e) email_queue_id)
      with (Runs.by_id email_queue_id).
    now rewrite Hget.
  - unfold Orm.get in Hget.
    destruct (filter _ (email_send_queue db)) as [|a [|b l]] eqn:Hf;
      try discriminate.
    assert (Ha : In a (filter (Runs.by_id email_queue_id)
                         (email_send_queue db))) by (rewrite Hf; now left).
    assert (Hb : In b (filter (Runs.by_id email_queue_id)
                         (email_send_queue db)))
      by (rewrite Hf; right; now left).
    apply filter_In in Ha, Hb. destruct Ha as [Ha Pa], Hb as [Hb Pb].
    apply by_id_true in Pa, Pb.
    assert (Hnf : NoDup (map q_id (filter (Runs.by_id email_queue_id)
                                     (email_send_queue db))))
      by (now apply NoDup_map_filter).
    rewrite Hf in Hnf. simpl in Hnf. inversion Hnf as [|? ? Hout _]; subst.
    apply Hout. left. congruence.
Qed.

Lemma send_single_email_makes_pending_job_due_witness :
  Tasks.ready_emails 1000 Demo.db_three_jobs = [Demo.job2; Demo.job1]
  /\ fst (fst (Tasks.send_single_email 1000 "job-3" Demo.db_three_jobs))
     = Ok (Tasks.SingleSuccess "job-3")
  /\ In (Runs.rescheduled 1000 Demo.job3)
       (Tasks.ready_emails 1000
          (snd (Tasks.send_single_email 1000 "job-3" Demo.db_three_jobs))).
Proof.
  assert (Hnd : NoDup (map q_id (email_send_queue Demo.db_three_jobs))).
  { simpl. repeat constructor; simpl; intuition discriminate. }
  pose proof (send_single_email_makes_pending_job_due 1000 "job-3"
                Demo.db_three_jobs Hnd) as H.
  change (Orm.get (Runs.by_id "job-3") (email_send_queue Demo.db_three_jobs))
    with (Orm.Found Demo.job3) in H.
  cbn iota in H. change (QueueStatus_eqb (q_status Demo.job3) PENDING)
    with true in H. cbn iota in H.
  destruct H as (H1 & _ & _ & H4).
  split; [reflexivity|]. split; [now rewrite H1|].
  apply H4. simpl. lia.
Defined.

(* ------------------------------------------------------------------ *)
(** ** What the request headers are turned into *)

(** X18.  The two user-agent parsers of the code base agree on phones
    and tablets: [parse_user_agent] says Mobile exactly when
    [_parse_device_type] says mobile, and Tablet exactly when it says
    tablet.  They differ on the rest: [parse_user_agent] says Unknown
    only for a missing or empty user agent and calls everything else
    Desktop, also the agents that [_parse_device_type] leaves unknown. *)
Theorem user_agent_parsers_agree_on_handhelds (user_agent : option string) :
  (Utils.device (Utils.parse_user_agent user_agent) = "Mobile"
   <-> EmailTracker._parse_device_type user_agent = "mobile")
  /\ (Utils.device (Utils.parse_user_agent user_agent) = "Tablet"
      <-> EmailTracker._parse_device_type user_agent = "tablet")
  /\ (Utils.device (Utils.parse_user_agent user_agent) = "Unknown"
      <-> Py.truthy user_agent = false)
  /\ (Py.truthy user_agent = true ->
      EmailTracker._parse_device_type user_agent = "desktop"
      \/ EmailTracker._parse_device_type user_agent = "unknown" ->
      Utils.device (Utils.parse_user_agent user_agent) = "Desktop").
Proof.
  unfold Utils.parse_user_agent, EmailTracker._parse_device_type.
  destruct (Py.truthy user_agent); cbv zeta; cbn [negb].
  - set (ua := Py.lower (Py.or_else user_agent EmptyString)).
    destruct (existsb (fun device => Py.contains device ua)
                ["iphone"; "android"; "mobile"]);
      [|destruct (existsb (fun device => Py.contains device ua)
                    ["ipad"; "tablet"]);
        [|destruct (existsb (fun device => Py.contains device ua)
                      ["windows"; "mac"; "linux"])]];
      cbn [Utils.device];
      repeat split; try (intros H; discriminate H); try reflexivity;
        try (intros _ [H|H]; discriminate H); auto.
  - cbn [Utils.device].
    repeat split; try (intros H; discriminate H); try reflexivity; auto.
Qed.

Section ClientIp.







End ClientIp.


(* ------------------------------------------------------------------ *)
(** ** The lead's counters *)

Section LeadMetrics.
Context (env : Env).

Lemma lead_after_opens_fields (calls : list Runs.OpenCall) :
  forall l,
    ld_id (Runs.lead_after_opens l calls) = ld_id l
    /\ ld_emails_opened (Runs.lead_after_opens l calls)
       = ld_emails_opened l + Z.of_nat (List.length calls)
    /\ ld_emails_sent (Runs.lead_after_opens l calls) = ld_emails_sent l
    /\ ld_emails_clicked (Runs.lead_after_opens l calls) = ld_emails_clicked l
    /\ (forall x, ld_first_opened_at l = Some x ->
                  ld_first_opened_at (Runs.lead_after_opens l calls) = Some x)
    /\ (forall c rest, calls = c :: rest -> ld_first_opened_at l = None ->
                       ld_first_opened_at (Runs.lead_after_opens l calls)
                       = Some (Runs.oc_now c)).
Proof.
  induction calls as [|c calls IH]; intros l.
  - simpl. repeat split; auto; try lia. intros c rest H. discriminate H.
  - unfold Runs.lead_after_opens in *. simpl fold_left.
    destruct (IH (Runs.lead_after_open (Runs.oc_now c) l))
      as (I1 & I2 & I3 & I4 & I5 & _).
    rewrite I1, I2, I3, I4. simpl. repeat split; try lia.
    + intros x Hx. apply I5. simpl. now rewrite Hx.
    + intros c' rest H Hnone. inversion H; subst c' rest.
      apply I5. simpl. now rewrite Hnone.
Qed.

(** The UPDATE of the lead's counters when they have room. *)
Lemma update_lead_open_metrics_leads (lead_id : uuid) (timestamp : datetime)
    (db : DB) :
  (forall l, In l (leads db) -> String.eqb (ld_id l) lead_id = true ->
             ld_emails_opened l + 1 <= int4_max) ->
  leads (EmailTracker._update_lead_open_metrics lead_id timestamp db)
  = map (fun l => if String.eqb (ld_id l) lead_id
                  then Runs.lead_after_open timestamp l else l)
      (leads db).
Proof.
  intros Hroom. unfold EmailTracker._update_lead_open_metrics.
  destruct (existsb _ (leads db)) eqn:E; [|reflexivity].
  exfalso. apply existsb_exists in E. destruct E as (l & Hl & Hb).
  apply andb_prop in Hb. destruct Hb as [Hid Hover].
  apply Z.ltb_lt in Hover. specialize (Hroom l Hl Hid). lia.
Qed.

Lemma record_opens_leads (pixel_id : string) (calls : list Runs.OpenCall) :
  forall (db : DB) (pixel : EmailTrackingPixel),
    NoDup (map px_id (email_tracking_pixels db)) ->
    Orm.get (Runs.by_pixel_id pixel_id) (email_tracking_pixels db)
    = Orm.Found pixel ->
    px_open_count pixel + Z.of_nat (List.length calls) <= int4_max ->
    (forall l, In l (leads db) ->
               String.eqb (ld_id l) (px_lead_id pixel) = true ->
               ld_emails_opened l + Z.of_nat (List.length calls) <= int4_max) ->
    leads (snd (Runs.record_opens env pixel_id calls db))
    = map (fun l => if String.eqb (ld_id l) (px_lead_id pixel)
                    then Runs.lead_after_opens l
                           (filter (Runs.accepted env) calls)
                    else l)
        (leads db).
Proof.
  induction calls as [|c calls IH]; intros db pixel Hnd Hget Hroom Hlead.
  - simpl. rewrite <- (map_id (leads db)) at 1. apply map_ext.
    intros l. now destruct (String.eqb (ld_id l) (px_lead_id pixel)).
  - simpl List.length in Hroom, Hlead. rewrite Nat2Z.inj_succ in Hroom, Hlead.
    assert (Hroom1 : px_open_count pixel + 1 <= int4_max) by lia.
    destruct (record_open_tables env (Runs.oc_now c) pixel_id
                (Runs.oc_user_agent c) (Runs.oc_ip_address c)
                (Runs.oc_client_id c) db pixel Hget Hroom1)
      as (_ & Hpx & _ & Hld).
    simpl Runs.record_opens.
    destruct (EmailTracker.record_open env (Runs.oc_now c) pixel_id
                (Runs.oc_user_agent c) (Runs.oc_ip_address c)
                (Runs.oc_client_id c) db) as [r db1].
    simpl in Hpx, Hld.
    rewrite update_lead_open_metrics_leads in Hld
      by (intros l Hl Hid; specialize (Hlead l Hl Hid); lia).
    destruct (after_open_fields (Runs.oc_now c) pixel)
      as (Eid & Epid & Elead & _ & _ & Ecnt).
    destruct (get_found_in _ _ _ Hget) as [Hin Hp].
    assert (Hnd1 : NoDup (map px_id (email_tracking_pixels db1))).
    { rewrite Hpx. now rewrite (map_pk_save px_id _ _ pixel Hin Eid). }
    assert (Hget1 : Orm.get (Runs.by_pixel_id pixel_id)
                      (email_tracking_pixels db1)
                    = Orm.Found (Runs.after_open (Runs.oc_now c) pixel)).
    { rewrite Hpx. apply (get_save px_id _ _ _ pixel Hnd Hget Eid).
      unfold Runs.by_pixel_id in *. now rewrite Epid. }
    assert (Hroom2 : px_open_count (Runs.after_open (Runs.oc_now c) pixel)
                     + Z.of_nat (List.length calls) <= int4_max)
      by (rewrite Ecnt; lia).
    assert (Hlead2 : forall l, In l (leads db1) ->
              String.eqb (ld_id l)
                (px_lead_id (Runs.after_open (Runs.oc_now c) pixel)) = true ->
              ld_emails_opened l + Z.of_nat (List.length calls) <= int4_max).
    { rewrite Elead. intros l Hl Hid. rewrite Hld in Hl.
      destruct (EmailTracker.event_row_ok env (Runs.oc_user_agent c)
           (Runs.oc_ip_address c)).
      - apply in_map_iff in Hl. destruct Hl as (z & <- & Hz).
        destruct (String.eqb (ld_id z) (px_lead_id pixel)) eqn:Ez.
        + specialize (Hlead z Hz Ez). simpl. lia.
        + specialize (Hlead z Hz Hid). lia.
      - specialize (Hlead l Hl Hid). lia. }
    specialize (IH db1 _ Hnd1 Hget1 Hroom2 Hlead2).
    destruct (Runs.record_opens env pixel_id calls db1) as [rs db2].
    simpl in IH. simpl snd. rewrite IH, Hld. rewrite ?Elead.
    change (filter (Runs.accepted env) (c :: calls))
      with (if EmailTracker.event_row_ok env (Runs.oc_user_agent c)
           (Runs.oc_ip_address c)
            then c :: filter (Runs.accepted env) calls
            else filter (Runs.accepted env) calls).
    destruct (EmailTracker.event_row_ok env (Runs.oc_user_agent c)
           (Runs.oc_ip_address c)).
    + rewrite map_map. apply map_ext. intros l.
      destruct (String.eqb (ld_id l) (px_lead_id pixel)) eqn:E; simpl.
      * now rewrite E.
      * now rewrite E.
    + reflexivity.
Qed.

End LeadMetrics.

(** X20.  The lead's counters follow the opens that are recorded.  After
    [record_open] has been called any number of times on the id of an
    existing pixel, with room in the counters, the row of the pixel's
    lead in [leads] has [emails_opened] higher by the number of calls
    whose event row the database took; it keeps a [first_opened_at] it
    already had and otherwise gets the instant of the first such call;
    every row of another lead is what it was.  [emails_sent] and
    [emails_clicked] are not touched, and no row is added for a lead that
    has none. *)
Theorem lead_counters_follow_opens
    (env : Env) (pixel_id : string) (db : DB) (pixel : EmailTrackingPixel)
    (calls : list Runs.OpenCall) :
  NoDup (map px_id (email_tracking_pixels db)) ->
  Orm.get (Runs.by_pixel_id pixel_id) (email_tracking_pixels db)
  = Orm.Found pixel ->
  px_open_count pixel + Z.of_nat (List.length calls) <= int4_max ->
  (forall l, In l (leads db) ->
             String.eqb (ld_id l) (px_lead_id pixel) = true ->
             ld_emails_opened l + Z.of_nat (List.length calls) <= int4_max) ->
  Forall2
    (fun l l' =>
       if String.eqb (ld_id l) (px_lead_id pixel) then
         ld_id l' = ld_id l
         /\ ld_emails_opened l'
            = ld_emails_opened l
              + Z.of_nat (List.length (filter (Runs.accepted env) calls))
         /\ ld_emails_sent l' = ld_emails_sent l
         /\ ld_emails_clicked l' = ld_emails_clicked l
         /\ (forall x, ld_first_opened_at l = Some x ->
                       ld_first_opened_at l' = Some x)
         /\ (forall c rest, filter (Runs.accepted env) calls = c :: rest ->
                            ld_first_opened_at l = None ->
                            ld_first_opened_at l' = Some (Runs.oc_now c))
       else l' = l)
    (leads db)
    (leads (snd (Runs.record_opens env pixel_id calls db))).
Proof.
  intros Hnd Hget Hroom Hlead.
  rewrite (record_opens_leads env pixel_id calls db pixel Hnd Hget Hroom Hlead).
  clear Hnd Hget Hroom Hlead.
  induction (leads db) as [|l t IH]; simpl; [constructor|].
  constructor; [|exact IH].
  destruct (String.eqb (ld_id l) (px_lead_id pixel)); [|reflexivity].
  apply lead_after_opens_fields.
Qed.

Lemma lead_counters_follow_opens_witness :
  Forall2
    (fun l l' =>
       if String.eqb (ld_id l) Demo.lead1 then
         ld_id l' = ld_id l
         /\ ld_emails_opened l' = ld_emails_opened l + 2
       else l' = l)
    (leads Demo.db_tracking)
    (leads (snd (Runs.record_opens Demo.env "px-1"
                   [Demo.hit 100; Demo.hit_unknown 200; Demo.hit 300]
                   Demo.db_tracking))).
Proof.
  assert (Hnd : NoDup (map px_id (email_tracking_pixels Demo.db_tracking))).
  { simpl. constructor; [intros []|constructor]. }
  assert (Hroom : px_open_count Demo.pixel1
                  + Z.of_nat (List.length [Demo.hit 100; Demo.hit_unknown 200;
                                             Demo.hit 300]) <= int4_max)
    by (intros H; discriminate H).
  assert (Hlead : forall l, In l (leads Demo.db_tracking) ->
            String.eqb (ld_id l) (px_lead_id Demo.pixel1) = true ->
            ld_emails_opened l
            + Z.of_nat (List.length [Demo.hit 100; Demo.hit_unknown 200;
                                       Demo.hit 300]) <= int4_max).
  { intros l [<-|[]] _ H. discriminate H. }
  pose proof (lead_counters_follow_opens Demo.env "px-1" Demo.db_tracking
                Demo.pixel1 [Demo.hit 100; Demo.hit_unknown 200; Demo.hit 300]
                Hnd eq_refl Hroom Hlead) as H.
  eapply Forall2_impl; [|exact H].
  intros l l' Hl. simpl in Hl.
  change (px_lead_id Demo.pixel1) with Demo.lead1 in Hl.
  destruct (String.eqb (ld_id l) Demo.lead1); [|exact Hl].
  destruct Hl as (Hid & Hop & _). split; [exact Hid | exact Hop].
Defined.
